(** * kalite.securesync.models: signed records, device counters, batch
      selection and import purgatory

    A shallow embedding of [kalite/securesync/models.py].  The Django ORM is
    modelled by explicit tables threaded through a state-and-exception
    monad; the [crypto] module, the JSON serializer and the process
    settings, which live outside this file, are parameters of the
    development.  Python's [uuid] and [hashlib.sha1] are written out so that
    identifiers can be computed. *)

From Stdlib Require Import ZArith String Ascii List Bool Lia Arith.
From Stdlib Require Import DecimalString.
From stdpp Require Import base list strings.
Import ListNotations.

Local Open Scope string_scope.
Local Open Scope list_scope.
Local Open Scope Z_scope.

(** ** Python strings and number formatting *)

Module Py.

(** [str(n)] for a Python integer. *)
Definition str_int (z : Z) : string := NilZero.string_of_int (Z.to_int z).

(** ["%0<w>d" % n] for a non-negative [n]: at least [w] digits, padded with
    zeros on the left. *)
Fixpoint zeros (n : nat) : string :=
  match n with O => "" | S k => String "0" (zeros k) end.

Definition fmt_0d (w : nat) (z : Z) : string :=
  let s := str_int z in
  if 0 <=? z then zeros (w - String.length s) +:+ s
  else "-" +:+ zeros (w - String.length s) +:+ str_int (- z).

(** ["sep".join(chunks)] *)
Fixpoint join (sep : string) (chunks : list string) : string :=
  match chunks with
  | [] => ""
  | [c] => c
  | c :: rest => c +:+ sep +:+ join sep rest
  end.

(** [s.replace(old, "")]: a left-to-right scan that drops every
    non-overlapping occurrence of [old]; [skip] counts the characters of a
    match still to be dropped. *)
Fixpoint remove_go (old : string) (skip : nat) (s : string) : string :=
  match s with
  | EmptyString => EmptyString
  | String c t =>
      match skip with
      | S k => remove_go old k t
      | O =>
          if (negb (String.eqb old "") && String.prefix old s)%bool
          then remove_go old (String.length old - 1) t
          else String c (remove_go old O t)
      end
  end.

Definition remove_all (old s : string) : string := remove_go old O s.

Definition in_chars (cs : string) (c : ascii) : bool :=
  existsb (Ascii.eqb c) (list_ascii_of_string cs).

Fixpoint lstrip (cs s : string) : string :=
  match s with
  | EmptyString => EmptyString
  | String c t => if in_chars cs c then lstrip cs t else s
  end.

Definition rev_string (s : string) : string :=
  string_of_list_ascii (List.rev (list_ascii_of_string s)).

(** [s.strip(cs)] *)
Definition strip (cs s : string) : string :=
  rev_string (lstrip cs (rev_string (lstrip cs s))).

(** The bytes of a byte string. *)
Definition bytes_of_string (s : string) : list Z :=
  List.map (fun a => Z.of_N (N_of_ascii a)) (list_ascii_of_string s).

(** Big-endian byte strings of a fixed width. *)
Fixpoint be_bytes (n : nat) (x : Z) : list Z :=
  match n with
  | O => []
  | S k => Z.land (Z.shiftr x (8 * Z.of_nat k)) 255 :: be_bytes k x
  end.

Definition be_int (bs : list Z) : Z :=
  List.fold_left (fun acc b => acc * 256 + b) bs 0.

Definition hex_digit (d : Z) : ascii :=
  if d <? 10 then ascii_of_N (Z.to_N (48 + d)) else ascii_of_N (Z.to_N (87 + d)).

(** ["%0<n>x" % x] for [0 <= x < 16^n]: exactly [n] lowercase hex digits. *)
Fixpoint hex_fixed (n : nat) (x : Z) : string :=
  match n with
  | O => EmptyString
  | S k => String (hex_digit (Z.land (Z.shiftr x (4 * Z.of_nat k)) 15)) (hex_fixed k x)
  end.

Definition hex_value (c : ascii) : option Z :=
  let n := Z.of_N (N_of_ascii c) in
  if (48 <=? n) && (n <=? 57) then Some (n - 48)
  else if (97 <=? n) && (n <=? 102) then Some (n - 87)
  else if (65 <=? n) && (n <=? 70) then Some (n - 55)
  else None.

(** [long(s, 16)] on a string of hexadecimal digits; [None] is
    [ValueError].  (The interpreter also accepts a sign, a [0x] prefix,
    surrounding blanks and a trailing [L]; identifiers of that shape are
    treated as malformed here.) *)
Fixpoint long16_go (acc : Z) (s : string) : option Z :=
  match s with
  | EmptyString => Some acc
  | String c t =>
      match hex_value c with
      | Some d => long16_go (acc * 16 + d) t
      | None => None
      end
  end.

Definition long16 (s : string) : option Z :=
  match s with
  | EmptyString => None
  | _ => long16_go 0 s
  end.

(** [repr(s)] of a [unicode] object [s] whose characters are below 256, as
    Python 2 prints it: the prefix [u]; double quotes when the text holds a
    single quote and no double quote, single quotes otherwise; a backslash
    before the quote character and before a backslash; [\t], [\n] and [\r]
    for tab, line feed and carriage return; [\xNN] for the other characters
    outside the printable ASCII range. *)
Definition double_quote : ascii := ascii_of_nat 34.
Definition backslash : ascii := ascii_of_nat 92.

Definition repr_quote (s : string) : ascii :=
  if in_chars s "'" && negb (in_chars s double_quote) then double_quote else "'"%char.

Definition repr_char (quote c : ascii) : string :=
  let n := Z.of_N (N_of_ascii c) in
  if Ascii.eqb c quote || Ascii.eqb c backslash then String backslash (String c "")
  else if n =? 9 then String backslash "t"
  else if n =? 10 then String backslash "n"
  else if n =? 13 then String backslash "r"
  else if (n <? 32) || (127 <=? n) then String backslash ("x" +:+ hex_fixed 2 n)
  else String c "".

Fixpoint repr_body (quote : ascii) (s : string) : string :=
  match s with
  | EmptyString => EmptyString
  | String c t => repr_char quote c +:+ repr_body quote t
  end.

Definition repr_unicode (s : string) : string :=
  let quote := repr_quote s in
  "u" +:+ String quote (repr_body quote s) +:+ String quote "".

(** [repr(l)] of a list of [unicode] objects. *)
Definition repr_unicode_list (l : list string) : string :=
  "[" +:+ join ", " (List.map repr_unicode l) +:+ "]".

End Py.

(** ** hashlib.sha1 *)

Module Sha1.

Definition w32 (x : Z) : Z := Z.land x 4294967295.

Definition rotl (n : Z) (x : Z) : Z :=
  w32 (Z.lor (Z.shiftl x n) (Z.shiftr x (32 - n))).

Definition pad (msg : list Z) : list Z :=
  let len := Z.of_nat (List.length msg) in
  msg ++ [128] ++ List.repeat 0 (Z.to_nat ((55 - len) mod 64)) ++ Py.be_bytes 8 (8 * len).

Fixpoint blocks (fuel : nat) (l : list Z) : list (list Z) :=
  match fuel, l with
  | O, _ | _, [] => []
  | S k, _ => List.firstn 64 l :: blocks k (List.skipn 64 l)
  end.

Fixpoint words (n : nat) (l : list Z) : list Z :=
  match n with
  | O => []
  | S k => Py.be_int (List.firstn 4 l) :: words k (List.skipn 4 l)
  end.

(** The message schedule, most recent word first. *)
Fixpoint schedule (n : nat) (rev_w : list Z) : list Z :=
  match n with
  | O => rev_w
  | S k =>
      let x i := List.nth i rev_w 0 in
      let w := rotl 1 (Z.lxor (Z.lxor (x 2%nat) (x 7%nat)) (Z.lxor (x 13%nat) (x 15%nat))) in
      schedule k (w :: rev_w)
  end.

Definition round_f (t : nat) (b c d : Z) : Z :=
  if (t <? 20)%nat then Z.lor (Z.land b c) (Z.land (Z.lxor b 4294967295) d)
  else if (t <? 40)%nat then Z.lxor (Z.lxor b c) d
  else if (t <? 60)%nat then Z.lor (Z.lor (Z.land b c) (Z.land b d)) (Z.land c d)
  else Z.lxor (Z.lxor b c) d.

Definition round_k (t : nat) : Z :=
  if (t <? 20)%nat then 1518500249
  else if (t <? 40)%nat then 1859775393
  else if (t <? 60)%nat then 2400959708
  else 3395469782.

Definition state : Type := Z * Z * Z * Z * Z.

Fixpoint rounds (t : nat) (ws : list Z) (s : state) : state :=
  match ws with
  | [] => s
  | w :: rest =>
      let '(a, b, c, d, e) := s in
      let tmp := w32 (rotl 5 a + round_f t b c d + e + round_k t + w) in
      rounds (S t) rest (tmp, a, rotl 30 b, c, d)
  end.

Definition compress (s : state) (block : list Z) : state :=
  let ws := List.rev (schedule 64 (List.rev (words 16 block))) in
  let '(a, b, c, d, e) := rounds 0 ws s in
  let '(h0, h1, h2, h3, h4) := s in
  (w32 (h0 + a), w32 (h1 + b), w32 (h2 + c), w32 (h3 + d), w32 (h4 + e)).

Definition init : state :=
  (1732584193, 4023233417, 2562383102, 271733878, 3285377520).

(** [sha1(msg).digest()] as a list of 20 bytes. *)
Definition digest (msg : list Z) : list Z :=
  let p := pad msg in
  let '(h0, h1, h2, h3, h4) :=
    List.fold_left compress (blocks (List.length p) p) init in
  Py.be_bytes 4 h0 ++ Py.be_bytes 4 h1 ++ Py.be_bytes 4 h2
    ++ Py.be_bytes 4 h3 ++ Py.be_bytes 4 h4.

End Sha1.

(** ** The uuid module *)

Module Uuid.

(** A [uuid.UUID] object is its 128-bit integer. *)
Definition t : Type := Z.

(** The [version] argument of the [UUID] constructor: variant and version
    bits are forced. *)
Definition set_version (version : Z) (int : Z) : Z :=
  let int := Z.land int (Z.lnot (Z.shiftl 49152 48)) in
  let int := Z.lor int (Z.shiftl 32768 48) in
  let int := Z.land int (Z.lnot (Z.shiftl 61440 64)) in
  Z.lor int (Z.shiftl version 76).

(** [UUID(bytes=b, version=v)] *)
Definition of_bytes (version : Z) (b : list Z) : t :=
  set_version version (Py.be_int b).

(** [u.bytes] *)
Definition bytes (u : t) : list Z := Py.be_bytes 16 u.

(** [u.hex] *)
Definition hex (u : t) : string := Py.hex_fixed 32 u.

(** [str(u)] *)
Definition str (u : t) : string :=
  let h := hex u in
  String.substring 0 8 h +:+ "-" +:+ String.substring 8 4 h +:+ "-"
    +:+ String.substring 12 4 h +:+ "-" +:+ String.substring 16 4 h +:+ "-"
    +:+ String.substring 20 12 h.

(** [uuid.UUID(s)]; [None] is the [ValueError] for a badly formed string. *)
Definition UUID (s : string) : option t :=
  let h := Py.remove_all "uuid:" (Py.remove_all "urn:" s) in
  let h := Py.remove_all "-" (Py.strip "{}" h) in
  if (String.length h =? 32)%nat then Py.long16 h else None.

(** [uuid.uuid5(namespace, name)] *)
Definition uuid5 (namespace : t) (name : string) : t :=
  of_bytes 5 (List.firstn 16 (Sha1.digest (bytes namespace ++ Py.bytes_of_string name))).

(** [uuid.uuid4()] from sixteen random bytes. *)
Definition uuid4 (random16 : list Z) : t := of_bytes 4 random16.

Definition NAMESPACE_URL : t := 143098242483405524118141958906375844040.

End Uuid.

(** ** Values, model classes and instances *)

(** The concrete subclasses of [SyncedModel] declared in the module. *)
Inductive ModelClass : Type :=
| Zone | Facility | FacilityGroup | FacilityUser | DeviceZone | SyncedLog | Device.

Definition ModelClass_eqb (a b : ModelClass) : bool :=
  match a, b with
  | Zone, Zone | Facility, Facility | FacilityGroup, FacilityGroup
  | FacilityUser, FacilityUser | DeviceZone, DeviceZone
  | SyncedLog, SyncedLog | Device, Device => true
  | _, _ => false
  end.

(** What the attributes of an instance evaluate to.  A float is kept as the
    two things the module observes of it: whether it is non-zero and its
    string form.  [VModel pk] is a loaded instance of [models.Model]. *)
Inductive pyval : Type :=
| VNone
| VBool (b : bool)
| VInt (z : Z)
| VFloat (nonzero : bool) (repr : string)
| VStr (s : string)
| VDateTime (year month day hour minute second : Z)
| VUUID (u : Uuid.t)
| VModel (pk : string).

(** Python truth value: [if val:]. *)
Definition truthy (v : pyval) : bool :=
  match v with
  | VNone => false
  | VBool b => b
  | VInt z => negb (z =? 0)
  | VFloat nz _ => nz
  | VStr s => negb (String.eqb s "")
  | VDateTime _ _ _ _ _ _ => true
  | VUUID _ => true
  | VModel _ => true
  end.

(** ["%s" % val] *)
Definition py_str (v : pyval) : string :=
  match v with
  | VNone => "None"
  | VBool true => "True"
  | VBool false => "False"
  | VInt z => Py.str_int z
  | VFloat _ r => r
  | VStr s => s
  | VDateTime y mo d h mi s =>
      Py.fmt_0d 4 y +:+ "-" +:+ Py.fmt_0d 2 mo +:+ "-" +:+ Py.fmt_0d 2 d +:+ " "
        +:+ Py.fmt_0d 2 h +:+ ":" +:+ Py.fmt_0d 2 mi +:+ ":" +:+ Py.fmt_0d 2 s
  | VUUID u => Uuid.str u
  | VModel pk => pk
  end.

(** A stored attribute: a plain column, or a foreign key column holding the
    primary key of a row of [target]. *)
Inductive attr : Type :=
| Plain (v : pyval)
| ForeignKey (target : ModelClass) (fk : option string).

(** An instance of a [SyncedModel] subclass: the columns of the abstract
    base, and the subclass's own columns by name. *)
Record Instance : Type := {
  cls : ModelClass;
  id : pyval;
  counter : Z;
  signature : string;
  signed_version : Z;
  signed_by_id : option string;
  zone_fallback_id : option string;
  deleted : bool;
  attrs : list (string * attr)
}.

Definition set_id (v : pyval) (r : Instance) : Instance :=
  {| cls := cls r; id := v; counter := counter r; signature := signature r;
     signed_version := signed_version r; signed_by_id := signed_by_id r;
     zone_fallback_id := zone_fallback_id r; deleted := deleted r; attrs := attrs r |}.

Definition set_counter (c : Z) (r : Instance) : Instance :=
  {| cls := cls r; id := id r; counter := c; signature := signature r;
     signed_version := signed_version r; signed_by_id := signed_by_id r;
     zone_fallback_id := zone_fallback_id r; deleted := deleted r; attrs := attrs r |}.

Definition set_signature (s : string) (r : Instance) : Instance :=
  {| cls := cls r; id := id r; counter := counter r; signature := s;
     signed_version := signed_version r; signed_by_id := signed_by_id r;
     zone_fallback_id := zone_fallback_id r; deleted := deleted r; attrs := attrs r |}.

Definition set_signed_by_id (d : option string) (r : Instance) : Instance :=
  {| cls := cls r; id := id r; counter := counter r; signature := signature r;
     signed_version := signed_version r; signed_by_id := d;
     zone_fallback_id := zone_fallback_id r; deleted := deleted r; attrs := attrs r |}.

Definition set_attr (name : string) (a : attr) (r : Instance) : Instance :=
  {| cls := cls r; id := id r; counter := counter r; signature := signature r;
     signed_version := signed_version r; signed_by_id := signed_by_id r;
     zone_fallback_id := zone_fallback_id r; deleted := deleted r;
     attrs := (name, a) :: List.filter (fun p => negb (String.eqb (fst p) name)) (attrs r) |}.

Fixpoint assoc {A : Type} (k : string) (l : list (string * A)) : option A :=
  match l with
  | [] => None
  | (k', v) :: rest => if String.eqb k k' then Some v else assoc k rest
  end.

(** The primary key as the database stores it: the text of [id]. *)
Definition pk (r : Instance) : string := py_str (id r).

(** [self.public_key] of a [Device]; the column is a [CharField], blank
    when never set. *)
Definition public_key (d : Instance) : string :=
  match assoc "public_key" (attrs d) with
  | Some (Plain (VStr k)) => k
  | _ => ""
  end.

(** [not self.signed_by_id] is false exactly for a non-empty key. *)
Definition signed_by_present (r : Instance) : bool :=
  match signed_by_id r with
  | Some k => negb (String.eqb k "")
  | None => false
  end.

(** The columns each class declares, after those of the abstract base. *)
Definition base_fields : list string :=
  ["id"; "counter"; "signature"; "signed_version"; "signed_by"; "zone_fallback"; "deleted"].

Definition own_fields (c : ModelClass) : list string :=
  match c with
  | Zone => ["name"; "description"]
  | Facility =>
      ["name"; "description"; "address"; "address_normalized"; "latitude";
       "longitude"; "zoom"; "contact_name"; "contact_phone"; "contact_email";
       "user_count"]
  | FacilityGroup => ["facility"; "name"]
  | FacilityUser =>
      ["facility"; "group"; "username"; "first_name"; "last_name"; "is_teacher";
       "notes"; "password"]
  | DeviceZone => ["device"; "zone"]
  | SyncedLog => ["category"; "value"; "data"]
  | Device => ["name"; "description"; "public_key"]
  end.

(** [[field.name for field in self._meta.fields]] *)
Definition meta_fields (c : ModelClass) : list string := base_fields ++ own_fields c.

(** [requires_trusted_signature], a class attribute. *)
Definition requires_trusted_signature (c : ModelClass) : bool :=
  match c with
  | Zone | DeviceZone => true
  | _ => false
  end.

Record DeviceMetadata : Type := {
  dm_pk : option nat;
  device_id : option string;
  is_trusted : bool;
  is_own_device : bool;
  counter_position : Z
}.

Module ImportPurgatory.
Record t : Type := {
  pk : option nat;
  counter : Z;
  retry_attempts : Z;
  serialized_models : string;
  exceptions : string
}.
(** [ImportPurgatory()]: the column defaults; [timestamp] is set by the
    database and is left out. *)
Definition new : t :=
  {| pk := None; counter := 0; retry_attempts := 0; serialized_models := "";
     exceptions := "" |}.
End ImportPurgatory.

(** ** The database and the process environment *)

Record World : Type := {
  zones : list Instance;
  facilities : list Instance;
  facility_groups : list Instance;
  facility_users : list Instance;
  device_zones : list Instance;
  synced_logs : list Instance;
  devices : list Instance;
  device_metadata : list DeviceMetadata;
  import_purgatory : list ImportPurgatory.t;
  purgatory_next_pk : nat;
  urandom_calls : nat
}.

Definition table (c : ModelClass) (w : World) : list Instance :=
  match c with
  | Zone => zones w
  | Facility => facilities w
  | FacilityGroup => facility_groups w
  | FacilityUser => facility_users w
  | DeviceZone => device_zones w
  | SyncedLog => synced_logs w
  | Device => devices w
  end.

Definition set_table (c : ModelClass) (t : list Instance) (w : World) : World :=
  {| zones := if ModelClass_eqb c Zone then t else zones w;
     facilities := if ModelClass_eqb c Facility then t else facilities w;
     facility_groups := if ModelClass_eqb c FacilityGroup then t else facility_groups w;
     facility_users := if ModelClass_eqb c FacilityUser then t else facility_users w;
     device_zones := if ModelClass_eqb c DeviceZone then t else device_zones w;
     synced_logs := if ModelClass_eqb c SyncedLog then t else synced_logs w;
     devices := if ModelClass_eqb c Device then t else devices w;
     device_metadata := device_metadata w;
     import_purgatory := import_purgatory w;
     purgatory_next_pk := purgatory_next_pk w;
     urandom_calls := urandom_calls w |}.

Definition set_device_metadata (m : list DeviceMetadata) (w : World) : World :=
  {| zones := zones w; facilities := facilities w;
     facility_groups := facility_groups w; facility_users := facility_users w;
     device_zones := device_zones w; synced_logs := synced_logs w;
     devices := devices w;
     device_metadata := m;
     import_purgatory := import_purgatory w;
     purgatory_next_pk := purgatory_next_pk w;
     urandom_calls := urandom_calls w |}.

Definition set_import_purgatory (p : list ImportPurgatory.t) (n : nat) (w : World) : World :=
  {| zones := zones w; facilities := facilities w;
     facility_groups := facility_groups w; facility_users := facility_users w;
     device_zones := device_zones w; synced_logs := synced_logs w;
     devices := devices w;
     device_metadata := device_metadata w;
     import_purgatory := p;
     purgatory_next_pk := n;
     urandom_calls := urandom_calls w |}.

Definition tick_urandom (w : World) : World :=
  {| zones := zones w; facilities := facilities w;
     facility_groups := facility_groups w; facility_users := facility_users w;
     device_zones := device_zones w; synced_logs := synced_logs w;
     devices := devices w;
     device_metadata := device_metadata w;
     import_purgatory := import_purgatory w;
     purgatory_next_pk := purgatory_next_pk w;
     urandom_calls := S (urandom_calls w) |}.

Definition empty_world : World :=
  {| zones := []; facilities := []; facility_groups := []; facility_users := [];
     device_zones := []; synced_logs := []; devices := [];
     device_metadata := []; import_purgatory := []; purgatory_next_pk := 0;
     urandom_calls := 0 |}.

Inductive exn : Type :=
| ValidationError (msg : string)
| DoesNotExist (model : ModelClass)
| AttributeError (name : string)
| ValueError
| TypeError
| CryptoError
| DeserializationError
| RuntimeError.

Inductive outcome (A : Type) : Type :=
| Return (a : A)
| Raise (e : exn).
Arguments Return {A} a.
Arguments Raise {A} e.

(** Computations read and write the database and may raise; writes made
    before an exception stay. *)
Definition M (A : Type) : Type := World -> World * outcome A.

Definition ret {A : Type} (a : A) : M A := fun w => (w, Return a).
Definition raise {A : Type} (e : exn) : M A := fun w => (w, Raise e).
Definition bind {A B : Type} (m : M A) (k : A -> M B) : M B :=
  fun w =>
    match m w with
    | (w', Return a) => k a w'
    | (w', Raise e) => (w', Raise e)
    end.
Definition read {A : Type} (f : World -> A) : M A := fun w => (w, Return (f w)).
Definition write (f : World -> World) : M unit := fun w => (f w, Return tt).
Definition lift {A : Type} (o : outcome A) : M A := fun w => (w, o).
Definition lift_read {A : Type} (f : World -> outcome A) : M A := fun w => (w, f w).
(** [try: m  except: h] with a bare [except]. *)
Definition try_except {A : Type} (m : M A) (h : M A) : M A :=
  fun w =>
    match m w with
    | (w', Return a) => (w', Return a)
    | (w', Raise _) => h w'
    end.

Declare Scope py_scope.
Delimit Scope py_scope with py.
Notation "x <- m ;; k" := (bind m (fun x => k))
  (at level 100, m at next level, right associativity) : py_scope.
Notation "m ;;; k" := (bind m (fun _ => k))
  (at level 100, right associativity) : py_scope.
Local Open Scope py_scope.

(** The parts of the process that are not in this module: the settings, the
    [crypto] module, the serializers, the entropy source and the text Django
    prints for a validation error. *)
Record Env : Type := {
  Key : Type;
  CENTRAL_SERVER_HOST : string;
  CENTRAL_SERVER : bool;
  (** [crypto.get_public_key()] and [crypto.serialize_public_key] *)
  get_public_key : Key;
  serialize_public_key : Key -> string;
  (** [crypto.deserialize_public_key]; [None] when it raises *)
  deserialize_public_key : string -> option Key;
  (** [crypto.sign] with the own private key; [None] when it raises *)
  crypto_sign : string -> option string;
  (** [crypto.verify(text, signature, key)]; [None] when it raises *)
  crypto_verify : string -> string -> Key -> option bool;
  encode_base64 : string -> string;
  decode_base64 : string -> option string;
  (** [json_serializer.serialize(models, ensure_ascii=False)] *)
  serialize : list Instance -> string;
  (** [serializers.deserialize("json", text)]: the objects the generator
      yields, and the exception that ends it, if any *)
  deserialize_json : string -> list Instance * option exn;
  (** the [n]-th sixteen bytes read from the entropy source *)
  urandom16 : nat -> list Z;
  (** [str(e)] for [e = ValidationError(message)]: Django's
      [ValidationError.__str__], which prints the [repr] of the list of
      messages of the error *)
  str_ValidationError : string -> string
}.

(** ** The object-relational layer *)

(** [Model.objects.get(pk=k)] *)
Definition find_row (c : ModelClass) (k : string) (w : World) : option Instance :=
  List.find (fun r => String.eqb (pk r) k) (table c w).

Definition objects_get (c : ModelClass) (k : string) : M Instance :=
  fun w =>
    match find_row c k w with
    | Some r => (w, Return r)
    | None => (w, Raise (DoesNotExist c))
    end.

(** [models.Model.save]: the row with the instance's primary key is
    replaced, or the instance is added as a new row.  The key column holds
    the text of [id].  Constraint violations raised by the database engine
    are not modelled. *)
Fixpoint upsert (r : Instance) (rows : list Instance) : list Instance :=
  match rows with
  | [] => [r]
  | x :: rest => if String.eqb (pk x) (pk r) then r :: rest else x :: upsert r rest
  end.

Definition stored (r : Instance) : Instance := set_id (VStr (pk r)) r.

Definition Model_save (r : Instance) : M unit :=
  write (fun w => set_table (cls r) (upsert (stored r) (table (cls r) w)) w).

(** [DeviceMetadata.save]: update the row in place, or append a new row. The
    primary key of a row is its position. *)
Definition with_dm_pk (i : nat) (m : DeviceMetadata) : DeviceMetadata :=
  {| dm_pk := Some i; device_id := device_id m; is_trusted := is_trusted m;
     is_own_device := is_own_device m; counter_position := counter_position m |}.

Definition DeviceMetadata_save (m : DeviceMetadata) : M unit :=
  write (fun w =>
    let rows := device_metadata w in
    match dm_pk m with
    | Some i => set_device_metadata (<[i := m]> rows) w
    | None => set_device_metadata (rows ++ [with_dm_pk (List.length rows) m]) w
    end).

Definition set_counter_position_field (n : Z) (m : DeviceMetadata) : DeviceMetadata :=
  {| dm_pk := dm_pk m; device_id := device_id m; is_trusted := is_trusted m;
     is_own_device := is_own_device m; counter_position := n |}.

Definition set_is_trusted (b : bool) (m : DeviceMetadata) : DeviceMetadata :=
  {| dm_pk := dm_pk m; device_id := device_id m; is_trusted := b;
     is_own_device := is_own_device m; counter_position := counter_position m |}.

Definition set_is_own_device (b : bool) (m : DeviceMetadata) : DeviceMetadata :=
  {| dm_pk := dm_pk m; device_id := device_id m; is_trusted := is_trusted m;
     is_own_device := b; counter_position := counter_position m |}.

Definition metadata_of (k : string) (m : DeviceMetadata) : bool :=
  match device_id m with
  | Some k' => String.eqb k' k
  | None => false
  end.

(** [Device.get_metadata] on a device object that holds no metadata object
    yet, as one that has just been loaded or built: the row of the
    one-to-one relation, or [DeviceMetadata(device=self)] with the column
    defaults.  The [device] of the result is [self].  The methods below that
    take an [Instance] are the methods called on such an object; what an
    object does that has read its metadata before is in [DeviceObject]. *)
Definition Device_get_metadata (self : Instance) (w : World) : DeviceMetadata :=
  match List.find (metadata_of (pk self)) (device_metadata w) with
  | Some m => m
  | None =>
      {| dm_pk := None; device_id := Some (pk self); is_trusted := false;
         is_own_device := false; counter_position := 0 |}
  end.

(** [Device.set_counter_position] *)
Definition Device_set_counter_position (self : Instance) (counter_position_ : Z) : M unit :=
  metadata <- read (Device_get_metadata self) ;;
  if negb (truthy (id self)) then ret tt
  else if counter_position metadata <? counter_position_
  then DeviceMetadata_save (set_counter_position_field counter_position_ metadata)
  else ret tt.

(** [Device.increment_and_get_counter]; the method runs in a transaction
    of its own ([commit_on_success]), which a sequential run does not
    observe. *)
Definition Device_increment_and_get_counter (self : Instance) : M Z :=
  metadata <- read (Device_get_metadata self) ;;
  if negb (truthy (id self)) then ret 0
  else
    let metadata := set_counter_position_field (counter_position metadata + 1) metadata in
    DeviceMetadata_save metadata ;;;
    ret (counter_position metadata).

(** [Device.get_counter] *)
Definition Device_get_counter (self : Instance) : M Z :=
  metadata <- read (Device_get_metadata self) ;;
  if negb (truthy (id self)) then ret 0
  else ret (counter_position metadata).

(** *** Device objects and the metadata they hold

    [self.devicemetadata] is a reverse one-to-one accessor: the first access
    that finds a row keeps the [DeviceMetadata] object on the [Device]
    object, and every later access returns that same object without a
    query, whatever has been written through other objects since.  An access
    that finds no row raises, keeps nothing, and [get_metadata] then builds
    a new object each time.  The counter methods change the object they got
    and save it, so an object that holds metadata writes from what it
    holds. *)
Module DeviceObject.

Record t : Type := {
  fields : Instance;
  devicemetadata : option DeviceMetadata
}.

(** A device object that holds no metadata object. *)
Definition loaded (d : Instance) : t := {| fields := d; devicemetadata := None |}.

(** [Device.get_metadata]: the object, which may now hold the row it found,
    and the metadata object returned. *)
Definition get_metadata (self : t) (w : World) : t * DeviceMetadata :=
  match devicemetadata self with
  | Some m => (self, m)
  | None =>
      match List.find (metadata_of (pk (fields self))) (device_metadata w) with
      | Some m => ({| fields := fields self; devicemetadata := Some m |}, m)
      | None =>
          (self,
           {| dm_pk := None; device_id := Some (pk (fields self)); is_trusted := false;
              is_own_device := false; counter_position := 0 |})
      end
  end.

(** The metadata object after it was changed and saved: the device object
    that holds one holds the changed one. *)
Definition remember (m : DeviceMetadata) (self : t) : t :=
  match devicemetadata self with
  | Some _ => {| fields := fields self; devicemetadata := Some m |}
  | None => self
  end.

(** [Device.set_counter_position] *)
Definition set_counter_position (self : t) (counter_position_ : Z) : M t :=
  p <- read (get_metadata self) ;;
  let self := fst p in
  let metadata := snd p in
  if negb (truthy (id (fields self))) then ret self
  else if counter_position metadata <? counter_position_
  then
    let metadata := set_counter_position_field counter_position_ metadata in
    DeviceMetadata_save metadata ;;;
    ret (remember metadata self)
  else ret self.

(** [Device.increment_and_get_counter] *)
Definition increment_and_get_counter (self : t) : M (t * Z) :=
  p <- read (get_metadata self) ;;
  let self := fst p in
  let metadata := snd p in
  if negb (truthy (id (fields self))) then ret (self, 0)
  else
    let metadata := set_counter_position_field (counter_position metadata + 1) metadata in
    DeviceMetadata_save metadata ;;;
    ret (remember metadata self, counter_position metadata).

(** [Device.get_counter] *)
Definition get_counter (self : t) : M (t * Z) :=
  p <- read (get_metadata self) ;;
  let self := fst p in
  let metadata := snd p in
  if negb (truthy (id (fields self))) then ret (self, 0)
  else ret (self, counter_position metadata).

End DeviceObject.

(** ** The canonical hash string *)

Definition _unhashable_fields : list string := ["signature"; "signed_by"].
Definition _always_hash_fields : list string := ["signed_version"; "id"].

Definition mem (x : string) (l : list string) : bool := existsb (String.eqb x) l.

(** [fields.sort()] on a list of byte strings. *)
Fixpoint insert_sorted (x : string) (l : list string) : list string :=
  match l with
  | [] => [x]
  | y :: rest => if String.leb x y then x :: l else y :: insert_sorted x rest
  end.

Definition sort (l : list string) : list string := List.fold_right insert_sorted [] l.

(** The value a foreign key attribute evaluates to: the loaded row, or
    [DoesNotExist] when there is none; for a null column [None] when the
    field is declared [null=True], and [DoesNotExist] when it is not. *)
Definition related (target : ModelClass) (null : bool) (fk : option string) (w : World)
    : outcome pyval :=
  match fk with
  | None => if null then Return VNone else Raise (DoesNotExist target)
  | Some k =>
      match find_row target k w with
      | Some r => Return (VModel (pk r))
      | None => Raise (DoesNotExist target)
      end
  end.

(** The foreign keys declared with [null=True]: [signed_by] and
    [zone_fallback] of every class, and [group] of [FacilityUser]. *)
Definition null_allowed (c : ModelClass) (field : string) : bool :=
  String.eqb field "signed_by" || String.eqb field "zone_fallback"
  || match c with
     | FacilityUser => String.eqb field "group"
     | _ => false
     end.

(** [getattr(self, field)] *)
Definition getattr (self : Instance) (field : string) (w : World) : outcome pyval :=
  if String.eqb field "id" then Return (id self)
  else if String.eqb field "counter" then Return (VInt (counter self))
  else if String.eqb field "signature" then Return (VStr (signature self))
  else if String.eqb field "signed_version" then Return (VInt (signed_version self))
  else if String.eqb field "signed_by"
  then related Device (null_allowed (cls self) field) (signed_by_id self) w
  else if String.eqb field "zone_fallback"
  then related Zone (null_allowed (cls self) field) (zone_fallback_id self) w
  else if String.eqb field "deleted" then Return (VBool (deleted self))
  else
    match assoc field (attrs self) with
    | Some (Plain v) => Return v
    | Some (ForeignKey target fk) => related target (null_allowed (cls self) field) fk w
    | None => Raise (AttributeError field)
    end.

(** The list of field names the loop of [_hashable_representation] runs
    over: the default list when none is given, then each always-hashed name
    that is missing put in front. *)
Definition hashed_fields (c : ModelClass) (fields : list string) : list string :=
  let fields :=
    match fields with
    | [] => sort (List.filter (fun name => negb (mem name _unhashable_fields)) (meta_fields c))
    | _ => fields
    end in
  List.fold_left (fun fields field => if mem field fields then fields else field :: fields)
    _always_hash_fields fields.

(** The text a truthy value contributes: the primary key of a model
    instance, the fixed layout of a timestamp, the string form otherwise. *)
Definition render (val : pyval) : string :=
  let val := match val with VModel k => VStr k | _ => val end in
  let val :=
    match val with
    | VDateTime y mo d h mi s =>
        VStr (Py.fmt_0d 4 y +:+ "-" +:+ Py.fmt_0d 2 mo +:+ "-" +:+ Py.fmt_0d 2 d +:+ " "
              +:+ Py.str_int h +:+ ":" +:+ Py.fmt_0d 2 mi +:+ ":" +:+ Py.fmt_0d 2 s)
    | _ => val
    end in
  py_str val.

Definition token (field : string) (val : pyval) : string :=
  field +:+ "=" +:+ render val.

Fixpoint chunks (self : Instance) (fields : list string) (w : World) : outcome (list string) :=
  match fields with
  | [] => Return []
  | field :: rest =>
      match getattr self field w with
      | Raise e => Raise e
      | Return val =>
          match chunks self rest w with
          | Raise e => Raise e
          | Return cs => Return (if truthy val then token field val :: cs else cs)
          end
      end
  end.

(** [SyncedModel._hashable_representation(self, fields)]; [fields=None] is
    the empty list. *)
Definition SyncedModel__hashable_representation
    (self : Instance) (fields : list string) (w : World) : outcome string :=
  match chunks self (hashed_fields (cls self) fields) w with
  | Raise e => Raise e
  | Return cs => Return (Py.join "&" cs)
  end.

(** [Device._hashable_representation] *)
Definition Device__hashable_representation (self : Instance) (w : World) : outcome string :=
  let fields := ["signed_version"; "name"; "description"; "public_key"] in
  SyncedModel__hashable_representation self fields w.

(** [self._hashable_representation()], by the class of [self]. *)
Definition _hashable_representation (self : Instance) (w : World) : outcome string :=
  match cls self with
  | Device => Device__hashable_representation self w
  | _ => SyncedModel__hashable_representation self [] w
  end.

(** ** Devices and signed records *)

(** A device argument is either the record the method runs on or another
    instance: [own_device.save(own_device=own_device)] passes the record
    itself, which is mutated while the method runs. *)
Inductive device_ref : Type :=
| Self
| Loaded (d : Instance).

Definition deref (self : Instance) (r : device_ref) : Instance :=
  match r with
  | Self => self
  | Loaded d => d
  end.

(** [Device()] with the column defaults. *)
Definition Device_blank : Instance :=
  {| cls := Device; id := VStr ""; counter := 0; signature := "";
     signed_version := 1; signed_by_id := None; zone_fallback_id := None;
     deleted := false;
     attrs := [("name", Plain (VStr "")); ("description", Plain (VStr ""));
               ("public_key", Plain (VStr ""))] |}.

Section Methods.

Context (env : Env).

Definition ROOT_UUID_NAMESPACE : Uuid.t :=
  Uuid.uuid5 Uuid.NAMESPACE_URL (CENTRAL_SERVER_HOST env).

(** [crypto.encode_base64(crypto.sign(text))] *)
Definition sign_text (text : string) : M string :=
  match crypto_sign env text with
  | Some s => ret (encode_base64 env s)
  | None => raise CryptoError
  end.

(** [Device.get_public_key] *)
Definition Device_get_public_key (self : Instance) : M (Key env) :=
  match deserialize_public_key env (public_key self) with
  | Some k => ret k
  | None => raise CryptoError
  end.

(** [crypto.verify(self._hashable_representation(),
                   crypto.decode_base64(self.signature), key)] *)
Definition check_signature (self : Instance) (key : Key env) : M bool :=
  text <- lift_read (_hashable_representation self) ;;
  match decode_base64 env (signature self) with
  | None => raise CryptoError
  | Some sig =>
      match crypto_verify env text sig key with
      | Some b => ret b
      | None => raise CryptoError
      end
  end.

(** [Device.get_uuid] *)
Definition Device_get_uuid (self : Instance) : M pyval :=
  if String.eqb (public_key self) "" then
    fun w => (tick_urandom w, Return (VUUID (Uuid.uuid4 (urandom16 env (urandom_calls w)))))
  else ret (VStr (Uuid.hex (Uuid.uuid5 ROOT_UUID_NAMESPACE (public_key self)))).

(** [Device.verify]: [signed_by_id] and [id] are compared as keys. *)
Definition signed_by_self (self : Instance) : bool :=
  match signed_by_id self with
  | Some k => String.eqb k (pk self)
  | None => match id self with VNone => true | _ => false end
  end.

Definition Device_verify (self : Instance) : M bool :=
  if negb (signed_by_self self) then ret false
  else
    key <- Device_get_public_key self ;;
    try_except (check_signature self key) (ret false).

(** [SyncedModel.verify] *)
Definition SyncedModel_verify (self : Instance) : M bool :=
  if negb (signed_by_present self) then ret false
  else
    let signer_id := default "" (signed_by_id self) in
    trusted <-
      (if requires_trusted_signature (cls self) then
         signer <- objects_get Device signer_id ;;
         metadata <- read (Device_get_metadata signer) ;;
         ret (is_trusted metadata)
       else ret true) ;;
    if negb trusted then ret false
    else
      signer <- objects_get Device signer_id ;;
      key <- Device_get_public_key signer ;;
      try_except (check_signature self key) (ret false).

(** [self.verify()], by the class of [self]. *)
Definition verify (self : Instance) : M bool :=
  match cls self with
  | Device => Device_verify self
  | _ => SyncedModel_verify self
  end.

(** [Device.get_zone]: the zone of the first [DeviceZone] row of the
    device, as its primary key.  The [zone] of a [DeviceZone] is not
    nullable, so reading a null one raises. *)
Definition zone_of_device (k : string) (dz : Instance) : bool :=
  match assoc "device" (attrs dz) with
  | Some (ForeignKey _ (Some k')) => String.eqb k' k
  | _ => false
  end.

Definition Device_get_zone (self : Instance) : M (option string) :=
  zones_ <- read (fun w => List.filter (zone_of_device (pk self)) (device_zones w)) ;;
  match zones_ with
  | [] => ret None
  | dz :: _ =>
      match assoc "zone" (attrs dz) with
      | Some (ForeignKey _ (Some k)) => z <- objects_get Zone k ;; ret (Some (pk z))
      | Some (ForeignKey _ None) => raise (DoesNotExist Zone)
      | _ => ret None
      end
  end.

Definition option_string_eqb (a b : option string) : bool :=
  match a, b with
  | Some x, Some y => String.eqb x y
  | None, None => true
  | _, _ => false
  end.

(** [Device.in_zone(zone)]: [zone == self.get_zone()] *)
Definition Device_in_zone (self : Instance) (zone : option string) : M bool :=
  z <- Device_get_zone self ;;
  ret (option_string_eqb zone z).

Section WithOwnDevice.

(** The static method [Device.get_own_device], which the methods below call
    and which is defined from them further down. *)
Variable get_own_device_ : M (option Instance).

(** [device or Device.get_own_device()] *)
Definition or_get_own_device (device : option device_ref) : M (option device_ref) :=
  match device with
  | Some d => ret (Some d)
  | None => o <- get_own_device_ ;; ret (option_map Loaded o)
  end.

(** [SyncedModel.sign] *)
Definition SyncedModel_sign_with (self : Instance) (device : option device_ref) : M Instance :=
  signer <- or_get_own_device device ;;
  let self := set_signed_by_id (option_map (fun d => pk (deref self d)) signer) self in
  text <- lift_read (_hashable_representation self) ;;
  sig <- sign_text text ;;
  ret (set_signature sig self).

(** [SyncedModel.get_uuid] *)
Definition SyncedModel_get_uuid_with (self : Instance) : M pyval :=
  own_device <- get_own_device_ ;;
  match own_device with
  | None => raise (AttributeError "id")
  | Some own_device =>
      namespace <-
        (if truthy (id own_device) then
           match id own_device with
           | VStr s =>
               match Uuid.UUID s with
               | Some u => ret u
               | None => raise ValueError
               end
           | _ => raise (AttributeError "replace")
           end
         else ret ROOT_UUID_NAMESPACE) ;;
      ret (VStr (Uuid.hex (Uuid.uuid5 namespace (Py.str_int (counter self)))))
  end.

(** [self.get_uuid()], by the class of [self]. *)
Definition get_uuid_with (self : Instance) : M pyval :=
  match cls self with
  | Device => Device_get_uuid self
  | _ => SyncedModel_get_uuid_with self
  end.

(** [SyncedModel.save] *)
Definition SyncedModel_save_with
    (self : Instance) (own_device : option device_ref) (imported : bool) : M Instance :=
  own_device <- or_get_own_device own_device ;;
  match own_device with
  | None =>
      raise (ValidationError "Cannot save any synced models before registering this Device.")
  | Some own_device =>
      if imported then
        if negb (signed_by_present self) then
          raise (ValidationError "Imported models must be signed.")
        else
          ok <- verify self ;;
          if negb ok then
            raise (ValidationError "Imported model's signature did not match.")
          else
            Model_save self ;;;
            signer <- objects_get Device (default "" (signed_by_id self)) ;;
            Device_set_counter_position signer (counter self) ;;;
            ret self
      else
        c <- Device_increment_and_get_counter (deref self own_device) ;;
        let self := set_counter c self in
        self <-
          (if negb (truthy (id self)) then
             u <- get_uuid_with self ;;
             let self := set_id u self in
             Model_save self ;;;
             ret self
           else ret self) ;;
        self <- SyncedModel_sign_with self (Some own_device) ;;
        Model_save self ;;;
        ret self
  end.

(** [Device.save] *)
Definition Device_save_with
    (self : Instance) (is_trusted_ : bool) (own_device : option device_ref)
    (imported : bool) : M Instance :=
  self <- SyncedModel_save_with self own_device imported ;;
  if is_trusted_ then
    metadata <- read (Device_get_metadata self) ;;
    DeviceMetadata_save (set_is_trusted true metadata) ;;;
    ret self
  else ret self.

(** [self.save(own_device=..., imported=...)], by the class of [self]. *)
Definition save_with
    (self : Instance) (own_device : option device_ref) (imported : bool) : M Instance :=
  match cls self with
  | Device => Device_save_with self false own_device imported
  | _ => SyncedModel_save_with self own_device imported
  end.

End WithOwnDevice.

(** [Device.initialize_own_device], on [init], the [Device] built from the
    keyword arguments.  The device is passed explicitly to [sign] and [save] and its class is
    [Device], so neither reaches [Device.get_own_device] again; the methods
    are taken at a computation that stands for the interpreter's recursion
    limit. *)
Definition initialize_own_device (init : Instance) : M Instance :=
  let unreached : M (option Instance) := raise RuntimeError in
  let own_device :=
    set_attr "public_key"
      (Plain (VStr (serialize_public_key env (get_public_key env)))) init in
  own_device <- SyncedModel_sign_with unreached own_device (Some Self) ;;
  own_device <- Device_save_with unreached own_device false (Some Self) false ;;
  metadata <- read (Device_get_metadata own_device) ;;
  let metadata := set_is_own_device true metadata in
  let metadata := set_is_trusted (CENTRAL_SERVER env) metadata in
  DeviceMetadata_save metadata ;;;
  ret own_device.

(** [Device.get_own_device] *)
Definition get_own_device : M (option Instance) :=
  devices_ <- read (fun w => List.filter is_own_device (device_metadata w)) ;;
  match devices_ with
  | [] => d <- initialize_own_device Device_blank ;; ret (Some d)
  | m :: _ =>
      match device_id m with
      | None => ret None
      | Some k => d <- objects_get Device k ;; ret (Some d)
      end
  end.

Definition SyncedModel_sign := SyncedModel_sign_with get_own_device.
Definition SyncedModel_get_uuid := SyncedModel_get_uuid_with get_own_device.
Definition get_uuid := get_uuid_with get_own_device.
Definition SyncedModel_save := SyncedModel_save_with get_own_device.
Definition Device_save := Device_save_with get_own_device.
Definition save := save_with get_own_device.

End Methods.

(** ** Batch selection and import *)

(** [settings.syncing_models], as this module registers it. *)
Definition syncing_models : list ModelClass :=
  [Facility; FacilityGroup; FacilityUser; SyncedLog].

(** A Python [dict] from device ids to counters, in iteration order. *)
Definition dict : Type := list (string * Z).

Definition dict_has (k : string) (d : dict) : bool := mem k (List.map fst d).

Definition dict_set (k : string) (v : Z) (d : dict) : dict :=
  if dict_has k d
  then List.map (fun p => if String.eqb (fst p) k then (k, v) else p) d
  else d ++ [(k, v)].

Definition dict_del (k : string) (d : dict) : dict :=
  List.filter (fun p => negb (String.eqb (fst p) k)) d.

Fixpoint foldM {A B : Type} (f : A -> B -> M A) (l : list B) (a : A) : M A :=
  match l with
  | [] => ret a
  | x :: rest => a' <- f a x ;; foldM f rest a'
  end.

(** [SyncedModelManager.by_zone]: the rows signed by a device of the zone,
    or signed by a trusted device and carrying the zone as fallback.  A
    comparison with [None] is a test for a missing joined row or a null
    column. *)
Definition dz_zone (dz : Instance) : option string :=
  match assoc "zone" (attrs dz) with
  | Some (ForeignKey _ fk) => fk
  | _ => None
  end.

Definition by_zone (c : ModelClass) (zone : option string) (w : World) : list Instance :=
  List.filter
    (fun r =>
       let signer := default "" (signed_by_id r) in
       let signer_zones :=
         if signed_by_present r
         then List.filter (zone_of_device signer) (device_zones w) else [] in
       let devicezone_matches :=
         match zone with
         | Some _ => existsb (fun dz => option_string_eqb (dz_zone dz) zone) signer_zones
         | None => match signer_zones with [] => true | _ => false end
         end in
       let signer_trusted :=
         signed_by_present r
         && existsb (fun m => metadata_of signer m && is_trusted m) (device_metadata w) in
       devicezone_matches
       || (signer_trusted && option_string_eqb (zone_fallback_id r) zone))
    (table c w).

Inductive serialized_result : Type :=
| Serialized (models : string)
| SerializedWithCount (models : string) (count : nat).

Record import_result : Type := {
  unsaved_model_count : nat;
  saved_model_count : Z
}.

(** What [save_serialized_models] is called on: a purgatory row, a text, or
    a list of dictionaries, given by the objects its deserialization yields
    and the exception that ends it, if any. *)
Inductive import_data : Type :=
| FromPurgatory (p : ImportPurgatory.t)
| FromText (text : string)
| FromPython (objects : list Instance) (err : option exn).

Definition newline : string := String (ascii_of_nat 10) EmptyString.

Section Sync.

Context (env : Env).

(** The first loop of [get_serialized_models]: requested devices that do
    not exist, or are neither in the zone nor trusted, are dropped. *)
Definition drop_foreign_devices (zone : option string) (device_counters : dict) : M dict :=
  foldM
    (fun (device_counters : dict) (device_id : string) =>
       device <- read (find_row Device device_id) ;;
       match device with
       | None => ret (dict_del device_id device_counters)
       | Some device =>
           in_zone <- Device_in_zone device zone ;;
           metadata <- read (Device_get_metadata device) ;;
           if negb (in_zone || is_trusted metadata)
           then ret (dict_del device_id device_counters)
           else ret device_counters
       end)
    (List.map fst device_counters) device_counters.

(** The body of the two inner loops for one class and one device. *)
Definition select_for_device
    (zone : option string) (limit boost : Z) (Model : ModelClass)
    (acc : list Instance * bool) (entry : string * Z) : M (list Instance * bool) :=
  let '(models, instances_remaining) := acc in
  let '(device_id, counter_) := entry in
  device <- objects_get Device device_id ;;
  queryset <- read (fun w =>
    List.filter (fun r => option_string_eqb (signed_by_id r) (Some (pk device)))
      (table Model w)) ;;
  in_zone <- Device_in_zone device zone ;;
  metadata <- read (Device_get_metadata device) ;;
  if negb in_zone && negb (is_trusted metadata) then ret acc
  else
    let queryset :=
      if negb in_zone
      then List.filter (fun r => option_string_eqb (zone_fallback_id r) zone) queryset
      else queryset in
    let instances_remaining :=
      if negb instances_remaining
         && existsb (fun r => counter_ + limit + boost <=? counter r) queryset
      then true else instances_remaining in
    ret (models
           ++ List.filter
                (fun r => (counter_ <=? counter r) && (counter r <? counter_ + limit + boost))
                queryset,
         instances_remaining).

(** The [while True] loop; [None] when [fuel] rounds were not enough. *)
Fixpoint select_models
    (fuel : nat) (zone : option string) (device_counters : dict) (limit boost : Z)
    (models : list Instance) : M (option (list Instance)) :=
  match fuel with
  | O => ret None
  | S fuel' =>
      r <- foldM
             (fun acc Model => foldM (select_for_device zone limit boost Model) device_counters acc)
             syncing_models (models, false) ;;
      let '(models, instances_remaining) := r in
      if (0 <? List.length models)%nat || negb instances_remaining
      then ret (Some models)
      else select_models fuel' zone device_counters limit (boost + limit) models
  end.

(** The instances [get_serialized_models] serializes. *)
Definition selected_models
    (fuel : nat) (device_counters : option dict) (limit : Z) (zone : option string)
    : M (option (list Instance)) :=
  zone <-
    match zone with
    | Some z => ret (Some z)
    | None =>
        own <- get_own_device env ;;
        match own with
        | Some own => Device_get_zone own
        | None => raise (AttributeError "get_zone")
        end
    end ;;
  device_counters <-
    match device_counters with
    | Some d => ret d
    | None =>
        ds <- read (by_zone Device zone) ;;
        ret (List.fold_left (fun d device => dict_set (pk device) 0 d) ds [])
    end ;;
  device_counters <- drop_foreign_devices zone device_counters ;;
  select_models fuel zone device_counters limit 0 [].

(** [get_serialized_models] *)
Definition get_serialized_models
    (fuel : nat) (device_counters : option dict) (limit : Z) (zone : option string)
    (include_count : bool) : M (option serialized_result) :=
  models <- selected_models fuel device_counters limit zone ;;
  match models with
  | None => ret None
  | Some models =>
      let serialized_models := serialize env models in
      if include_count
      then ret (Some (SerializedWithCount serialized_models (List.length models)))
      else ret (Some (Serialized serialized_models))
  end.

(** [get_device_counters] *)
Definition get_device_counters (zone : option string) : M dict :=
  ds <- read (by_zone Device zone) ;;
  foldM
    (fun (device_counters : dict) device =>
       if dict_has (pk device) device_counters then ret device_counters
       else
         metadata <- read (Device_get_metadata device) ;;
         ret (dict_set (pk device) (counter_position metadata) device_counters))
    ds [].

(** [ImportPurgatory.save] *)
Definition ImportPurgatory_save (self : ImportPurgatory.t) : M ImportPurgatory.t :=
  c <-
    (if negb (ImportPurgatory.counter self =? 0) then ret (ImportPurgatory.counter self)
     else
       own <- get_own_device env ;;
       match own with
       | Some own => Device_get_counter own
       | None => raise (AttributeError "get_counter")
       end) ;;
  fun w =>
    let rows := import_purgatory w in
    match ImportPurgatory.pk self with
    | None =>
        let n := purgatory_next_pk w in
        let row :=
          {| ImportPurgatory.pk := Some n; ImportPurgatory.counter := c;
             ImportPurgatory.retry_attempts := ImportPurgatory.retry_attempts self;
             ImportPurgatory.serialized_models := ImportPurgatory.serialized_models self;
             ImportPurgatory.exceptions := ImportPurgatory.exceptions self |} in
        (set_import_purgatory (rows ++ [row]) (S n) w, Return row)
    | Some k =>
        let row :=
          {| ImportPurgatory.pk := Some k; ImportPurgatory.counter := c;
             ImportPurgatory.retry_attempts := ImportPurgatory.retry_attempts self;
             ImportPurgatory.serialized_models := ImportPurgatory.serialized_models self;
             ImportPurgatory.exceptions := ImportPurgatory.exceptions self |} in
        let same r := match ImportPurgatory.pk r with Some k' => (k' =? k)%nat | None => false end in
        let rows' :=
          if existsb same rows
          then List.map (fun r => if same r then row else r) rows
          else rows ++ [row] in
        (set_import_purgatory rows' (purgatory_next_pk w) w, Return row)
    end.

(** [ImportPurgatory.delete] *)
Definition ImportPurgatory_delete (self : ImportPurgatory.t) : M unit :=
  write (fun w =>
    let same r :=
      match ImportPurgatory.pk r, ImportPurgatory.pk self with
      | Some k', Some k => (k' =? k)%nat
      | _, _ => false
      end in
    set_import_purgatory (List.filter (fun r => negb (same r)) (import_purgatory w))
      (purgatory_next_pk w) w).

Record import_state : Type := {
  unsaved_models : list Instance;
  exceptions : string;
  saved : Z
}.

(** One turn of the import loop: a validation error is recorded, any other
    exception leaves the function. *)
Definition import_model (st : import_state) (model : Instance) : M import_state :=
  fun w =>
    match save env model None true w with
    | (w', Return _) =>
        (w', Return {| unsaved_models := unsaved_models st; exceptions := exceptions st;
                       saved := saved st + 1 |})
    | (w', Raise (ValidationError msg)) =>
        (w', Return {| unsaved_models := unsaved_models st ++ [model];
                       exceptions := exceptions st +:+ str_ValidationError env msg +:+ newline;
                       saved := saved st |})
    | (w', Raise e) => (w', Raise e)
    end.

(** The purgatory row the data comes from, if it does. *)
Definition purgatory_of (data : import_data) : option ImportPurgatory.t :=
  match data with
  | FromPurgatory p => Some p
  | _ => None
  end.

(** The deserialization of the data, from text or from a list of
    dictionaries. *)
Definition deserialize (data : import_data) : list Instance * option exn :=
  match data with
  | FromPurgatory p => deserialize_json env (ImportPurgatory.serialized_models p)
  | FromText text => deserialize_json env text
  | FromPython objects err => (objects, err)
  end.

(** [save_serialized_models] *)
Definition save_serialized_models (data : import_data) : M import_result :=
  let purgatory := purgatory_of data in
  let '(models, err) := deserialize data in
  st <- foldM import_model models
          {| unsaved_models := []; exceptions := ""; saved := 0 |} ;;
  match err with
  | Some e => raise e
  | None =>
      match unsaved_models st with
      | _ :: _ =>
          let purgatory := default ImportPurgatory.new purgatory in
          let purgatory :=
            {| ImportPurgatory.pk := ImportPurgatory.pk purgatory;
               ImportPurgatory.counter := ImportPurgatory.counter purgatory;
               ImportPurgatory.retry_attempts := ImportPurgatory.retry_attempts purgatory + 1;
               ImportPurgatory.serialized_models := serialize env (unsaved_models st);
               ImportPurgatory.exceptions := exceptions st |} in
          ImportPurgatory_save purgatory ;;; ret tt
      | [] =>
          match purgatory with
          | Some p => ImportPurgatory_delete p
          | None => ret tt
          end
      end ;;;
      ret {| unsaved_model_count := List.length (unsaved_models st);
             saved_model_count := saved st |}
  end.

End Sync.
(** ** Specification vocabulary and example data *)

(** The tokens of the truthy entries of a list of fields and values, in
    order. *)
Definition tokens (l : list (string * pyval)) : list string :=
  List.map (fun p => token (fst p) (snd p)) (List.filter (fun p => truthy (snd p)) l).

(** The length of the joined string, counted with one separator per
    chunk. *)
Fixpoint weight (cs : list string) : nat :=
  match cs with
  | [] => O
  | c :: rest => S (String.length c + weight rest)
  end.

(** An environment with a transparent stand-in for the signature scheme: a
    signature is the signing key followed by the text. *)
Definition example_env : Env :=
  {| Key := string; CENTRAL_SERVER_HOST := "kalite.adhocsync.com"; CENTRAL_SERVER := false;
     get_public_key := "pubkey-A"; serialize_public_key := fun k => k;
     deserialize_public_key := fun s => if String.eqb s "" then None else Some s;
     crypto_sign := fun t => Some ("pubkey-A/" +:+ t);
     crypto_verify := fun t s k => Some (String.eqb s (k +:+ "/" +:+ t));
     encode_base64 := fun s => s; decode_base64 := fun s => Some s;
     serialize := fun l => Py.join "," (List.map (fun r => "{pk: " +:+ pk r +:+ "}") l);
     deserialize_json := fun _ => ([], None);
     urandom16 := fun n => List.map Z.of_nat (List.seq n 16);
     str_ValidationError := fun message => Py.repr_unicode_list [message] |}.

Definition example_facility (name description : string) : Instance :=
  {| cls := Facility; id := VStr ""; counter := 0; signature := ""; signed_version := 1;
     signed_by_id := None; zone_fallback_id := None; deleted := false;
     attrs := [("name", Plain (VStr name)); ("description", Plain (VStr description));
               ("address", Plain (VStr "")); ("address_normalized", Plain (VStr ""));
               ("latitude", Plain VNone); ("longitude", Plain VNone); ("zoom", Plain VNone);
               ("contact_name", Plain (VStr "")); ("contact_phone", Plain (VStr ""));
               ("contact_email", Plain (VStr "")); ("user_count", Plain VNone)] |}.

Definition example_device : Instance :=
  {| cls := Device; id := VStr "a83e6774a6a95554a9c006ba725e07f9"; counter := 0;
     signature := "pubkey-A/id=a83e6774a6a95554a9c006ba725e07f9&signed_version=1&public_key=pubkey-A";
     signed_version := 1; signed_by_id := Some "a83e6774a6a95554a9c006ba725e07f9";
     zone_fallback_id := None; deleted := false;
     attrs := [("public_key", Plain (VStr "pubkey-A")); ("name", Plain (VStr ""));
               ("description", Plain (VStr ""))] |}.


(** A record signed by a device this database does not know. *)
Definition example_orphan : Instance :=
  set_signed_by_id (Some "00000000000000000000000000000001") (example_facility "School" "").


(** The database after the own device has been set up. *)
Definition example_world : World := Eval vm_compute in
  fst (get_own_device example_env empty_world).

(** The world and the record after a facility has been saved locally. *)
Definition example_saved : World * Instance := Eval vm_compute in
    match save example_env (example_facility "School" "") None false example_world with
    | (w, Return r) => (w, r)
    | (w, Raise _) => (w, example_facility "School" "")
    end.

(** Another device, known by its public key, not yet saved. *)
Definition example_other_device : Instance :=
  set_attr "public_key" (Plain (VStr "pubkey-B")) Device_blank.


(** The primary key of a metadata row is its position in the table. *)
Definition metadata_wf (w : World) : Prop :=
  forall (i : nat) (m : DeviceMetadata), device_metadata w !! i = Some m -> dm_pk m = Some i.

(** The counter position recorded for a device. *)
Definition position (d : Instance) (w : World) : Z :=
  counter_position (Device_get_metadata d w).

Inductive counter_op : Type :=
| SetCounterPosition (d : Instance) (n : Z)
| IncrementAndGetCounter (d : Instance).

Definition run_op (w : World) (op : counter_op) : World :=
  match op with
  | SetCounterPosition d n => fst (Device_set_counter_position d n w)
  | IncrementAndGetCounter d => fst (Device_increment_and_get_counter d w)
  end.

Definition run_ops (ops : list counter_op) (w : World) : World :=
  List.fold_left run_op ops w.

(** [n] successive calls of [increment_and_get_counter] and the values they
    return. *)
Fixpoint increments (n : nat) (d : Instance) (w : World) : World * list Z :=
  match n with
  | O => (w, [])
  | S k =>
      match Device_increment_and_get_counter d w with
      | (w', Return c) => let '(w'', cs) := increments k d w' in (w'', c :: cs)
      | (w', Raise _) => (w', [])
      end
  end.

(** One table of metadata rows extends another: the old rows keep their
    device and key and their counters have not gone down, and the new rows
    have non-negative counters. *)
Definition row_le (m m' : DeviceMetadata) : Prop :=
  device_id m = device_id m' /\ dm_pk m = dm_pk m'
  /\ counter_position m <= counter_position m'.

Definition rows_le (rows rows' : list DeviceMetadata) : Prop :=
  exists upd extra,
    rows' = upd ++ extra /\ Forall2 row_le rows upd
    /\ Forall (fun m => 0 <= counter_position m) extra.

(** The own device has been set up: the first metadata row flagged as own
    device points at a stored [Device] row. *)
Definition own_device_registered (w : World) (own : Instance) : Prop :=
  exists m rest,
    List.filter is_own_device (device_metadata w) = m :: rest
    /\ device_id m = Some (pk own)
    /\ find_row Device (pk own) w = Some own.

(** A computation keeps the metadata table well formed. *)
Definition preserves_wf {A : Type} (m : M A) : Prop :=
  forall w, metadata_wf w -> metadata_wf (fst (m w)).

(** A computation leaves the database as it found it. *)
Definition read_only {A : Type} (m : M A) : Prop :=
  forall w, fst (m w) = w.

(** The bit positions of a version-4 UUID that the constructor does not
    force: all but the variant bits 62 and 63 and the version bits 76 to
    79. *)
Definition uuid4_free_bit (i : Z) : bool :=
  negb ((i =? 62) || (i =? 63) || ((76 <=? i) && (i <=? 79))).

(** A device object holds no stale metadata: the metadata object it holds,
    if it holds one, is the row the table has for the device. *)
Definition up_to_date (self : DeviceObject.t) (w : World) : Prop :=
  forall m,
    DeviceObject.devicemetadata self = Some m ->
    List.find (metadata_of (pk (DeviceObject.fields self))) (device_metadata w) = Some m.

(** Calls of the counter methods on device objects that stay in memory; a
    call names its object by its place in the list of objects. *)
Inductive counter_call : Type :=
| CallSetCounterPosition (o : nat) (n : Z)
| CallIncrementAndGetCounter (o : nat).

Definition run_call (s : list DeviceObject.t * World) (c : counter_call)
    : list DeviceObject.t * World :=
  let '(objects, w) := s in
  match c with
  | CallSetCounterPosition o n =>
      match objects !! o with
      | None => s
      | Some self =>
          match DeviceObject.set_counter_position self n w with
          | (w', Return self') => (<[o := self']> objects, w')
          | (w', Raise _) => (objects, w')
          end
      end
  | CallIncrementAndGetCounter o =>
      match objects !! o with
      | None => s
      | Some self =>
          match DeviceObject.increment_and_get_counter self w with
          | (w', Return (self', _)) => (<[o := self']> objects, w')
          | (w', Raise _) => (objects, w')
          end
      end
  end.

Definition run_calls (calls : list counter_call) (s : list DeviceObject.t * World)
    : list DeviceObject.t * World :=
  List.fold_left run_call calls s.

(** [n] successive calls of [increment_and_get_counter] on one device
    object: the object and the database they leave, and the values they
    return. *)
Fixpoint object_increments (n : nat) (self : DeviceObject.t) (w : World)
    : DeviceObject.t * World * list Z :=
  match n with
  | O => (self, w, [])
  | S k =>
      match DeviceObject.increment_and_get_counter self w with
      | (w', Return (self', c)) =>
          let '(self'', w'', cs) := object_increments k self' w' in (self'', w'', c :: cs)
      | (w', Raise _) => (self, w', [])
      end
  end.

(** How the import of each record of a batch ends, in order, and the
    database after the last one.  The run stops at the first exception that
    is not a validation error. *)
Fixpoint import_outcomes (env : Env) (models : list Instance) (w : World)
    : list (Instance * outcome Instance) * World :=
  match models with
  | [] => ([], w)
  | model :: rest =>
      match save env model None true w with
      | (w', Raise e) =>
          match e with
          | ValidationError _ =>
              let '(os, w'') := import_outcomes env rest w' in ((model, Raise e) :: os, w'')
          | _ => ([(model, Raise e)], w')
          end
      | (w', Return r) =>
          let '(os, w'') := import_outcomes env rest w' in ((model, Return r) :: os, w'')
      end
  end.

(** The message of the validation error an import ended with. *)
Definition rejected (o : outcome Instance) : option string :=
  match o with
  | Raise (ValidationError msg) => Some msg
  | _ => None
  end.






(** A second process: a client with its own key pair, which knows the
    device of [example_env] and pulls its records. *)
Definition example_client_env : Env :=
  {| Key := string; CENTRAL_SERVER_HOST := "kalite.adhocsync.com"; CENTRAL_SERVER := false;
     get_public_key := "pubkey-C"; serialize_public_key := fun k => k;
     deserialize_public_key := fun s => if String.eqb s "" then None else Some s;
     crypto_sign := fun t => Some ("pubkey-C/" +:+ t);
     crypto_verify := fun t s k => Some (String.eqb s (k +:+ "/" +:+ t));
     encode_base64 := fun s => s; decode_base64 := fun s => Some s;
     serialize := fun l => Py.join "," (List.map (fun r => "{pk: " +:+ pk r +:+ "}") l);
     deserialize_json := fun _ => ([], None);
     urandom16 := fun n => List.map Z.of_nat (List.seq n 16);
     str_ValidationError := fun message => Py.repr_unicode_list [message] |}.

Definition example_device_id : string := "a83e6774a6a95554a9c006ba725e07f9".

(** The record of [example_device] with counter [n], signed. *)
Definition example_log (n : nat) : Instance :=
  let r :=
    {| cls := SyncedLog; id := VStr ("log-" +:+ Py.str_int (Z.of_nat n));
       counter := Z.of_nat n; signature := ""; signed_version := 1;
       signed_by_id := Some example_device_id; zone_fallback_id := None; deleted := false;
       attrs := [("category", Plain (VStr "login")); ("value", Plain (VStr ""));
                 ("data", Plain (VStr ""))] |} in
  match _hashable_representation r empty_world with
  | Return text => set_signature ("pubkey-A/" +:+ text) r
  | Raise _ => r
  end.

(** The serving side: the device of [example_env] holding 250 records of its
    own, with counters 1 to 250. *)
Definition example_server : World :=
  set_table SyncedLog (List.map example_log (List.seq 1 250))
    (fst (increments 250 example_device example_world)).

(** The pulling side, once it has imported the record of the serving
    device. *)
Definition example_client : World :=
  fst (save_serialized_models example_client_env (FromPython [example_device] None)
         (fst (get_own_device example_client_env empty_world))).

(** One round of the exchange: the server selects a batch for the counter the
    client reports for the device, with the default limit of 100; the client
    imports the batch; the counter it reports next is the one
    [get_device_counters] gives. *)
Definition pull (known : Z) : list Instance :=
  match selected_models example_env 8 (Some [(example_device_id, known)]) 100 None
          example_server with
  | (_, Return (Some models)) => models
  | _ => []
  end.

Definition import_batch (batch : list Instance) (client : World) : World :=
  fst (save_serialized_models example_client_env (FromPython batch None) client).

Definition known_counter (client : World) : Z :=
  match get_device_counters None client with
  | (_, Return d) => default 0 (assoc example_device_id d)
  | (_, Raise _) => 0
  end.

Definition three_rounds : list (list Instance * Z) :=
  let b1 := pull (known_counter example_client) in
  let c1 := import_batch b1 example_client in
  let b2 := pull (known_counter c1) in
  let c2 := import_batch b2 c1 in
  let b3 := pull (known_counter c2) in
  let c3 := import_batch b3 c2 in
  [(b1, known_counter c1); (b2, known_counter c2); (b3, known_counter c3)].

(** A batch of two records: one that was never signed and one saved by
    [example_env]. *)
Definition example_batch : import_data :=
  FromPython [example_facility "Clinic" ""; snd example_saved] None.

(** ** Further methods of the module *)

(** [SyncedModel.get_existing_instance]: the stored row with the record's
    id, or with the id [get_uuid] would give it; [None] when there is
    none. *)
Definition get_existing_instance (env : Env) (self : Instance) : M (option Instance) :=
  uuid <- (if truthy (id self) then ret (id self) else get_uuid env self) ;;
  read (find_row (cls self) (py_str uuid)).

(** [getattr(self, "zone", None)]: only a missing attribute gives the
    default. *)
Definition getattr_zone (self : Instance) (w : World) : outcome pyval :=
  match getattr self "zone" w with
  | Raise (AttributeError _) => Return VNone
  | o => o
  end.

(** A zone object or [None], by its primary key. *)
Definition zone_of_value (v : pyval) : option string :=
  match v with
  | VModel k => Some k
  | _ => None
  end.

(** [SyncedModel.get_zone]: [self.signed_by] is only looked up while no
    zone has been found. *)
Definition SyncedModel_get_zone (self : Instance) : M (option string) :=
  zone <- lift_read (getattr_zone self) ;;
  let zone := if truthy zone then zone_of_value zone else None in
  zone <-
    match zone with
    | Some _ => ret zone
    | None =>
        signed_by <- lift_read (related Device true (signed_by_id self)) ;;
        match signed_by with
        | VModel k => signer <- objects_get Device k ;; Device_get_zone signer
        | _ => ret zone
        end
    end ;;
  match zone with
  | Some _ => ret zone
  | None =>
      signed_by <- lift_read (related Device true (signed_by_id self)) ;;
      match signed_by with
      | VModel k =>
          signer <- objects_get Device k ;;
          metadata <- read (Device_get_metadata signer) ;;
          if is_trusted metadata
          then z <- lift_read (related Zone true (zone_fallback_id self)) ;; ret (zone_of_value z)
          else ret zone
      | _ => ret zone
      end
  end.

(** [self.get_zone()], by the class of [self]. *)
Definition get_zone (self : Instance) : M (option string) :=
  match cls self with
  | Device => Device_get_zone self
  | _ => SyncedModel_get_zone self
  end.

(** [SyncedModel.in_zone] *)
Definition in_zone (self : Instance) (zone : option string) : M bool :=
  z <- get_zone self ;;
  ret (option_string_eqb zone z).

(** [s.split(sep, maxsplit)] for a one-character separator. *)
Fixpoint split_char (sep : ascii) (maxsplit : nat) (s : string) : list string :=
  match s with
  | EmptyString => [""]
  | String c t =>
      match maxsplit with
      | O => [s]
      | S m =>
          if Ascii.eqb c sep then "" :: split_char sep m t
          else
            match split_char sep maxsplit t with
            | h :: rest => String c h :: rest
            | [] => [String c ""]
            end
      end
  end.

(** What [FacilityUser] takes from outside the module: Django's
    [check_password], [pbkdf2.crypt] with a given hash and with a fresh
    salt, and the configured iteration count. *)
Record PasswordEnv : Type := {
  django_check_password : string -> string -> bool;
  crypt : string -> string -> string;
  crypt_fresh : string -> Z -> string;
  password_hash_iterations : Z
}.

Definition str_attr (name : string) (self : Instance) : string :=
  match assoc name (attrs self) with
  | Some (Plain (VStr s)) => s
  | _ => ""
  end.

Inductive py_exn : Type :=
| IndexError.

(** [FacilityUser.check_password]: [Some None] is falling off the end of the
    method, which returns [None]. *)
Definition FacilityUser_check_password
    (penv : PasswordEnv) (self : Instance) (raw_password : string)
    : py_exn + option bool :=
  let password := str_attr "password" self in
  match split_char "$" 1 password with
  | [] => inl IndexError
  | scheme :: _ =>
      if String.eqb scheme "sha1"
      then inr (Some (django_check_password penv raw_password password))
      else
        match split_char "$" 2 password with
        | _ :: scheme2 :: _ =>
            if String.eqb scheme2 "p5k2"
            then inr (Some (String.eqb password (crypt penv raw_password password)))
            else inr None
        | _ => inl IndexError
        end
  end.

(** [FacilityUser.set_password] *)
Definition FacilityUser_set_password
    (penv : PasswordEnv) (self : Instance) (raw_password : string) : Instance :=
  set_attr "password"
    (Plain (VStr (crypt_fresh penv raw_password (password_hash_iterations penv)))) self.

(** [FacilityUser.get_name] *)
Definition FacilityUser_get_name (self : Instance) : string :=
  if negb (String.eqb (str_attr "first_name" self) "")
     && negb (String.eqb (str_attr "last_name" self) "")
  then str_attr "first_name" self +:+ " " +:+ str_attr "last_name" self
  else str_attr "username" self.

Module SyncSession.

Record t : Type := {
  client_nonce : string;
  client_device_id : string;
  server_nonce : string;
  server_device_id : option string;
  verified : bool;
  ip : string;
  client_version : string;
  client_os : string;
  models_uploaded : Z;
  models_downloaded : Z;
  closed : bool
}.

(** [SyncSession._hashable_representation]: the two nonces and the keys of
    the two devices, joined by colons.  A session without server device
    has nothing to take the key of. *)
Definition _hashable_representation (self : t) (w : World) : outcome string :=
  match find_row Device (client_device_id self) w with
  | None => Raise (DoesNotExist Device)
  | Some client =>
      match server_device_id self with
      | None => Raise (AttributeError "pk")
      | Some k =>
          match find_row Device k w with
          | None => Raise (DoesNotExist Device)
          | Some server =>
              Return (client_nonce self +:+ ":" +:+ pk client +:+ ":"
                      +:+ server_nonce self +:+ ":" +:+ pk server)
          end
      end
  end.

(** [SyncSession._verify_signature]: the arguments of [crypto.verify] are
    evaluated in order, and nothing is caught.  [device] is [None] for a
    session without server device. *)
Definition _verify_signature
    (env : Env) (self : t) (device : option Instance) (signature_ : string) : M bool :=
  text <- lift_read (_hashable_representation self) ;;
  match decode_base64 env signature_ with
  | None => raise CryptoError
  | Some sig =>
      match device with
      | None => raise (AttributeError "get_public_key")
      | Some device =>
          key <- Device_get_public_key env device ;;
          match crypto_verify env text sig key with
          | Some b => ret b
          | None => raise CryptoError
          end
      end
  end.

(** [SyncSession.verify_client_signature] *)
Definition verify_client_signature (env : Env) (self : t) (signature_ : string) : M bool :=
  device <- objects_get Device (client_device_id self) ;;
  _verify_signature env self (Some device) signature_.

(** [SyncSession.verify_server_signature] *)
Definition verify_server_signature (env : Env) (self : t) (signature_ : string) : M bool :=
  device <-
    match server_device_id self with
    | None => ret None
    | Some k => d <- objects_get Device k ;; ret (Some d)
    end ;;
  _verify_signature env self device signature_.

(** [SyncSession.sign] *)
Definition sign (env : Env) (self : t) : M string :=
  text <- lift_read (_hashable_representation self) ;;
  sign_text env text.

End SyncSession.

(** ** Specification vocabulary for the further properties *)

(** The signature scheme works for the process's own key pair: the public
    key survives serialization, a signature survives the base64 codec, and
    a signature made with the private key verifies under the public key. *)
Definition crypto_sound (env : Env) : Prop :=
  deserialize_public_key env (serialize_public_key env (get_public_key env))
  = Some (get_public_key env)
  /\ forall text sg,
       crypto_sign env text = Some sg ->
       decode_base64 env (encode_base64 env sg) = Some sg
       /\ crypto_verify env text sg (get_public_key env) = Some true.

(** No character of the string is a colon. *)
Definition colon_free (s : string) : Prop := Py.in_chars s ":" = false.

(** One database extends another when every row of the tables of synced
    records that could be looked up still can. *)
Definition extends (w w' : World) : Prop :=
  forall c k, find_row c k w <> None -> find_row c k w' <> None.

(** A [Device] record with the given key, id, counter, signature and
    signer, and the defaults elsewhere. *)
Definition device_record
    (key : string) (i : pyval) (c : Z) (sig : string) (signer : option string) : Instance :=
  {| cls := Device; id := i; counter := c; signature := sig; signed_version := 1;
     signed_by_id := signer; zone_fallback_id := None; deleted := false;
     attrs := [("public_key", Plain (VStr key)); ("name", Plain (VStr ""));
               ("description", Plain (VStr ""))] |}.

(** The serialized public key of the process and the id it gives its own
    device. *)
Definition own_key (env : Env) : string := serialize_public_key env (get_public_key env).

Definition own_id (env : Env) : string :=
  Uuid.hex (Uuid.uuid5 (ROOT_UUID_NAMESPACE env) (own_key env)).

(** The canonical hash string of the own device once it has its id. *)
Definition own_device_text (env : Env) : string :=
  Py.join "&" (tokens [("id", VStr (own_id env)); ("signed_version", VInt 1);
                       ("public_key", VStr (own_key env))]).

(** A computation keeps a relation between the database it starts from and
    the one it leaves. *)
Definition stable (R : World -> World -> Prop) {A : Type} (m : M A) : Prop :=
  forall w, R w (fst (m w)).

(** The purgatory table is the same in the two databases. *)
Definition same_purgatory (w w' : World) : Prop :=
  import_purgatory w' = import_purgatory w /\ purgatory_next_pk w' = purgatory_next_pk w.

(** ** More example data *)

(** A group whose facility is not in the database, signed by the example
    device. *)
Definition example_dangling_group : Instance :=
  {| cls := FacilityGroup; id := VStr "11111111111111111111111111111111"; counter := 1;
     signature := "pubkey-A/anything"; signed_version := 1;
     signed_by_id := Some "a83e6774a6a95554a9c006ba725e07f9";
     zone_fallback_id := None; deleted := false;
     attrs := [("facility", ForeignKey Facility (Some "22222222222222222222222222222222"));
               ("name", Plain (VStr "Class 1"))] |}.

(** ** Vocabulary for the batch selection *)

(** Whether the first loop of [get_serialized_models] keeps a requested
    device: it exists, and it is in the zone or trusted.  The zone lookup
    can raise. *)
Definition kept (zone : option string) (w : World) (device_id : string) : outcome bool :=
  match find_row Device device_id w with
  | None => Return false
  | Some device =>
      match snd (Device_in_zone device zone w) with
      | Raise e => Raise e
      | Return in_zone => Return (in_zone || is_trusted (Device_get_metadata device w))
      end
  end.

Definition keeps (zone : option string) (w : World) (device_id : string) : bool :=
  match kept zone w device_id with
  | Return b => b
  | Raise _ => false
  end.

(** The records of one class the selection loop looks at for one requested
    device: those the device signed; for a trusted device outside the zone
    only those whose fallback zone is the zone; for any other device outside
    the zone none. *)
Definition candidates
    (zone : option string) (Model : ModelClass) (device_id : string) (w : World)
    : outcome (list Instance) :=
  match find_row Device device_id w with
  | None => Raise (DoesNotExist Device)
  | Some device =>
      match snd (Device_in_zone device zone w) with
      | Raise e => Raise e
      | Return in_zone =>
          let queryset :=
            List.filter (fun r => option_string_eqb (signed_by_id r) (Some (pk device)))
              (table Model w) in
          if in_zone then Return queryset
          else if is_trusted (Device_get_metadata device w)
          then Return (List.filter (fun r => option_string_eqb (zone_fallback_id r) zone)
                         queryset)
          else Return []
      end
  end.

(** The part of a device's candidates inside the counter range of a round,
    and whether some candidate lies beyond it. *)
Definition window (limit boost : Z) (p : Z * list Instance) : list Instance :=
  List.filter (fun r => (fst p <=? counter r) && (counter r <? fst p + limit + boost)) (snd p).

Definition beyond (limit boost : Z) (p : Z * list Instance) : bool :=
  existsb (fun r => fst p + limit + boost <=? counter r) (snd p).

(** The classes and devices of one round, in the order the loops visit
    them. *)
Definition round_pairs (device_counters : dict) : list (ModelClass * (string * Z)) :=
  List.flat_map (fun Model => List.map (pair Model) device_counters) syncing_models.

(** The requested counter and the candidates of every visit of a round. *)
Fixpoint collect
    (zone : option string) (pairs : list (ModelClass * (string * Z))) (w : World)
    : outcome (list (Z * list Instance)) :=
  match pairs with
  | [] => Return []
  | (Model, (device_id, counter_)) :: rest =>
      match candidates zone Model device_id w with
      | Raise e => Raise e
      | Return q =>
          match collect zone rest w with
          | Raise e => Raise e
          | Return qs => Return ((counter_, q) :: qs)
          end
      end
  end.

(** The serving example with its device placed in a zone. *)
Definition example_zone_id : string := "33333333333333333333333333333333".

Definition example_zone : Instance :=
  {| cls := Zone; id := VStr example_zone_id; counter := 0; signature := "";
     signed_version := 1; signed_by_id := None; zone_fallback_id := None; deleted := false;
     attrs := [("name", Plain (VStr "Village")); ("description", Plain (VStr ""))] |}.

Definition example_device_zone : Instance :=
  {| cls := DeviceZone; id := VStr "44444444444444444444444444444444"; counter := 0;
     signature := ""; signed_version := 1; signed_by_id := None; zone_fallback_id := None;
     deleted := false;
     attrs := [("device", ForeignKey Device (Some example_device_id));
               ("zone", ForeignKey Zone (Some example_zone_id))] |}.

Definition example_zoned_server : World :=
  set_table Zone [example_zone] (set_table DeviceZone [example_device_zone] example_server).

(** What one turn of the loop of [get_device_counters] does to the
    dictionary. *)
Definition counters_step (w : World) (acc : dict) (device : Instance) : dict :=
  if dict_has (pk device) acc then acc else acc ++ [(pk device, position device w)].

(** A session between the example device and itself, and a second record
    of the same session that differs only in its flags. *)
Definition example_session : SyncSession.t :=
  {| SyncSession.client_nonce := "0123456789abcdef0123456789abcdef";
     SyncSession.client_device_id := example_device_id;
     SyncSession.server_nonce := "fedcba9876543210fedcba9876543210";
     SyncSession.server_device_id := Some example_device_id;
     SyncSession.verified := false; SyncSession.ip := ""; SyncSession.client_version := "";
     SyncSession.client_os := ""; SyncSession.models_uploaded := 0;
     SyncSession.models_downloaded := 0; SyncSession.closed := false |}.

Definition example_session_verified : SyncSession.t :=
  {| SyncSession.client_nonce := "0123456789abcdef0123456789abcdef";
     SyncSession.client_device_id := example_device_id;
     SyncSession.server_nonce := "fedcba9876543210fedcba9876543210";
     SyncSession.server_device_id := Some example_device_id;
     SyncSession.verified := true; SyncSession.ip := "10.0.0.1";
     SyncSession.client_version := ""; SyncSession.client_os := "";
     SyncSession.models_uploaded := 0; SyncSession.models_downloaded := 0;
     SyncSession.closed := false |}.

(** A stand-in for the password hashing: the hash is a fixed header
    followed by the password. *)
Definition example_password_env : PasswordEnv :=
  {| django_check_password := fun raw encoded => String.eqb encoded ("sha1$$" +:+ raw);
     crypt := fun raw _ => "$p5k2$7d0$salt$" +:+ raw;
     crypt_fresh := fun raw _ => "$p5k2$7d0$salt$" +:+ raw;
     password_hash_iterations := 2000 |}.

Definition example_user (password : string) : Instance :=
  {| cls := FacilityUser; id := VStr ""; counter := 0; signature := ""; signed_version := 1;
     signed_by_id := None; zone_fallback_id := None; deleted := false;
     attrs := [("facility", ForeignKey Facility None); ("group", ForeignKey FacilityGroup None);
               ("username", Plain (VStr "amina")); ("first_name", Plain (VStr ""));
               ("last_name", Plain (VStr "")); ("is_teacher", Plain (VBool false));
               ("notes", Plain (VStr "")); ("password", Plain (VStr password))] |}.

(** Two facilities that differ in their address columns. *)
Definition example_facility_plain : Instance :=
  set_attr "address_normalized" (Plain (VStr "1 main st"))
    (set_attr "address" (Plain (VStr "1 Main St")) (example_facility "School" "")).

Definition example_facility_merged : Instance :=
  set_attr "address_normalized" (Plain (VStr ""))
    (set_attr "address" (Plain (VStr "1 Main St&address_normalized=1 main st"))
       (example_facility "School" "")).
(** ** The canonical hash string: field selection and falsy values *)

Lemma length_app (s1 s2 : string) :
  String.length (s1 +:+ s2) = (String.length s1 + String.length s2)%nat.
Proof. induction s1 as [|c s1 IH]; simpl; [reflexivity | now rewrite IH]. Qed.

Lemma length_join (cs : list string) :
  String.length (Py.join "&" cs) = (weight cs - 1)%nat.
Proof.
  induction cs as [|c rest IH]; [reflexivity|].
  destruct rest as [|c' rest'].
  - simpl. lia.
  - change (Py.join "&" (c :: c' :: rest')) with (c +:+ "&" +:+ Py.join "&" (c' :: rest')).
    rewrite !length_app, IH. simpl. lia.
Qed.

Lemma length_token (f : string) (v : pyval) : (1 <= String.length (token f v))%nat.
Proof. unfold token. rewrite !length_app. simpl. lia. Qed.

Lemma chunks_values (self : Instance) (w : World) (fields : list string) (cs : list string) :
  chunks self fields w = Return cs ->
  exists vals, Forall2 (fun f v => getattr self f w = Return v) fields vals
               /\ cs = tokens (combine fields vals).
Proof.
  revert cs. induction fields as [|f rest IH]; intros cs H; simpl in H.
  - exists []. split; [constructor|]. now inversion H.
  - destruct (getattr self f w) as [v|e] eqn:Hv; [|discriminate].
    destruct (chunks self rest w) as [cs0|e] eqn:Hc; [|discriminate].
    destruct (IH cs0 eq_refl) as (vals & HF & ->).
    exists (v :: vals). split; [now constructor|].
    inversion H; subst. unfold tokens. simpl. now destruct (truthy v).
Qed.

Lemma values_chunks (self : Instance) (w : World) (fields : list string) (vals : list pyval) :
  Forall2 (fun f v => getattr self f w = Return v) fields vals ->
  chunks self fields w = Return (tokens (combine fields vals)).
Proof.
  induction 1 as [|f v fields vals Hv HF IH]; [reflexivity|].
  simpl. rewrite Hv, IH. unfold tokens. simpl. now destruct (truthy v).
Qed.

(** Two records that read the same everywhere except at [f], where the
    first is falsy and the second truthy. *)
Lemma chunks_grow (self self' : Instance) (w : World) (f : string) (v v' : pyval) :
  getattr self f w = Return v -> truthy v = false ->
  getattr self' f w = Return v' -> truthy v' = true ->
  (forall g, g <> f -> getattr self' g w = getattr self g w) ->
  forall fields cs,
    chunks self fields w = Return cs ->
    exists cs', chunks self' fields w = Return cs'
                /\ (weight cs <= weight cs')%nat
                /\ (In f fields -> In (token f v') cs' /\ (weight cs + 2 <= weight cs')%nat).
Proof.
  intros Hv Hf Hv' Ht Hother fields.
  induction fields as [|g rest IH]; intros cs H; simpl in H.
  - inversion H; subst. exists []. split; [reflexivity|]. split; [lia|]. intros [].
  - destruct (getattr self g w) as [x|e] eqn:Hg; [|discriminate].
    destruct (chunks self rest w) as [cs0|e] eqn:Hc; [|discriminate].
    destruct (IH cs0 eq_refl) as (cs0' & Hc' & Hle & Hin).
    inversion H; subst; clear H.
    destruct (String.eqb_spec g f) as [->|Hne].
    + rewrite Hv in Hg. inversion Hg; subst x. rewrite Hf.
      exists (token f v' :: cs0'). simpl. rewrite Hv', Hc', Ht.
      split; [reflexivity|]. pose proof (length_token f v'). simpl.
      split; [lia|]. intros _. split; [now left | lia].
    + exists (if truthy x then token g x :: cs0' else cs0').
      simpl. rewrite (Hother g Hne), Hg, Hc'.
      split; [reflexivity|].
      split; [destruct (truthy x); simpl; lia|].
      intros [Heq|Hin']; [congruence|].
      destruct (Hin Hin') as [Hi Hw].
      destruct (truthy x); simpl; split; auto; lia.
Qed.

Lemma assoc_filter_ne {A : Type} (g name : string) (l : list (string * A)) :
  g <> name ->
  assoc g (List.filter (fun p => negb (String.eqb (fst p) name)) l) = assoc g l.
Proof.
  intros Hne. induction l as [|[k a] l IH]; [reflexivity|].
  simpl. destruct (String.eqb_spec k name) as [->|Hk]; simpl.
  - destruct (String.eqb_spec g name); [contradiction | exact IH].
  - destruct (String.eqb g k); [reflexivity | exact IH].
Qed.

Lemma getattr_set_attr_ne (self : Instance) (name g : string) (a : attr) (w : World) :
  g <> name -> getattr (set_attr name a self) g w = getattr self g w.
Proof.
  intros Hne. unfold getattr. cbn [id counter signature signed_version signed_by_id zone_fallback_id deleted attrs set_attr].
  cbn [assoc]. destruct (String.eqb_spec g name); [contradiction|].
  now rewrite assoc_filter_ne.
Qed.

(** C8: the canonical hash string is the ["&"]-join of one token
    ["<name>=<value>"] per hashed field whose value is truthy, in field
    order, and of nothing for a field whose value is falsy (empty string,
    [None], zero, [False]).  Turning one hashed field from falsy to truthy,
    all else equal, adds its token and changes the string, so a signature
    over the old string no longer covers the record. *)
Theorem falsy_fields_are_skipped
    (self : Instance) (w : World) (fields : list string) (s : string) :
  SyncedModel__hashable_representation self fields w = Return s ->
  let hashed := hashed_fields (cls self) fields in
  (exists vals,
      Forall2 (fun f v => getattr self f w = Return v) hashed vals
      /\ s = Py.join "&" (tokens (combine hashed vals)))
  /\ (forall (self' : Instance) (f : string) (v v' : pyval),
        In f hashed -> cls self' = cls self ->
        getattr self f w = Return v -> truthy v = false ->
        getattr self' f w = Return v' -> truthy v' = true ->
        (forall g, g <> f -> getattr self' g w = getattr self g w) ->
        exists cs' s',
          chunks self' hashed w = Return cs' /\ In (token f v') cs'
          /\ SyncedModel__hashable_representation self' fields w = Return s'
          /\ s' <> s).
Proof.
  intros H hashed. unfold SyncedModel__hashable_representation in H.
  fold hashed in H.
  destruct (chunks self hashed w) as [cs|e] eqn:Hc; [|discriminate].
  inversion H; subst s; clear H. split.
  - destruct (chunks_values _ _ _ _ Hc) as (vals & HF & ->). now exists vals.
  - intros self' f v v' Hin Hcls Hv Hf Hv' Ht Hother.
    destruct (chunks_grow self self' w f v v' Hv Hf Hv' Ht Hother hashed cs Hc)
      as (cs' & Hc' & _ & Hgrow).
    destruct (Hgrow Hin) as [Hi Hw].
    exists cs', (Py.join "&" cs'). split; [exact Hc'|]. split; [exact Hi|].
    split.
    + unfold SyncedModel__hashable_representation. rewrite Hcls. fold hashed.
      now rewrite Hc'.
    + intros Heq. apply (f_equal String.length) in Heq.
      rewrite !length_join in Heq. lia.
Qed.

Lemma falsy_fields_are_skipped_witness :
  exists cs' s',
    chunks (set_attr "description" (Plain (VStr "rural")) (example_facility "School" ""))
      (hashed_fields Facility []) empty_world = Return cs'
    /\ In (token "description" (VStr "rural")) cs'
    /\ SyncedModel__hashable_representation
         (set_attr "description" (Plain (VStr "rural")) (example_facility "School" ""))
         [] empty_world = Return s'
    /\ s' <> "name=School&signed_version=1".
Proof.
  refine (proj2 (falsy_fields_are_skipped (example_facility "School" "") empty_world []
                   "name=School&signed_version=1" _)
            (set_attr "description" (Plain (VStr "rural")) (example_facility "School" ""))
            "description" (VStr "") (VStr "rural") _ _ _ _ _ _ _).
  - vm_compute. reflexivity.
  - vm_compute. tauto.
  - reflexivity.
  - reflexivity.
  - reflexivity.
  - reflexivity.
  - reflexivity.
  - intros g Hg. now apply getattr_set_attr_ne.
Defined.

(** C3, as the code has it: the always-hashed [id] is put in front of the
    list [Device] passes, so a device with an id has an [id=] token in its
    canonical hash string. *)
Lemma device_hash_includes_id :
  _hashable_representation example_device empty_world
  = Return "id=a83e6774a6a95554a9c006ba725e07f9&signed_version=1&public_key=pubkey-A"
  /\ _hashable_representation example_device empty_world
     <> match chunks example_device ["signed_version"; "name"; "description"; "public_key"]
                empty_world with
        | Return cs => Return (Py.join "&" cs)
        | Raise e => Raise e
        end.
Proof. split; [vm_compute; reflexivity | vm_compute; discriminate]. Qed.

(** C3 (amended): the canonical hash string of a [Device] is built from
    exactly the fields [id, signed_version, name, description, public_key]
    in that order, each contributing its token when its value is truthy;
    [counter] never contributes, [id] does whenever it is set. *)
Theorem device_hash_fields (d : Instance) (w : World) (name_ description_ public_key_ : pyval) :
  cls d = Device ->
  assoc "name" (attrs d) = Some (Plain name_) ->
  assoc "description" (attrs d) = Some (Plain description_) ->
  assoc "public_key" (attrs d) = Some (Plain public_key_) ->
  hashed_fields Device ["signed_version"; "name"; "description"; "public_key"]
  = ["id"; "signed_version"; "name"; "description"; "public_key"]
  /\ _hashable_representation d w
     = Return (Py.join "&"
                 (tokens [("id", id d); ("signed_version", VInt (signed_version d));
                          ("name", name_); ("description", description_);
                          ("public_key", public_key_)])).
Proof.
  intros Hcls Hn Hd Hk. split; [reflexivity|].
  unfold _hashable_representation. rewrite Hcls.
  unfold Device__hashable_representation, SyncedModel__hashable_representation.
  rewrite Hcls.
  change (hashed_fields Device ["signed_version"; "name"; "description"; "public_key"])
    with ["id"; "signed_version"; "name"; "description"; "public_key"].
  rewrite (values_chunks d w _
             [id d; VInt (signed_version d); name_; description_; public_key_]);
    [reflexivity|].
  repeat constructor; unfold getattr; cbn [String.eqb Ascii.eqb Bool.eqb]; 
    try rewrite Hn; try rewrite Hd; try rewrite Hk; reflexivity.
Qed.

Lemma device_hash_fields_witness :
  hashed_fields Device ["signed_version"; "name"; "description"; "public_key"]
  = ["id"; "signed_version"; "name"; "description"; "public_key"]
  /\ _hashable_representation example_device empty_world
     = Return (Py.join "&"
                 (tokens [("id", id example_device);
                          ("signed_version", VInt (signed_version example_device));
                          ("name", VStr ""); ("description", VStr "");
                          ("public_key", VStr "pubkey-A")])).
Proof.
  apply (device_hash_fields example_device empty_world); reflexivity.
Defined.

(** ** Device counters *)

Section Find.

Context {A : Type} (P : A -> bool).

Lemma find_first (l : list A) (x : A) :
  List.find P l = Some x ->
  exists i, l !! i = Some x /\ P x = true
            /\ forall j y, (j < i)%nat -> l !! j = Some y -> P y = false.
Proof.
  induction l as [|a l IH]; [discriminate|]. simpl.
  destruct (P a) eqn:Pa.
  - intros [= <-]. exists O. split; [reflexivity|]. split; [exact Pa|]. intros; lia.
  - intros H. destruct (IH H) as (i & Hi & Px & Hlt).
    exists (S i). split; [exact Hi|]. split; [exact Px|].
    intros [|j] y Hj Hy; simpl in Hy; [congruence|]. apply (Hlt j); [lia | exact Hy].
Qed.

Lemma find_insert_first (l : list A) (i : nat) (y : A) :
  (i < List.length l)%nat -> P y = true ->
  (forall j z, (j < i)%nat -> l !! j = Some z -> P z = false) ->
  List.find P (<[i := y]> l) = Some y.
Proof.
  revert i. induction l as [|a l IH]; intros i Hi Py Hlt; simpl in Hi; [lia|].
  destruct i as [|i]; simpl.
  - now rewrite Py.
  - rewrite (Hlt O a); [|lia|reflexivity].
    apply IH; [lia | exact Py |].
    intros j z Hj Hz. apply (Hlt (S j)); [lia | exact Hz].
Qed.

Lemma find_app_last (l : list A) (y : A) :
  List.find P l = None -> List.find P (l ++ [y]) = if P y then Some y else None.
Proof.
  induction l as [|a l IH]; simpl; [reflexivity|].
  destruct (P a); [discriminate | exact IH].
Qed.

End Find.

Lemma metadata_of_refl (k : string) (m : DeviceMetadata) :
  device_id m = Some k -> metadata_of k m = true.
Proof. unfold metadata_of. intros ->. apply String.eqb_refl. Qed.

(** Saving a row read by [get_metadata], with a changed counter. *)
Lemma save_counter_position (d : Instance) (n : Z) (w : World) :
  metadata_wf w ->
  let w' := fst (DeviceMetadata_save
                   (set_counter_position_field n (Device_get_metadata d w)) w) in
  metadata_wf w' /\ position d w' = n.
Proof.
  intros Hwf. unfold position, Device_get_metadata, DeviceMetadata_save, write.
  destruct (List.find (metadata_of (pk d)) (device_metadata w)) as [m|] eqn:Hfind.
  - destruct (find_first _ _ _ Hfind) as (i & Hi & Pm & Hlt).
    pose proof (Hwf i m Hi) as Hpk. cbn [set_counter_position_field dm_pk]. rewrite Hpk.
    cbn [fst]. unfold metadata_wf. cbn [set_device_metadata device_metadata]. split.
    + intros j m' Hj. destruct (decide (i = j)) as [<-|Hne].
      * rewrite list_lookup_insert_eq in Hj by (eapply lookup_lt_Some; eauto).
        inversion Hj; subst. exact Hpk.
      * rewrite list_lookup_insert_ne in Hj by exact Hne. now apply Hwf.
    + rewrite find_insert_first; [reflexivity | eapply lookup_lt_Some; eauto | | exact Hlt].
      exact Pm.
  - cbn [set_counter_position_field dm_pk fst]. unfold metadata_wf.
    cbn [set_device_metadata device_metadata]. split.
    + intros j m' Hj. destruct (decide (j < List.length (device_metadata w))%nat) as [Hlt|Hge].
      * rewrite lookup_app_l in Hj by exact Hlt. now apply Hwf.
      * rewrite lookup_app_r in Hj by lia.
        destruct (j - List.length (device_metadata w))%nat as [|k] eqn:Hk; simpl in Hj;
          [|discriminate].
        inversion Hj; subst. cbn. f_equal. lia.
    + rewrite find_app_last by exact Hfind.
      rewrite metadata_of_refl by reflexivity. reflexivity.
Qed.

Lemma metadata_save_returns (m : DeviceMetadata) (w : World) :
  DeviceMetadata_save m w = (fst (DeviceMetadata_save m w), Return tt).
Proof. unfold DeviceMetadata_save, write. reflexivity. Qed.

Lemma set_counter_position_spec (d : Instance) (n : Z) (w : World) :
  metadata_wf w ->
  let w' := fst (Device_set_counter_position d n w) in
  metadata_wf w'
  /\ (truthy (id d) = true -> position d w' = Z.max (position d w) n)
  /\ (truthy (id d) = false -> w' = w).
Proof.
  intros Hwf. unfold Device_set_counter_position, bind, read, ret.
  destruct (truthy (id d)) eqn:Ht; cbn [negb].
  - fold (position d w). destruct (Z.ltb_spec (position d w) n) as [Hlt|Hge].
    + destruct (save_counter_position d n w Hwf) as [Hwf' Hpos].
      split; [exact Hwf'|]. split; [|discriminate]. intros _.
      unfold position in *. rewrite Hpos. lia.
    + cbn [fst]. split; [exact Hwf|]. split; [|discriminate]. intros _. lia.
  - cbn [fst]. split; [exact Hwf|]. split; [discriminate | reflexivity].
Qed.

Lemma increment_and_get_counter_spec (d : Instance) (w : World) :
  metadata_wf w ->
  (truthy (id d) = false -> Device_increment_and_get_counter d w = (w, Return 0))
  /\ (truthy (id d) = true ->
      exists w', Device_increment_and_get_counter d w = (w', Return (position d w + 1))
                 /\ metadata_wf w' /\ position d w' = position d w + 1).
Proof.
  intros Hwf. unfold Device_increment_and_get_counter, bind, read, ret.
  destruct (truthy (id d)) eqn:Ht; cbn [negb]; split; try discriminate; intros _.
  - destruct (save_counter_position d (position d w + 1) w Hwf) as [Hwf' Hpos].
    unfold position in *. rewrite metadata_save_returns.
    eexists. split; [reflexivity|]. split; [exact Hwf' | exact Hpos].
  - reflexivity.
Qed.

Lemma row_le_refl (m : DeviceMetadata) : row_le m m.
Proof. unfold row_le. repeat split; lia. Qed.

Lemma rows_le_self (rows : list DeviceMetadata) : Forall2 row_le rows rows.
Proof. induction rows; constructor; auto using row_le_refl. Qed.

Lemma find_rows_le (k : string) (rows upd extra : list DeviceMetadata) :
  Forall2 row_le rows upd ->
  match List.find (metadata_of k) rows with
  | Some m => exists m', List.find (metadata_of k) (upd ++ extra) = Some m' /\ row_le m m'
  | None => List.find (metadata_of k) (upd ++ extra) = List.find (metadata_of k) extra
  end.
Proof.
  induction 1 as [|m m' rows upd Hm HF IH]; [reflexivity|].
  simpl. assert (metadata_of k m' = metadata_of k m) as ->.
  { unfold metadata_of. destruct Hm as [-> _]. reflexivity. }
  destruct (metadata_of k m); [|exact IH].
  exists m'. split; [reflexivity | exact Hm].
Qed.

Lemma position_rows_le (d : Instance) (w w' : World) :
  rows_le (device_metadata w) (device_metadata w') -> position d w <= position d w'.
Proof.
  intros (upd & extra & Heq & HF & Hextra).
  unfold position, Device_get_metadata. rewrite Heq.
  pose proof (find_rows_le (pk d) _ _ extra HF) as H.
  destruct (List.find (metadata_of (pk d)) (device_metadata w)) as [m|].
  - destruct H as (m' & -> & _ & _ & Hle). exact Hle.
  - rewrite H. destruct (List.find (metadata_of (pk d)) extra) as [x|] eqn:Hx.
    + cbn [counter_position]. apply find_some in Hx. destruct Hx as [Hin _].
      rewrite Forall_forall in Hextra. apply (Hextra x). now apply list_elem_of_In.
    + cbn. lia.
Qed.

Lemma save_rows_le (e : Instance) (n : Z) (w : World) :
  metadata_wf w -> position e w <= n ->
  rows_le (device_metadata w)
    (device_metadata
       (fst (DeviceMetadata_save (set_counter_position_field n (Device_get_metadata e w)) w))).
Proof.
  intros Hwf Hle. unfold position, Device_get_metadata in *.
  unfold DeviceMetadata_save, write.
  destruct (List.find (metadata_of (pk e)) (device_metadata w)) as [m|] eqn:Hfind.
  - destruct (find_first _ _ _ Hfind) as (i & Hi & _ & _).
    cbn [set_counter_position_field dm_pk]. rewrite (Hwf i m Hi).
    cbn [fst set_device_metadata device_metadata].
    exists (<[i := set_counter_position_field n m]> (device_metadata w)), [].
    split; [now rewrite app_nil_r|]. split; [|constructor].
    rewrite <- (list_insert_id (device_metadata w) i m Hi) at 1.
    apply Forall2_insert; [apply rows_le_self|].
    unfold row_le. cbn. repeat split. exact Hle.
  - cbn [set_counter_position_field dm_pk fst set_device_metadata device_metadata].
    eexists _, _. split; [reflexivity|]. split; [apply rows_le_self|].
    constructor; [exact Hle | constructor].
Qed.

Lemma increment_world (e : Instance) (w : World) :
  truthy (id e) = true ->
  fst (Device_increment_and_get_counter e w)
  = fst (DeviceMetadata_save
           (set_counter_position_field (position e w + 1) (Device_get_metadata e w)) w).
Proof.
  intros Hid. unfold Device_increment_and_get_counter, bind, read, ret.
  rewrite Hid. cbn [negb]. unfold position. now rewrite metadata_save_returns.
Qed.

Lemma run_op_spec (op : counter_op) (w : World) :
  metadata_wf w ->
  metadata_wf (run_op w op) /\ forall d, position d w <= position d (run_op w op).
Proof.
  intros Hwf. destruct op as [e n|e]; cbn [run_op].
  - split; [apply (set_counter_position_spec e n w Hwf)|].
    intros d. unfold Device_set_counter_position, bind, read, ret.
    destruct (truthy (id e)); cbn [negb fst]; [|lia].
    fold (position e w). destruct (Z.ltb_spec (position e w) n); cbn [fst]; [|lia].
    apply position_rows_le, save_rows_le; [exact Hwf | lia].
  - destruct (increment_and_get_counter_spec e w Hwf) as [Hf Ht].
    destruct (truthy (id e)) eqn:Hid.
    + destruct (Ht eq_refl) as (w' & Heq & Hwf' & _).
      split; [now rewrite Heq|]. intros d.
      rewrite (increment_world e w Hid).
      apply position_rows_le, save_rows_le; [exact Hwf | lia].
    + rewrite (Hf eq_refl). cbn [fst]. split; [exact Hwf|]. intros; lia.
Qed.

Lemma run_ops_spec (ops : list counter_op) (w : World) :
  metadata_wf w ->
  metadata_wf (run_ops ops w) /\ forall d, position d w <= position d (run_ops ops w).
Proof.
  revert w. induction ops as [|op ops IH]; intros w Hwf; cbn.
  - split; [exact Hwf | intros; lia].
  - destruct (run_op_spec op w Hwf) as [Hwf1 H1].
    destruct (IH _ Hwf1) as [Hwf2 H2]. split; [exact Hwf2|].
    intros d. specialize (H1 d). specialize (H2 d). unfold run_ops in *. lia.
Qed.

Lemma empty_world_wf : metadata_wf empty_world.
Proof. intros i m H. destruct i; discriminate. Qed.

Lemma example_world_wf : metadata_wf example_world.
Proof.
  intros i m H. destruct i as [|i]; cbn in H; [now inversion H|].
  destruct i; discriminate.
Qed.

Lemma increments_spec (n : nat) (d : Instance) (w : World) :
  metadata_wf w -> truthy (id d) = true ->
  snd (increments n d w) = List.map (fun i => position d w + Z.of_nat i) (List.seq 1 n)
  /\ position d (fst (increments n d w)) = position d w + Z.of_nat n
  /\ metadata_wf (fst (increments n d w)).
Proof.
  intros Hwf Ht. revert w Hwf. induction n as [|n IH]; intros w Hwf.
  - cbn. split; [reflexivity|]. split; [lia | exact Hwf].
  - cbn [increments].
    destruct (proj2 (increment_and_get_counter_spec d w Hwf) Ht) as (w' & -> & Hwf' & Hpos).
    destruct (IH w' Hwf') as (Hs & Hp & Hw).
    destruct (increments n d w') as [w'' cs]. cbn [fst snd] in *.
    split; [|split; [lia | exact Hw]].
    cbn [List.seq List.map]. f_equal; try lia.
    rewrite Hs, <- (seq_shift n 1), List.map_map. apply List.map_ext. intros i. lia.
Qed.

(** ** Device objects that hold their metadata *)

Section FindOther.

Context {A : Type} (P : A -> bool).

Lemma find_insert_other (l : list A) (i : nat) (x y : A) :
  l !! i = Some x -> P x = false -> P y = false ->
  List.find P (<[i := y]> l) = List.find P l.
Proof.
  revert i. induction l as [|a l IH]; intros i Hi Px Py; [reflexivity|].
  destruct i as [|i]; cbn in *.
  - inversion Hi; subst. now rewrite Px, Py.
  - destruct (P a); [reflexivity|]. now apply IH.
Qed.

Lemma find_app_other (l : list A) (y : A) :
  P y = false -> List.find P (l ++ [y]) = List.find P l.
Proof.
  intros Py. induction l as [|a l IH]; cbn; [now rewrite Py|].
  destruct (P a); [reflexivity | exact IH].
Qed.

End FindOther.

Lemma metadata_of_other (k k' : string) (m : DeviceMetadata) :
  device_id m = Some k -> k <> k' -> metadata_of k' m = false.
Proof. unfold metadata_of. intros -> Hne. now apply String.eqb_neq. Qed.

Lemma find_metadata_device_id (k : string) (rows : list DeviceMetadata) (m : DeviceMetadata) :
  List.find (metadata_of k) rows = Some m -> device_id m = Some k.
Proof.
  intros H. apply List.find_some in H. destruct H as [_ H]. unfold metadata_of in H.
  destruct (device_id m) as [k'|]; [|discriminate]. apply String.eqb_eq in H. now subst.
Qed.

Section Objects.

Import DeviceObject.

(** What an object without stale metadata reads is what a freshly loaded
    object reads, and it then holds the row, if there is one. *)
Lemma get_metadata_up_to_date (self : t) (w : World) :
  up_to_date self w ->
  get_metadata self w
  = ({| fields := fields self;
        devicemetadata := List.find (metadata_of (pk (fields self))) (device_metadata w) |},
     Device_get_metadata (fields self) w).
Proof.
  intros Hup. unfold get_metadata, Device_get_metadata.
  destruct (devicemetadata self) as [m|] eqn:Hm.
  - rewrite (Hup m Hm). destruct self; cbn in *. now subst.
  - destruct (List.find _ _); [reflexivity|]. destruct self; cbn in *. now subst.
Qed.

Lemma loaded_up_to_date (d : Instance) (w : World) : up_to_date (loaded d) w.
Proof. intros m H. discriminate. Qed.

(** The row a save writes is the row a later lookup finds, and the lookups
    of other devices are not disturbed. *)
Lemma save_found (d : Instance) (n : Z) (w : World) :
  metadata_wf w ->
  let m' := set_counter_position_field n (Device_get_metadata d w) in
  let w' := fst (DeviceMetadata_save m' w) in
  (forall m, List.find (metadata_of (pk d)) (device_metadata w) = Some m ->
             List.find (metadata_of (pk d)) (device_metadata w') = Some m')
  /\ (forall k, k <> pk d ->
        List.find (metadata_of k) (device_metadata w')
        = List.find (metadata_of k) (device_metadata w)).
Proof.
  intros Hwf m' w'. subst m' w'. unfold Device_get_metadata, DeviceMetadata_save, write.
  destruct (List.find (metadata_of (pk d)) (device_metadata w)) as [m0|] eqn:Hfind.
  - destruct (find_first _ _ _ Hfind) as (i & Hi & Pm & Hlt).
    pose proof (find_metadata_device_id _ _ _ Hfind) as Hid.
    cbn [set_counter_position_field dm_pk]. rewrite (Hwf i m0 Hi).
    cbn [fst set_device_metadata device_metadata]. split.
    + intros m _. apply find_insert_first; [eapply lookup_lt_Some; eauto|exact Pm|exact Hlt].
    + intros k Hk. apply (find_insert_other _ _ i m0); [exact Hi| |];
        apply (metadata_of_other (pk d)); auto.
  - cbn [set_counter_position_field dm_pk fst set_device_metadata device_metadata]. split.
    + intros m H. discriminate.
    + intros k Hk. apply find_app_other. apply (metadata_of_other (pk d)); auto.
Qed.

(** One call of [set_counter_position] on an object without stale
    metadata. *)
Lemma object_set_counter_position_spec (self : t) (n : Z) (w : World) :
  metadata_wf w -> up_to_date self w ->
  exists self',
    set_counter_position self n w
    = (fst (Device_set_counter_position (fields self) n w), Return self')
    /\ fields self' = fields self
    /\ up_to_date self' (fst (Device_set_counter_position (fields self) n w))
    /\ forall other, pk (fields other) <> pk (fields self) -> up_to_date other w ->
                     up_to_date other (fst (Device_set_counter_position (fields self) n w)).
Proof.
  intros Hwf Hup. unfold set_counter_position, Device_set_counter_position, bind, read, ret.
  rewrite (get_metadata_up_to_date self w Hup). cbn [fst snd fields].
  destruct (truthy (id (fields self))); cbn [negb].
  2:{ eexists. split; [reflexivity|]. split; [reflexivity|]. split; [|tauto].
      intros m H. cbn in H. exact H. }
  destruct (counter_position (Device_get_metadata (fields self) w) <? n).
  2:{ eexists. split; [reflexivity|]. split; [reflexivity|]. split; [|tauto].
      intros m H. cbn in H. exact H. }
  rewrite metadata_save_returns. cbn [fst].
  destruct (save_found (fields self) n w Hwf) as [Hsame Hother].
  eexists. split; [reflexivity|]. split; [|split].
  - unfold remember. cbn [devicemetadata fields]. now destruct (List.find _ _).
  - unfold remember. cbn [devicemetadata fields].
    destruct (List.find (metadata_of (pk (fields self))) (device_metadata w)) as [m0|] eqn:Hf.
    + intros m H. cbn in H. inversion H; subst m. cbn [fields]. exact (Hsame m0 eq_refl).
    + intros m H. cbn in H. congruence.
  - intros other Hne Ho m Hm. rewrite Hother by exact Hne. now apply Ho.
Qed.

(** One call of [increment_and_get_counter] on an object without stale
    metadata. *)
Lemma object_increment_spec (self : t) (w : World) :
  metadata_wf w -> up_to_date self w ->
  exists self',
    increment_and_get_counter self w
    = (fst (Device_increment_and_get_counter (fields self) w),
       Return (self', if truthy (id (fields self)) then position (fields self) w + 1 else 0))
    /\ fields self' = fields self
    /\ up_to_date self' (fst (Device_increment_and_get_counter (fields self) w))
    /\ forall other, pk (fields other) <> pk (fields self) -> up_to_date other w ->
                     up_to_date other (fst (Device_increment_and_get_counter (fields self) w)).
Proof.
  intros Hwf Hup.
  unfold increment_and_get_counter, Device_increment_and_get_counter, bind, read, ret.
  rewrite (get_metadata_up_to_date self w Hup). cbn [fst snd fields].
  destruct (truthy (id (fields self))); cbn [negb].
  2:{ eexists. split; [reflexivity|]. split; [reflexivity|]. split; [|tauto].
      intros m H. cbn in H. exact H. }
  rewrite metadata_save_returns. cbn [fst].
  destruct (save_found (fields self) (position (fields self) w + 1) w Hwf) as [Hsame Hother].
  eexists. split; [reflexivity|]. split; [|split].
  - unfold remember. cbn [devicemetadata fields]. now destruct (List.find _ _).
  - unfold remember. cbn [devicemetadata fields].
    destruct (List.find (metadata_of (pk (fields self))) (device_metadata w)) as [m0|] eqn:Hf.
    + intros m H. cbn in H. inversion H; subst m. cbn [fields]. exact (Hsame m0 eq_refl).
    + intros m H. cbn in H. congruence.
  - intros other Hne Ho m Hm. rewrite Hother by exact Hne. now apply Ho.
Qed.

End Objects.

Section Stores.

Import DeviceObject.

Lemma lookup_In {A : Type} (l : list A) (i : nat) (x : A) : l !! i = Some x -> In x l.
Proof.
  revert i. induction l as [|a l IH]; intros [|i] H; cbn in H; try discriminate.
  - inversion H. now left.
  - right. exact (IH i H).
Qed.

Lemma NoDup_map_lookup {A B : Type} (f : A -> B) (l : list A) (i j : nat) (x y : A) :
  List.NoDup (List.map f l) -> l !! i = Some x -> l !! j = Some y -> f x = f y -> i = j.
Proof.
  revert i j. induction l as [|a l IH]; intros i j Hn Hi Hj Hf; [destruct i; discriminate|].
  cbn [List.map] in Hn. inversion Hn as [|? ? Hnot Hn']; subst.
  destruct i as [|i], j as [|j]; cbn in Hi, Hj.
  - reflexivity.
  - inversion Hi; subst. exfalso. apply Hnot. rewrite Hf.
    apply List.in_map. exact (lookup_In l j y Hj).
  - inversion Hj; subst. exfalso. apply Hnot. rewrite <- Hf.
    apply List.in_map. exact (lookup_In l i x Hi).
  - f_equal. exact (IH i j Hn' Hi Hj Hf).
Qed.

Lemma map_insert_same {A B : Type} (f : A -> B) (l : list A) (i : nat) (x y : A) :
  l !! i = Some x -> f y = f x -> List.map f (<[i := y]> l) = List.map f l.
Proof.
  revert i. induction l as [|a l IH]; intros [|i] Hi Hf; cbn in *; try discriminate.
  - inversion Hi; subst. now rewrite Hf.
  - f_equal. now apply IH.
Qed.

(** The objects of a store stay free of stale metadata through a call, as
    long as no two of them stand for the same device. *)
Lemma store_step (objects : list t) (o : nat) (self self' : t) (w w' : World) :
  Forall (fun x => up_to_date x w) objects ->
  List.NoDup (List.map (fun x => pk (fields x)) objects) ->
  objects !! o = Some self ->
  fields self' = fields self -> up_to_date self' w' ->
  (forall other, pk (fields other) <> pk (fields self) -> up_to_date other w ->
                 up_to_date other w') ->
  Forall (fun x => up_to_date x w') (<[o := self']> objects)
  /\ List.NoDup (List.map (fun x => pk (fields x)) (<[o := self']> objects)).
Proof.
  intros Hall Hnd Ho Hf Hup Hother. split.
  - apply Forall_lookup. intros j x Hj.
    destruct (decide (o = j)) as [<-|Hne].
    + rewrite list_lookup_insert_eq in Hj by (eapply lookup_lt_Some; eauto).
      inversion Hj; subst. exact Hup.
    + rewrite list_lookup_insert_ne in Hj by exact Hne.
      apply Hother; [|exact (proj1 (Forall_lookup _ _) Hall j x Hj)].
      intros Hpk. apply Hne. symmetry.
      exact (NoDup_map_lookup (fun x => pk (fields x)) objects j o x self Hnd Hj Ho Hpk).
  - rewrite (map_insert_same (fun x => pk (fields x)) objects o self self' Ho); [exact Hnd|].
    now rewrite Hf.
Qed.

Lemma run_call_spec (objects : list t) (w : World) (c : counter_call) :
  metadata_wf w ->
  Forall (fun x => up_to_date x w) objects ->
  List.NoDup (List.map (fun x => pk (fields x)) objects) ->
  metadata_wf (snd (run_call (objects, w) c))
  /\ Forall (fun x => up_to_date x (snd (run_call (objects, w) c)))
       (fst (run_call (objects, w) c))
  /\ List.NoDup (List.map (fun x => pk (fields x)) (fst (run_call (objects, w) c)))
  /\ forall d, position d w <= position d (snd (run_call (objects, w) c)).
Proof.
  intros Hwf Hall Hnd.
  destruct c as [o n|o]; cbn [run_call];
    (destruct (objects !! o) as [self|] eqn:Ho;
     [|cbn [fst snd]; repeat split; auto; intros; lia]);
    pose proof (proj1 (Forall_lookup _ _) Hall o self Ho) as Hup.
  - destruct (object_set_counter_position_spec self n w Hwf Hup)
      as (self' & -> & Hf & Hup' & Hother).
    cbn [fst snd].
    destruct (run_op_spec (SetCounterPosition (fields self) n) w Hwf) as [Hwf' Hle].
    cbn [run_op] in Hwf', Hle.
    destruct (store_step objects o self self' w _ Hall Hnd Ho Hf Hup' Hother) as [H1 H2].
    auto.
  - destruct (object_increment_spec self w Hwf Hup) as (self' & -> & Hf & Hup' & Hother).
    cbn [fst snd].
    destruct (run_op_spec (IncrementAndGetCounter (fields self)) w Hwf) as [Hwf' Hle].
    cbn [run_op] in Hwf', Hle.
    destruct (store_step objects o self self' w _ Hall Hnd Ho Hf Hup' Hother) as [H1 H2].
    auto.
Qed.

Lemma run_calls_spec (calls : list counter_call) (objects : list t) (w : World) :
  metadata_wf w ->
  Forall (fun x => up_to_date x w) objects ->
  List.NoDup (List.map (fun x => pk (fields x)) objects) ->
  forall d, position d w <= position d (snd (run_calls calls (objects, w))).
Proof.
  revert objects w. induction calls as [|c calls IH]; intros objects w Hwf Hall Hnd d.
  - cbn. lia.
  - cbn [run_calls List.fold_left].
    destruct (run_call_spec objects w c Hwf Hall Hnd) as (Hwf' & Hall' & Hnd' & Hle).
    destruct (run_call (objects, w) c) as [objects' w'] eqn:Hrun. cbn [fst snd] in *.
    specialize (IH objects' w' Hwf' Hall' Hnd' d). specialize (Hle d).
    unfold run_calls in IH. lia.
Qed.

Lemma object_increments_spec (n : nat) (self : t) (w : World) :
  metadata_wf w -> up_to_date self w -> truthy (id (fields self)) = true ->
  snd (object_increments n self w)
  = List.map (fun i => position (fields self) w + Z.of_nat i) (List.seq 1 n)
  /\ position (fields self) (snd (fst (object_increments n self w)))
     = position (fields self) w + Z.of_nat n.
Proof.
  revert self w. induction n as [|n IH]; intros self w Hwf Hup Ht.
  - cbn. split; [reflexivity | lia].
  - cbn [object_increments].
    destruct (object_increment_spec self w Hwf Hup) as (self' & -> & Hf & Hup' & _).
    rewrite Ht.
    destruct (proj2 (increment_and_get_counter_spec (fields self) w Hwf) Ht)
      as (w' & Heq & Hwf' & Hpos).
    rewrite Heq in *. cbn [fst] in *.
    assert (truthy (id (fields self')) = true) as Ht' by now rewrite Hf.
    destruct (IH self' w' Hwf' Hup' Ht') as [Hs Hp]. rewrite Hf in Hs, Hp.
    destruct (object_increments n self' w') as [[self'' w''] cs]. cbn [fst snd] in *.
    split; [|lia].
    cbn [List.seq List.map]. f_equal; try lia.
    rewrite Hs, <- (seq_shift n 1), List.map_map. apply List.map_ext. intros i. lia.
Qed.

End Stores.

(** C6, as the code has it: a device without an id has no recorded position
    to advance; and a device object writes from the metadata object it
    holds, so after a second object of the same device has moved the
    position to 5, a call with 3 on the first object, which still holds
    position 1, stores 3. *)
Lemma set_counter_position_not_max :
  position Device_blank (fst (Device_set_counter_position Device_blank 5 empty_world))
  <> Z.max (position Device_blank empty_world) 5
  /\ exists a1 w1 b1 w2 a2 w3,
       DeviceObject.set_counter_position (DeviceObject.loaded example_device) 1 example_world
       = (w1, Return a1)
       /\ DeviceObject.set_counter_position (DeviceObject.loaded example_device) 5 w1
          = (w2, Return b1)
       /\ DeviceObject.set_counter_position a1 3 w2 = (w3, Return a2)
       /\ position example_device w2 = 5
       /\ position example_device w3 = 3
       /\ position example_device w3 <> Z.max (position example_device w2) 3.
Proof.
  split; [vm_compute; discriminate|].
  eexists _, _, _, _, _, _.
  split; [vm_compute; reflexivity|]. split; [vm_compute; reflexivity|].
  split; [vm_compute; reflexivity|]. split; [vm_compute; reflexivity|].
  split; [vm_compute; reflexivity|]. vm_compute. discriminate.
Qed.

(** C6 (amended): for a device object that has an id and holds no stale
    metadata (one just loaded, or one whose device nobody else has written
    since it read its metadata), [set_counter_position(n)] leaves the
    recorded counter position at the maximum of the previous value and [n],
    and the object still holds no stale metadata; for an object without an
    id it changes nothing; and no device's recorded position ever goes down
    over a sequence of [set_counter_position] and
    [increment_and_get_counter] calls made on objects that stay in memory
    when no two of them stand for the same device, nor over a sequence of
    calls each made on a freshly loaded object.  A call on [loaded d] is the
    call [Device_set_counter_position d]. *)
Theorem set_counter_position_max (w : World) :
  metadata_wf w ->
  (forall self n,
     up_to_date self w -> truthy (id (DeviceObject.fields self)) = true ->
     exists self' w',
       DeviceObject.set_counter_position self n w = (w', Return self')
       /\ position (DeviceObject.fields self) w'
          = Z.max (position (DeviceObject.fields self) w) n
       /\ DeviceObject.fields self' = DeviceObject.fields self
       /\ up_to_date self' w' /\ metadata_wf w')
  /\ (forall self n,
        truthy (id (DeviceObject.fields self)) = false ->
        fst (DeviceObject.set_counter_position self n w) = w)
  /\ (forall objects calls d,
        Forall (fun x => up_to_date x w) objects ->
        List.NoDup (List.map (fun x => pk (DeviceObject.fields x)) objects) ->
        position d w <= position d (snd (run_calls calls (objects, w))))
  /\ (forall ops d, position d w <= position d (run_ops ops w))
  /\ (forall d n,
        fst (DeviceObject.set_counter_position (DeviceObject.loaded d) n w)
        = fst (Device_set_counter_position d n w)).
Proof.
  intros Hwf. split; [|split; [|split; [|split]]].
  - intros self n Hup Ht.
    destruct (object_set_counter_position_spec self n w Hwf Hup) as (self' & Heq & Hf & Hup' & _).
    destruct (set_counter_position_spec (DeviceObject.fields self) n w Hwf) as (Hwf' & Hmax & _).
    exists self', (fst (Device_set_counter_position (DeviceObject.fields self) n w)).
    split; [exact Heq|]. split; [exact (Hmax Ht)|]. auto.
  - intros self n Ht.
    unfold DeviceObject.set_counter_position, bind, read, ret.
    assert (DeviceObject.fields (fst (DeviceObject.get_metadata self w))
            = DeviceObject.fields self) as Hf.
    { unfold DeviceObject.get_metadata. destruct (DeviceObject.devicemetadata self);
        [reflexivity|]. now destruct (List.find _ _). }
    cbn [fst snd]. now rewrite Hf, Ht.
  - intros objects calls d Hall Hnd. now apply run_calls_spec.
  - intros ops d. now apply run_ops_spec.
  - intros d n.
    destruct (object_set_counter_position_spec (DeviceObject.loaded d) n w Hwf
                (loaded_up_to_date d w)) as (self' & -> & _).
    reflexivity.
Qed.

Lemma set_counter_position_max_witness :
  exists self' w',
    DeviceObject.set_counter_position (DeviceObject.loaded example_device) 7 example_world
    = (w', Return self')
    /\ position example_device w' = Z.max (position example_device example_world) 7
    /\ DeviceObject.fields self' = example_device
    /\ up_to_date self' w' /\ metadata_wf w'.
Proof.
  exact (proj1 (set_counter_position_max example_world example_world_wf)
           (DeviceObject.loaded example_device) 7
           (loaded_up_to_date example_device example_world) eq_refl).
Defined.

(** C7, as the code has it: a device object increments the metadata object
    it holds.  With two objects of the own device, a call on the first, a
    call on the second and another call on the first return 1, 2 and 2, and
    the last call leaves the stored position at 2. *)
Lemma stale_object_repeats_counter :
  exists a1 w1 b1 w2 a2 w3,
    DeviceObject.increment_and_get_counter (DeviceObject.loaded example_device) example_world
    = (w1, Return (a1, 1))
    /\ DeviceObject.increment_and_get_counter (DeviceObject.loaded example_device) w1
       = (w2, Return (b1, 2))
    /\ DeviceObject.increment_and_get_counter a1 w2 = (w3, Return (a2, 2))
    /\ position example_device w2 = 2
    /\ position example_device w3 = 2.
Proof.
  eexists _, _, _, _, _, _.
  split; [vm_compute; reflexivity|]. split; [vm_compute; reflexivity|].
  split; [vm_compute; reflexivity|]. split; vm_compute; reflexivity.
Qed.

(** C7 (amended): [increment_and_get_counter] returns 0 and changes nothing
    for a device object that has no id yet (the own device before it is
    first saved).  For an object with an id that holds no stale metadata
    (one just loaded, or one whose device nobody else has written since it
    read its metadata) a call stores the position raised by exactly one and
    returns it, and leaves the object, and the objects of other devices,
    without stale metadata; so [N] successive calls on one such object, or
    [N] calls each on a freshly loaded object, starting from [k], return
    [k+1, k+2, ..., k+N].  A call on [loaded d] is the call
    [Device_increment_and_get_counter d]. *)
Theorem increment_and_get_counter_steps (w : World) :
  metadata_wf w ->
  (forall self,
     truthy (id (DeviceObject.fields self)) = false ->
     exists self',
       DeviceObject.increment_and_get_counter self w = (w, Return (self', 0))
       /\ DeviceObject.fields self' = DeviceObject.fields self)
  /\ (forall self,
        up_to_date self w -> truthy (id (DeviceObject.fields self)) = true ->
        exists self' w',
          DeviceObject.increment_and_get_counter self w
          = (w', Return (self', position (DeviceObject.fields self) w + 1))
          /\ position (DeviceObject.fields self) w' = position (DeviceObject.fields self) w + 1
          /\ DeviceObject.fields self' = DeviceObject.fields self
          /\ up_to_date self' w' /\ metadata_wf w'
          /\ forall other,
               pk (DeviceObject.fields other) <> pk (DeviceObject.fields self) ->
               up_to_date other w -> up_to_date other w')
  /\ (forall self N,
        up_to_date self w -> truthy (id (DeviceObject.fields self)) = true ->
        snd (object_increments N self w)
        = List.map (fun i => position (DeviceObject.fields self) w + Z.of_nat i) (List.seq 1 N)
        /\ position (DeviceObject.fields self) (snd (fst (object_increments N self w)))
           = position (DeviceObject.fields self) w + Z.of_nat N)
  /\ (forall d N,
        truthy (id d) = true ->
        snd (increments N d w) = List.map (fun i => position d w + Z.of_nat i) (List.seq 1 N)
        /\ position d (fst (increments N d w)) = position d w + Z.of_nat N)
  /\ (forall d w' c,
        Device_increment_and_get_counter d w = (w', Return c) ->
        exists self',
          DeviceObject.increment_and_get_counter (DeviceObject.loaded d) w
          = (w', Return (self', c))).
Proof.
  intros Hwf. split; [|split; [|split; [|split]]].
  - intros self Ht.
    unfold DeviceObject.increment_and_get_counter, bind, read, ret.
    assert (DeviceObject.fields (fst (DeviceObject.get_metadata self w))
            = DeviceObject.fields self) as Hf.
    { unfold DeviceObject.get_metadata. destruct (DeviceObject.devicemetadata self);
        [reflexivity|]. now destruct (List.find _ _). }
    cbn [fst snd]. rewrite Hf, Ht. cbn [negb]. eexists. split; [reflexivity | exact Hf].
  - intros self Hup Ht.
    destruct (object_increment_spec self w Hwf Hup) as (self' & Heq & Hf & Hup' & Hother).
    rewrite Ht in Heq.
    destruct (proj2 (increment_and_get_counter_spec (DeviceObject.fields self) w Hwf) Ht)
      as (w' & Hd & Hwf' & Hpos).
    rewrite Hd in *. cbn [fst] in *.
    exists self', w'. auto 10.
  - intros self N Hup Ht. now apply object_increments_spec.
  - intros d N Ht. destruct (increments_spec N d w Hwf Ht) as (Hs & Hp & _). now split.
  - intros d w' c Hd.
    destruct (object_increment_spec (DeviceObject.loaded d) w Hwf (loaded_up_to_date d w))
      as (self' & Heq & _).
    exists self'. cbn [DeviceObject.fields DeviceObject.loaded] in Heq.
    rewrite Heq, Hd. cbn [fst].
    destruct (increment_and_get_counter_spec d w Hwf) as [Hf Ht].
    destruct (truthy (id d)) eqn:Hid.
    + destruct (Ht eq_refl) as (w'' & Hd' & _). congruence.
    + rewrite (Hf eq_refl) in Hd. congruence.
Qed.

Lemma increment_and_get_counter_steps_witness :
  snd (object_increments 3 (DeviceObject.loaded example_device) example_world) = [1; 2; 3]
  /\ position example_device
       (snd (fst (object_increments 3 (DeviceObject.loaded example_device) example_world)))
     = 3.
Proof.
  exact (proj1 (proj2 (proj2 (increment_and_get_counter_steps example_world
                                example_world_wf)))
           (DeviceObject.loaded example_device) 3%nat
           (loaded_up_to_date example_device example_world) eq_refl).
Defined.

(** ** Verification of signatures *)

Lemma read_only_ret {A : Type} (a : A) : read_only (ret a).
Proof. intros w. reflexivity. Qed.

Lemma read_only_raise {A : Type} (e : exn) : read_only (@raise A e).
Proof. intros w. reflexivity. Qed.

Lemma read_only_read {A : Type} (f : World -> A) : read_only (read f).
Proof. intros w. reflexivity. Qed.

Lemma read_only_lift_read {A : Type} (f : World -> outcome A) : read_only (lift_read f).
Proof. intros w. reflexivity. Qed.

Lemma read_only_bind {A B : Type} (m : M A) (k : A -> M B) :
  read_only m -> (forall a, read_only (k a)) -> read_only (bind m k).
Proof.
  intros Hm Hk w. unfold bind. specialize (Hm w).
  destruct (m w) as [w' [a|e]]; cbn [fst] in Hm; subst w'; [apply Hk | reflexivity].
Qed.

Lemma read_only_try {A : Type} (m h : M A) :
  read_only m -> read_only h -> read_only (try_except m h).
Proof.
  intros Hm Hh w. unfold try_except. specialize (Hm w).
  destruct (m w) as [w' [a|e]]; cbn [fst] in Hm; subst w'; [reflexivity | apply Hh].
Qed.

Lemma read_only_objects_get (c : ModelClass) (k : string) : read_only (objects_get c k).
Proof. intros w. unfold objects_get. now destruct (find_row c k w). Qed.

Create HintDb read_only.

#[local] Hint Resolve read_only_ret read_only_raise read_only_read read_only_lift_read
  read_only_objects_get : read_only.

Ltac read_only_step :=
  first
    [ solve [auto with read_only]
    | apply read_only_bind; [|intros ?]
    | apply read_only_try
    | match goal with
      | |- read_only (if ?b then _ else _) => destruct b
      | |- read_only (match ?x with _ => _ end) => destruct x
      end ].

Section VerifyFacts.

Context (env : Env).

Lemma read_only_check_signature (self : Instance) (key : Key env) :
  read_only (check_signature env self key).
Proof. unfold check_signature. repeat read_only_step. Qed.

Lemma read_only_get_public_key (d : Instance) : read_only (Device_get_public_key env d).
Proof. unfold Device_get_public_key. repeat read_only_step. Qed.

Lemma read_only_verify (self : Instance) : read_only (verify env self).
Proof.
  pose proof read_only_check_signature. pose proof read_only_get_public_key.
  unfold verify, SyncedModel_verify, Device_verify.
  repeat read_only_step.
Qed.

Lemma read_only_get_zone (d : Instance) : read_only (Device_get_zone d).
Proof. unfold Device_get_zone. repeat read_only_step. Qed.

Lemma read_only_in_zone (d : Instance) (zone : option string) :
  read_only (Device_in_zone d zone).
Proof. pose proof read_only_get_zone. unfold Device_in_zone. repeat read_only_step. Qed.

End VerifyFacts.

Lemma SyncedModel_verify_cases (env : Env) (self : Instance) (w : World) :
  SyncedModel_verify env self w
  = (w,
     if negb (signed_by_present self) then Return false
     else
       match find_row Device (default "" (signed_by_id self)) w with
       | None => Raise (DoesNotExist Device)
       | Some signer =>
           if requires_trusted_signature (cls self)
              && negb (is_trusted (Device_get_metadata signer w))
           then Return false
           else
             match deserialize_public_key env (public_key signer) with
             | None => Raise CryptoError
             | Some key =>
                 match _hashable_representation self w with
                 | Raise _ => Return false
                 | Return text =>
                     match decode_base64 env (signature self) with
                     | None => Return false
                     | Some sig =>
                         match crypto_verify env text sig key with
                         | Some b => Return b
                         | None => Return false
                         end
                     end
                 end
             end
       end).
Proof.
  unfold SyncedModel_verify.
  destruct (signed_by_present self); cbn [negb]; [|reflexivity].
  unfold bind, objects_get, read, ret, Device_get_public_key, try_except,
    check_signature, bind, lift_read, raise, ret.
  destruct (requires_trusted_signature (cls self)); cbn [andb negb]; cbn beta iota;
    (destruct (find_row Device (default "" (signed_by_id self)) w) as [signer|] eqn:Hs;
     [|cbn beta iota; rewrite ?Hs; reflexivity]);
    cbn beta iota;
    [destruct (is_trusted (Device_get_metadata signer w)); cbn [negb]; [|reflexivity]|];
    (cbn beta iota; rewrite ?Hs;
     destruct (deserialize_public_key env (public_key signer)) as [key|]; [|reflexivity];
     destruct (_hashable_representation self w) as [text|]; [|reflexivity];
     destruct (decode_base64 env (signature self)) as [sig|]; [|reflexivity];
     now destruct (crypto_verify env text sig key)).
Qed.



(** ** Saving records *)

Lemma read_only_preserves_wf {A : Type} (m : M A) : read_only m -> preserves_wf m.
Proof. intros H w Hwf. now rewrite H. Qed.

Lemma preserves_wf_bind {A B : Type} (m : M A) (k : A -> M B) :
  preserves_wf m -> (forall a, preserves_wf (k a)) -> preserves_wf (bind m k).
Proof.
  intros Hm Hk w Hwf. unfold bind. specialize (Hm w Hwf).
  destruct (m w) as [w' [a|e]]; cbn [fst] in *; [now apply Hk | exact Hm].
Qed.

Lemma preserves_wf_same_metadata {A : Type} (m : M A) :
  (forall w, device_metadata (fst (m w)) = device_metadata w) -> preserves_wf m.
Proof. intros H w Hwf i x Hi. rewrite H in Hi. now apply Hwf. Qed.

Lemma table_set_table (c c' : ModelClass) (t : list Instance) (w : World) :
  table c (set_table c' t w) = if ModelClass_eqb c' c then t else table c w.
Proof. destruct c, c'; reflexivity. Qed.

Lemma preserves_wf_Model_save (r : Instance) : preserves_wf (Model_save r).
Proof. apply preserves_wf_same_metadata. reflexivity. Qed.

Lemma preserves_wf_DeviceMetadata_save (m : DeviceMetadata) :
  preserves_wf (DeviceMetadata_save m).
Proof.
  intros w Hwf. unfold DeviceMetadata_save, write. cbn [fst].
  destruct (dm_pk m) as [i|] eqn:Hpk; unfold metadata_wf;
    cbn [set_device_metadata device_metadata]; intros j x Hj.
  - destruct (decide (i = j)) as [<-|Hne].
    + destruct (decide (i < List.length (device_metadata w))%nat) as [Hlt|Hge].
      * rewrite list_lookup_insert_eq in Hj by exact Hlt. now inversion Hj; subst.
      * rewrite list_insert_ge in Hj by lia. now apply Hwf.
    + rewrite list_lookup_insert_ne in Hj by exact Hne. now apply Hwf.
  - destruct (decide (j < List.length (device_metadata w))%nat) as [Hlt|Hge].
    + rewrite lookup_app_l in Hj by exact Hlt. now apply Hwf.
    + rewrite lookup_app_r in Hj by lia.
      destruct (j - List.length (device_metadata w))%nat as [|k] eqn:Hk; simpl in Hj;
        [|discriminate].
      inversion Hj; subst. cbn. f_equal. lia.
Qed.

Create HintDb wf.

#[local] Hint Resolve preserves_wf_Model_save preserves_wf_DeviceMetadata_save : wf.
#[local] Hint Extern 1 (preserves_wf _) =>
  apply read_only_preserves_wf; solve [auto with read_only] : wf.

Ltac wf_step :=
  first
    [ solve [auto with wf]
    | apply preserves_wf_bind; [|intros ?]
    | match goal with
      | |- preserves_wf (if ?b then _ else _) => destruct b
      | |- preserves_wf (match ?x with _ => _ end) => destruct x
      end ].

Lemma preserves_wf_set_counter_position (d : Instance) (n : Z) :
  preserves_wf (Device_set_counter_position d n).
Proof. unfold Device_set_counter_position. repeat wf_step. Qed.

Lemma preserves_wf_increment (d : Instance) :
  preserves_wf (Device_increment_and_get_counter d).
Proof. unfold Device_increment_and_get_counter. repeat wf_step. Qed.

Lemma preserves_wf_get_counter (d : Instance) : preserves_wf (Device_get_counter d).
Proof. unfold Device_get_counter. repeat wf_step. Qed.

#[local] Hint Resolve preserves_wf_set_counter_position preserves_wf_increment
  preserves_wf_get_counter : wf.

Section SaveFacts.

Context (env : Env).

Lemma preserves_wf_sign_text (text : string) : preserves_wf (sign_text env text).
Proof. unfold sign_text. repeat wf_step. Qed.

Lemma preserves_wf_Device_get_uuid (self : Instance) : preserves_wf (Device_get_uuid env self).
Proof.
  unfold Device_get_uuid. destruct (String.eqb (public_key self) ""); [|repeat wf_step].
  apply preserves_wf_same_metadata. reflexivity.
Qed.

Lemma preserves_wf_verify (self : Instance) : preserves_wf (verify env self).
Proof. apply read_only_preserves_wf, read_only_verify. Qed.

#[local] Hint Resolve preserves_wf_sign_text preserves_wf_Device_get_uuid
  preserves_wf_verify : wf.

Section WithOwn.

Variable own : M (option Instance).
Hypothesis own_wf : preserves_wf own.

Lemma preserves_wf_or_own (d : option device_ref) : preserves_wf (or_get_own_device own d).
Proof. unfold or_get_own_device. repeat wf_step. Qed.

#[local] Hint Resolve preserves_wf_or_own : wf.

Lemma preserves_wf_sign (self : Instance) (d : option device_ref) :
  preserves_wf (SyncedModel_sign_with env own self d).
Proof. unfold SyncedModel_sign_with. repeat wf_step. Qed.

Lemma preserves_wf_get_uuid (self : Instance) : preserves_wf (get_uuid_with env own self).
Proof. unfold get_uuid_with, SyncedModel_get_uuid_with. repeat wf_step. Qed.

#[local] Hint Resolve preserves_wf_sign preserves_wf_get_uuid : wf.

Lemma preserves_wf_SyncedModel_save (self : Instance) (d : option device_ref) (imported : bool) :
  preserves_wf (SyncedModel_save_with env own self d imported).
Proof. unfold SyncedModel_save_with. repeat wf_step. Qed.

#[local] Hint Resolve preserves_wf_SyncedModel_save : wf.

Lemma preserves_wf_Device_save (self : Instance) (t : bool) (d : option device_ref)
    (imported : bool) :
  preserves_wf (Device_save_with env own self t d imported).
Proof. unfold Device_save_with. repeat wf_step. Qed.

End WithOwn.

Lemma preserves_wf_initialize_own_device (init : Instance) :
  preserves_wf (initialize_own_device env init).
Proof.
  assert (preserves_wf (@raise (option Instance) RuntimeError)) as Hr
    by (apply read_only_preserves_wf, read_only_raise).
  pose proof (preserves_wf_sign _ Hr). pose proof (preserves_wf_Device_save _ Hr).
  unfold initialize_own_device. cbv zeta. repeat wf_step.
Qed.

Lemma preserves_wf_get_own_device : preserves_wf (get_own_device env).
Proof.
  pose proof preserves_wf_initialize_own_device.
  unfold get_own_device. repeat wf_step.
Qed.

Lemma preserves_wf_save (self : Instance) (d : option device_ref) (imported : bool) :
  preserves_wf (save env self d imported).
Proof.
  pose proof (preserves_wf_SyncedModel_save _ preserves_wf_get_own_device).
  pose proof (preserves_wf_Device_save _ preserves_wf_get_own_device).
  unfold save, save_with. repeat wf_step.
Qed.

End SaveFacts.

Lemma find_upsert (k : string) (r : Instance) (rows : list Instance) :
  List.find (fun x => String.eqb (pk x) k) (upsert r rows)
  = if String.eqb (pk r) k then Some r
    else List.find (fun x => String.eqb (pk x) k) rows.
Proof.
  induction rows as [|x rows IH]; cbn [upsert List.find].
  - reflexivity.
  - destruct (String.eqb_spec (pk x) (pk r)) as [Hxr|Hxr]; cbn [List.find].
    + rewrite Hxr. now destruct (String.eqb (pk r) k).
    + rewrite IH. destruct (String.eqb_spec (pk x) k) as [Hx|Hx];
        destruct (String.eqb_spec (pk r) k) as [Hr|Hr]; congruence.
Qed.

Lemma find_row_Model_save (c : ModelClass) (k : string) (r : Instance) (w : World) :
  find_row c k (fst (Model_save r w))
  = if ModelClass_eqb (cls r) c && String.eqb (pk r) k then Some (stored r)
    else find_row c k w.
Proof.
  unfold find_row, Model_save, write. cbn [fst]. rewrite table_set_table.
  change (cls (stored r)) with (cls r).
  destruct (ModelClass_eqb (cls r) c) eqn:Hc; cbn [andb]; [|reflexivity].
  rewrite find_upsert. change (pk (stored r)) with (pk r).
  destruct (String.eqb (pk r) k); [reflexivity|].
  destruct (cls r), c; try discriminate; reflexivity.
Qed.

Lemma find_row_pk (c : ModelClass) (k : string) (w : World) (r : Instance) :
  find_row c k w = Some r -> pk r = k.
Proof.
  unfold find_row. intros H. apply find_some in H. destruct H as [_ H].
  now apply String.eqb_eq.
Qed.

Lemma metadata_Model_save (r : Instance) (w : World) :
  device_metadata (fst (Model_save r w)) = device_metadata w.
Proof. reflexivity. Qed.

Lemma position_Model_save (d r : Instance) (w : World) :
  position d (fst (Model_save r w)) = position d w.
Proof. reflexivity. Qed.

Section ImportedSave.

Context (env : Env).

Lemma save_is_SyncedModel_save (self : Instance) (d : option device_ref) (imported : bool)
    (w : World) :
  save env self d imported w = SyncedModel_save env self d imported w.
Proof.
  unfold save, save_with, SyncedModel_save, Device_save_with, bind, ret.
  destruct (cls self); try reflexivity.
  now destruct (SyncedModel_save_with env (get_own_device env) self d imported w)
    as [w' [r|e]].
Qed.

Lemma get_own_device_registered (w : World) (own : Instance) :
  own_device_registered w own -> get_own_device env w = (w, Return (Some own)).
Proof.
  intros (m & rest & Hf & Hid & Hrow).
  unfold get_own_device, bind, read, objects_get, ret. rewrite Hf, Hid, Hrow. reflexivity.
Qed.

Lemma or_get_own_device_same (own_device : option device_ref) (w w1 : World) (o : outcome (option device_ref)) :
  or_get_own_device (get_own_device env) own_device w = (w1, o) ->
  own_device <> None \/ (exists d, own_device_registered w d) -> w1 = w.
Proof.
  intros H [Hne|[d Hd]]; destruct own_device as [x|]; try congruence.
  - now inversion H.
  - now inversion H.
  - unfold or_get_own_device, bind in H. rewrite (get_own_device_registered w d Hd) in H.
    now inversion H.
Qed.

(** The signer of a record whose signature verifies is a stored device,
    also once the record itself has been written. *)
Lemma signer_stored (self : Instance) (w : World) :
  signed_by_present self = true ->
  snd (verify env self w) = Return true ->
  exists signer,
    find_row Device (default "" (signed_by_id self)) (fst (Model_save self w)) = Some signer.
Proof.
  intros Hp Hv. rewrite find_row_Model_save.
  destruct (ModelClass_eqb (cls self) Device && String.eqb (pk self) (default "" (signed_by_id self)))
    eqn:Hself; [now eexists|].
  unfold verify in Hv. destruct (cls self) eqn:Hcls;
    try (rewrite SyncedModel_verify_cases, Hp in Hv; cbn [snd negb] in Hv;
         destruct (find_row Device (default "" (signed_by_id self)) w) as [s|];
         [now eexists | discriminate]).
  exfalso. cbn [ModelClass_eqb andb] in Hself.
  unfold Device_verify, signed_by_self in Hv. unfold signed_by_present in Hp.
  destruct (signed_by_id self) as [k|]; [|discriminate].
  change (default "" (Some k)) with k in Hself.
  rewrite String.eqb_sym, Hself in Hv. discriminate.
Qed.

Lemma imported_save_unfold (self : Instance) (own_device : option device_ref)
    (w w1 : World) (own : device_ref) :
  or_get_own_device (get_own_device env) own_device w = (w1, Return (Some own)) ->
  save env self own_device true w
  = if negb (signed_by_present self)
    then (w1, Raise (ValidationError "Imported models must be signed."))
    else
      match snd (verify env self w1) with
      | Raise e => (w1, Raise e)
      | Return false =>
          (w1, Raise (ValidationError "Imported model's signature did not match."))
      | Return true =>
          let w2 := fst (Model_save self w1) in
          match find_row Device (default "" (signed_by_id self)) w2 with
          | None => (w2, Raise (DoesNotExist Device))
          | Some signer =>
              (fst (Device_set_counter_position signer (counter self) w2), Return self)
          end
      end.
Proof.
  intros Hown. rewrite save_is_SyncedModel_save.
  unfold SyncedModel_save, SyncedModel_save_with, bind. rewrite Hown.
  destruct (signed_by_present self); cbn [negb]; [|reflexivity].
  pose proof (read_only_verify env self w1) as Hro.
  destruct (verify env self w1) as [w1' [[|]|e]]; cbn [fst snd] in *; subst w1';
    cbn [negb]; try reflexivity.
  unfold Model_save at 1. unfold write. cbn zeta.
  unfold objects_get.
  change (set_table (cls self) (upsert (stored self) (table (cls self) w1)) w1)
    with (fst (Model_save self w1)).
  destruct (find_row Device (default "" (signed_by_id self)) (fst (Model_save self w1)))
    as [signer|]; [|reflexivity].
  unfold Device_set_counter_position, bind, read, ret.
  destruct (truthy (id signer)); cbn [negb fst]; [|reflexivity].
  destruct (counter_position _ <? counter self); [|reflexivity].
  now rewrite metadata_save_returns.
Qed.

End ImportedSave.

(** C4: a record saved in imported mode without [signed_by], or for which
    [verify()] returns false, makes [save] raise a validation error and
    leaves the database as the lookup of the own device left it (that is,
    untouched when the own device is registered or passed in): the record is
    not written.  A record with [signed_by] whose signature verifies is
    written, [save] returns, and the database is then the one
    [set_counter_position] yields on the signer with the record's counter,
    so the signer's recorded position is the maximum of its old value and
    that counter.  No other record is saved. *)
Theorem imported_save (env : Env) (self : Instance) (own_device : option device_ref)
    (w w1 : World) (own : device_ref) :
  metadata_wf w ->
  or_get_own_device (get_own_device env) own_device w = (w1, Return (Some own)) ->
  (signed_by_present self = false ->
   save env self own_device true w
   = (w1, Raise (ValidationError "Imported models must be signed.")))
  /\ (signed_by_present self = true -> snd (verify env self w1) = Return false ->
      save env self own_device true w
      = (w1, Raise (ValidationError "Imported model's signature did not match.")))
  /\ (signed_by_present self = true -> snd (verify env self w1) = Return true ->
      exists signer,
        find_row Device (default "" (signed_by_id self)) (fst (Model_save self w1))
        = Some signer
        /\ save env self own_device true w
           = (fst (Device_set_counter_position signer (counter self)
                     (fst (Model_save self w1))),
              Return self)
        /\ (truthy (id signer) = true ->
            position signer (fst (save env self own_device true w))
            = Z.max (position signer w1) (counter self)))
  /\ (forall w2 r, save env self own_device true w = (w2, Return r) ->
      signed_by_present self = true /\ snd (verify env self w1) = Return true)
  /\ (own_device <> None \/ (exists d, own_device_registered w d) -> w1 = w).
Proof.
  intros Hwf Hown. pose proof (imported_save_unfold env self own_device w w1 own Hown) as Hs.
  assert (metadata_wf w1) as Hwf1.
  { pose proof (preserves_wf_or_own _ (preserves_wf_get_own_device env) own_device w Hwf) as H.
    now rewrite Hown in H. }
  repeat split.
  - intros Hp. now rewrite Hs, Hp.
  - intros Hp Hv. now rewrite Hs, Hp, Hv.
  - intros Hp Hv. destruct (signer_stored env self w1 Hp Hv) as [signer Hsigner].
    exists signer. split; [exact Hsigner|].
    rewrite Hs, Hp, Hv. cbn [negb]. cbv zeta. rewrite Hsigner.
    split; [reflexivity|]. intros Ht. cbn [fst].
    assert (metadata_wf (fst (Model_save self w1))) as Hwf2
      by now apply preserves_wf_Model_save.
    rewrite (proj1 (proj2 (set_counter_position_spec signer (counter self) _ Hwf2)) Ht).
    now rewrite position_Model_save.
  - rewrite Hs in H. destruct (signed_by_present self); [reflexivity | discriminate].
  - rewrite Hs in H. destruct (signed_by_present self); cbn [negb] in H; [|discriminate].
    destruct (snd (verify env self w1)) as [[|]|e]; [reflexivity | discriminate | discriminate].
  - intros H. eapply or_get_own_device_same; eauto.
Qed.

Lemma example_saved_wf : metadata_wf (fst example_saved).
Proof.
  intros i m H. destruct i as [|i]; cbn in H; [now inversion H|].
  destruct i; discriminate.
Qed.

Lemma imported_save_witness :
  exists signer,
    find_row Device example_device_id (fst (Model_save (snd example_saved) (fst example_saved)))
    = Some signer
    /\ save example_env (snd example_saved) None true (fst example_saved)
       = (fst (Device_set_counter_position signer 1
                 (fst (Model_save (snd example_saved) (fst example_saved)))),
          Return (snd example_saved))
    /\ (truthy (id signer) = true ->
        position signer (fst (save example_env (snd example_saved) None true (fst example_saved)))
        = Z.max (position signer (fst example_saved)) 1).
Proof.
  destruct (imported_save example_env (snd example_saved) None (fst example_saved)
              (fst example_saved) (Loaded example_device) example_saved_wf)
    as (_ & _ & H & _).
  - vm_compute. reflexivity.
  - apply H; vm_compute; reflexivity.
Defined.

(** ** Local saves and the derivation of ids *)

Lemma bind_return {A B : Type} (m : M A) (k : A -> M B) (w w' : World) (a : A) :
  m w = (w', Return a) -> bind m k w = k a w'.
Proof. intros H. unfold bind. now rewrite H. Qed.

Lemma UUID_nonempty (s : string) (u : Uuid.t) : Uuid.UUID s = Some u -> s <> "".
Proof. intros H ->. vm_compute in H. discriminate. Qed.

Section FilterInsert.

Context {A : Type} (p : A -> bool) (q : A -> Prop).

Lemma filter_insert_head (rows : list A) (i : nat) (x x' : A) :
  rows !! i = Some x -> p x' = p x -> (q x -> q x') ->
  (exists m rest, List.filter p rows = m :: rest /\ q m) ->
  exists m rest, List.filter p (<[i := x']> rows) = m :: rest /\ q m.
Proof.
  revert i. induction rows as [|a rows IH]; intros i Hi Hp Hq (m & rest & Hf & Hm);
    [discriminate|].
  destruct i as [|i]; cbn in Hi |- *.
  - inversion Hi; subst a. rewrite Hp. cbn in Hf. destruct (p x).
    + inversion Hf; subst. eauto.
    + eauto.
  - cbn in Hf. destruct (p a).
    + inversion Hf; subst. eauto.
    + apply (IH i Hi Hp Hq). eauto.
Qed.

End FilterInsert.

Lemma registered_has_metadata (w : World) (own : Instance) :
  own_device_registered w own ->
  exists m, List.find (metadata_of (pk own)) (device_metadata w) = Some m.
Proof.
  intros (m & rest & Hf & Hid & _).
  destruct (List.find (metadata_of (pk own)) (device_metadata w)) as [x|] eqn:Hfind;
    [now eexists|].
  exfalso. assert (In m (List.filter is_own_device (device_metadata w))) as Hin
    by (rewrite Hf; now left).
  apply List.filter_In in Hin. destruct Hin as [Hin _].
  pose proof (find_none _ _ Hfind m Hin) as Hn.
  now rewrite metadata_of_refl in Hn.
Qed.

Lemma registered_after_increment (w : World) (own : Instance) :
  metadata_wf w -> own_device_registered w own ->
  own_device_registered (fst (Device_increment_and_get_counter own w)) own.
Proof.
  intros Hwf Hreg. unfold Device_increment_and_get_counter, bind, read, ret.
  destruct (truthy (id own)); cbn [negb fst]; [|exact Hreg].
  rewrite metadata_save_returns. cbn [fst].
  destruct (registered_has_metadata w own Hreg) as [m0 Hfind].
  destruct Hreg as (m & rest & Hf & Hid & Hrow).
  unfold Device_get_metadata. rewrite Hfind.
  destruct (find_first _ _ _ Hfind) as (i & Hi & _ & _).
  unfold DeviceMetadata_save, write. cbn [set_counter_position_field dm_pk].
  rewrite (Hwf i m0 Hi). cbn [fst].
  destruct (filter_insert_head is_own_device (fun x => device_id x = Some (pk own))
              (device_metadata w) i m0
              (set_counter_position_field (counter_position m0 + 1) m0) Hi eq_refl
              (fun H => H)) as (m' & rest' & Hf' & Hid'); [eauto|].
  exists m', rest'. split; [exact Hf'|]. split; [exact Hid' | exact Hrow].
Qed.



Lemma example_device_registered : own_device_registered example_world example_device.
Proof. eexists _, _. repeat split; vm_compute; reflexivity. Qed.


(** ** Device ids *)

Lemma length_hex_fixed (n : nat) (x : Z) : String.length (Py.hex_fixed n x) = n.
Proof. induction n as [|n IH]; cbn [Py.hex_fixed String.length]; [reflexivity | now rewrite IH]. Qed.

Lemma length_hex (u : Uuid.t) : String.length (Uuid.hex u) = 32%nat.
Proof. apply length_hex_fixed. Qed.

Ltac small_bits j :=
  destruct (Z.ltb_spec j 0) as [Hneg|Hpos];
  [ rewrite Z.testbit_neg_r by lia;
    repeat match goal with |- context [Z.eqb ?a ?b] => destruct (Z.eqb_spec a b); try lia end;
    repeat match goal with |- context [Z.leb ?a ?b] => destruct (Z.leb_spec a b); try lia end;
    reflexivity
  | destruct (Z.ltb_spec j 16) as [Hlt|Hge];
    [ replace j with (Z.of_nat (Z.to_nat j)) by lia;
      assert (Z.to_nat j < 16)%nat as Hn by lia; revert Hn; generalize (Z.to_nat j);
      intros n Hn; do 16 (destruct n as [|n]; [reflexivity|]); lia
    | rewrite Z.bits_above_log2 by (cbn; lia);
      repeat match goal with |- context [Z.eqb ?a ?b] => destruct (Z.eqb_spec a b); try lia end;
      repeat match goal with |- context [Z.leb ?a ?b] => destruct (Z.leb_spec a b); try lia end;
      reflexivity ] ].

Lemma testbit_49152 (j : Z) : Z.testbit 49152 j = (j =? 14) || (j =? 15).
Proof. small_bits j. Qed.

Lemma testbit_32768 (j : Z) : Z.testbit 32768 j = (j =? 15).
Proof. small_bits j. Qed.

Lemma testbit_61440 (j : Z) : Z.testbit 61440 j = (12 <=? j) && (j <=? 15).
Proof. small_bits j. Qed.

Lemma testbit_4 (j : Z) : Z.testbit 4 j = (j =? 2).
Proof. small_bits j. Qed.

Lemma testbit_uuid4 (x i : Z) :
  0 <= i ->
  Z.testbit (Uuid.set_version 4 x) i
  = if uuid4_free_bit i then Z.testbit x i else (i =? 63) || (i =? 78).
Proof.
  intros Hi. unfold Uuid.set_version, uuid4_free_bit.
  rewrite Z.lor_spec, Z.land_spec, Z.lor_spec, Z.land_spec, !Z.lnot_spec by lia.
  rewrite !Z.shiftl_spec by lia.
  rewrite testbit_49152, testbit_32768, testbit_61440, testbit_4.
  destruct (Z.testbit x i);
    repeat match goal with |- context [Z.eqb ?a ?b] => destruct (Z.eqb_spec a b); try lia end;
    repeat match goal with |- context [Z.leb ?a ?b] => destruct (Z.leb_spec a b); try lia end;
    reflexivity.
Qed.

Lemma differing_bit (a b : Z) :
  a <> b -> exists i, 0 <= i /\ Z.testbit a i <> Z.testbit b i.
Proof.
  intros Hne.
  assert (Z.lxor a b <> 0) as Hx by (intros H0; apply Hne; now apply Z.lxor_eq).
  assert (exists i, 0 <= i /\ Z.testbit (Z.lxor a b) i = true) as (i & Hi & Hbit).
  { destruct (Z.lt_ge_cases 0 (Z.lxor a b)) as [Hpos|Hneg].
    - exists (Z.log2 (Z.lxor a b)). split; [apply Z.log2_nonneg | now apply Z.bit_log2].
    - exists (Z.log2 (Z.pred (- Z.lxor a b)) + 1).
      pose proof (Z.log2_nonneg (Z.pred (- Z.lxor a b))).
      split; [lia|]. apply Z.bits_above_log2_neg; lia. }
  exists i. split; [exact Hi|]. rewrite Z.lxor_spec in Hbit.
  destruct (Z.testbit a i), (Z.testbit b i); cbn in Hbit; congruence.
Qed.

Lemma uuid4_differ (x y : Z) :
  Uuid.set_version 4 x <> Uuid.set_version 4 y
  <-> exists i, 0 <= i /\ uuid4_free_bit i = true /\ Z.testbit x i <> Z.testbit y i.
Proof.
  split.
  - intros Hne. destruct (differing_bit _ _ Hne) as (i & Hi & Hd).
    exists i. split; [lia|]. rewrite !testbit_uuid4 in Hd by lia.
    destruct (uuid4_free_bit i); [split; [reflexivity | exact Hd] | congruence].
  - intros (i & Hi & Hfree & Hd) Heq. apply Hd.
    apply (f_equal (fun z => Z.testbit z i)) in Heq.
    now rewrite !testbit_uuid4, Hfree in Heq by lia.
Qed.

(** C10: [Device.get_uuid] is a function of the public key when there is
    one: it returns the 32-character hex string
    [uuid5(ROOT_UUID_NAMESPACE, str(public_key)).hex] and reads no entropy.
    With an empty public key each call draws sixteen fresh random bytes and
    returns the version-4 [UUID] object built from them, not a hex string;
    two successive calls return different values exactly when the two draws
    differ in a bit the version-4 layout does not force. *)
Theorem device_get_uuid (env : Env) (d : Instance) (w : World) :
  (public_key d <> "" ->
   let hex := Uuid.hex (Uuid.uuid5 (ROOT_UUID_NAMESPACE env) (public_key d)) in
   Device_get_uuid env d w = (w, Return (VStr hex)) /\ String.length hex = 32%nat)
  /\ (public_key d = "" ->
      let r1 := urandom16 env (urandom_calls w) in
      let r2 := urandom16 env (S (urandom_calls w)) in
      exists w1 w2,
        Device_get_uuid env d w = (w1, Return (VUUID (Uuid.uuid4 r1)))
        /\ Device_get_uuid env d w1 = (w2, Return (VUUID (Uuid.uuid4 r2)))
        /\ (forall s, VUUID (Uuid.uuid4 r1) <> VStr s)
        /\ (VUUID (Uuid.uuid4 r1) <> VUUID (Uuid.uuid4 r2)
            <-> exists i, 0 <= i /\ uuid4_free_bit i = true
                          /\ Z.testbit (Py.be_int r1) i <> Z.testbit (Py.be_int r2) i)).
Proof.
  unfold Device_get_uuid. cbv zeta. split.
  - intros Hk. destruct (String.eqb_spec (public_key d) ""); [contradiction|].
    split; [reflexivity | apply length_hex].
  - intros Hk. rewrite Hk. cbn [String.eqb].
    exists (tick_urandom w), (tick_urandom (tick_urandom w)).
    split; [reflexivity|]. split; [reflexivity|]. split; [discriminate|].
    unfold Uuid.uuid4, Uuid.of_bytes. rewrite <- uuid4_differ.
    split; intros H Heq; apply H; congruence.
Qed.

Lemma device_get_uuid_witness :
  exists w1 w2 u1 u2,
    Device_get_uuid example_env Device_blank empty_world = (w1, Return (VUUID u1))
    /\ Device_get_uuid example_env Device_blank w1 = (w2, Return (VUUID u2))
    /\ u1 <> u2.
Proof.
  destruct (proj2 (device_get_uuid example_env Device_blank empty_world) eq_refl)
    as (w1 & w2 & H1 & H2 & _ & Hd).
  eexists w1, w2, _, _. split; [exact H1|]. split; [exact H2|].
  intros Heq. apply (proj2 Hd); [|now rewrite Heq].
  exists 0. split; [lia|]. split; [reflexivity|]. vm_compute. discriminate.
Defined.

(** ** Import and purgatory *)

Lemma append_assoc (a b c : string) : (a +:+ b) +:+ c = a +:+ (b +:+ c).
Proof.
  induction a as [|x a IH]; [reflexivity|].
  change (String x ((a +:+ b) +:+ c) = String x (a +:+ b +:+ c)). now f_equal.
Qed.


Section ImportFacts.

Context (env : Env).



End ImportFacts.

Section PurgatoryFacts.

Context (env : Env).

Lemma purgatory_save_row (p row : ImportPurgatory.t) (w w' : World) :
  ImportPurgatory_save env p w = (w', Return row) ->
  In row (import_purgatory w')
  /\ ImportPurgatory.serialized_models row = ImportPurgatory.serialized_models p
  /\ ImportPurgatory.exceptions row = ImportPurgatory.exceptions p
  /\ ImportPurgatory.retry_attempts row = ImportPurgatory.retry_attempts p
  /\ (exists n, ImportPurgatory.pk row = Some n)
  /\ (forall k, ImportPurgatory.pk p = Some k -> ImportPurgatory.pk row = Some k).
Proof.
  unfold ImportPurgatory_save, bind.
  match goal with |- context [match ?m w with _ => _ end] => destruct (m w) as [w0 [c|e]] end;
    [|discriminate].
  destruct (ImportPurgatory.pk p) as [k|] eqn:Hpk; intros H; inversion H; subst; clear H;
    cbn [import_purgatory set_import_purgatory ImportPurgatory.serialized_models
         ImportPurgatory.exceptions ImportPurgatory.retry_attempts ImportPurgatory.pk].
  - split; [|repeat split; eauto].
    match goal with |- In ?r (if existsb ?f ?l then _ else _) =>
      destruct (existsb f l) eqn:Hex; [|apply List.in_or_app; right; now left];
      apply List.existsb_exists in Hex; destruct Hex as (x & Hin & Hx);
      apply List.in_map_iff; exists x; split; [now rewrite Hx | exact Hin]
    end.
  - split; [apply List.in_or_app; right; now left|].
    repeat split; eauto. discriminate.
Qed.


End PurgatoryFacts.




(** ** Batch selection over several rounds *)

(** C5, on the code: a device holds 250 records with counters 1 to 250 and a
    peer that knows nothing of them pulls with the default limit of 100,
    importing each batch and reporting the counter position the import
    leaves it with.  Three rounds bring all 250 records and no round
    brings more than 100, but the selection window includes its lower
    bound: the second round sends the record with counter 99 again and the
    third the record with counter 198, so 252 records are sent in all. *)
Lemma three_rounds_resend_boundary_records :
  List.map (fun p => (List.map counter (fst p), snd p)) three_rounds
  = [(List.map Z.of_nat (List.seq 1 99), 99);
     (List.map Z.of_nat (List.seq 99 100), 198);
     (List.map Z.of_nat (List.seq 198 53), 250)]
  /\ List.nth_error (pull 0) 98 = Some (example_log 99)
  /\ List.nth_error (pull 99) 0 = Some (example_log 99)
  /\ List.nth_error (pull 99) 99 = Some (example_log 198)
  /\ List.nth_error (pull 198) 0 = Some (example_log 198)
  /\ List.length (List.concat (List.map fst three_rounds)) = 252%nat
  /\ forallb (fun n => existsb (fun r => counter r =? Z.of_nat n)
                         (List.concat (List.map fst three_rounds)))
       (List.seq 1 250) = true
  /\ forallb (fun p => (List.length (fst p) <=? 100)%nat) three_rounds = true.
Proof. repeat split; vm_compute; reflexivity. Qed.

(** * Further properties of the module *)

(** ** Running computations step by step *)

Lemma bind_raise {A B : Type} (m : M A) (k : A -> M B) (w w' : World) (e : exn) :
  m w = (w', Raise e) -> bind m k w = (w', Raise e).
Proof. intros H. unfold bind. now rewrite H. Qed.

Lemma bind_inv {A B : Type} (m : M A) (k : A -> M B) (w w' : World) (b : B) :
  bind m k w = (w', Return b) ->
  exists w1 a, m w = (w1, Return a) /\ k a w1 = (w', Return b).
Proof.
  unfold bind. destruct (m w) as [w1 [a|e]]; intros H; [|discriminate]. eauto.
Qed.

Lemma read_only_run {A : Type} (m : M A) (w : World) :
  read_only m -> m w = (w, snd (m w)).
Proof. intros H. specialize (H w). destruct (m w); cbn in *. now subst. Qed.

(** ** What a write leaves alone *)

Lemma find_row_set_device_metadata (c : ModelClass) (k : string) (rows : list DeviceMetadata)
    (w : World) :
  find_row c k (set_device_metadata rows w) = find_row c k w.
Proof. now destruct c. Qed.

Lemma tables_DeviceMetadata_save (m : DeviceMetadata) (c : ModelClass) (w : World) :
  table c (fst (DeviceMetadata_save m w)) = table c w.
Proof. unfold DeviceMetadata_save, write. destruct (dm_pk m), c; reflexivity. Qed.

Lemma tables_set_counter_position (d : Instance) (n : Z) (c : ModelClass) (w : World) :
  table c (fst (Device_set_counter_position d n w)) = table c w.
Proof.
  unfold Device_set_counter_position, bind, read, ret.
  destruct (truthy (id d)); cbn [negb fst]; [|reflexivity].
  destruct (_ <? n); [|reflexivity].
  rewrite metadata_save_returns. apply tables_DeviceMetadata_save.
Qed.

Lemma tables_increment (d : Instance) (c : ModelClass) (w : World) :
  table c (fst (Device_increment_and_get_counter d w)) = table c w.
Proof.
  unfold Device_increment_and_get_counter, bind, read, ret.
  destruct (truthy (id d)); cbn [negb fst]; [|reflexivity].
  rewrite metadata_save_returns. apply tables_DeviceMetadata_save.
Qed.

Lemma find_row_same_tables (c : ModelClass) (k : string) (w w' : World) :
  table c w' = table c w -> find_row c k w' = find_row c k w.
Proof. unfold find_row. now intros ->. Qed.

Lemma extends_refl (w : World) : extends w w.
Proof. intros c k H. exact H. Qed.

Lemma extends_trans (w1 w2 w3 : World) : extends w1 w2 -> extends w2 w3 -> extends w1 w3.
Proof. intros H12 H23 c k H. apply H23, H12, H. Qed.

Lemma extends_same_tables (w w' : World) :
  (forall c, table c w' = table c w) -> extends w w'.
Proof. intros H c k Hk. now rewrite (find_row_same_tables c k w w' (H c)). Qed.

Lemma extends_Model_save (r : Instance) (w : World) : extends w (fst (Model_save r w)).
Proof.
  intros c k H. rewrite find_row_Model_save.
  now destruct (ModelClass_eqb (cls r) c && String.eqb (pk r) k).
Qed.

Lemma related_extends (target : ModelClass) (null : bool) (fk : option string)
    (w w' : World) (v : pyval) :
  extends w w' -> related target null fk w = Return v -> related target null fk w' = Return v.
Proof.
  intros He. unfold related. destruct fk as [k|]; [|exact (fun H => H)].
  destruct (find_row target k w) as [r|] eqn:Hr; [|discriminate].
  intros H. specialize (He target k). rewrite Hr in He.
  destruct (find_row target k w') as [r'|] eqn:Hr'; [|now exfalso; apply He].
  rewrite (find_row_pk _ _ _ _ Hr'). rewrite (find_row_pk _ _ _ _ Hr) in H. exact H.
Qed.

Lemma getattr_extends (self : Instance) (f : string) (w w' : World) (v : pyval) :
  extends w w' -> getattr self f w = Return v -> getattr self f w' = Return v.
Proof.
  intros He. unfold getattr.
  repeat match goal with
         | |- context [if ?b then _ else _] => destruct b; [try exact (fun H => H)|]
         end;
    try (apply related_extends; exact He).
  destruct (assoc f (attrs self)) as [[x|t fk]|]; try exact (fun H => H).
  apply related_extends; exact He.
Qed.

Lemma chunks_extends (self : Instance) (fields : list string) (w w' : World) (cs : list string) :
  extends w w' -> chunks self fields w = Return cs -> chunks self fields w' = Return cs.
Proof.
  intros He. revert cs. induction fields as [|f rest IH]; intros cs H; [exact H|].
  cbn [chunks] in *.
  destruct (getattr self f w) as [v|e] eqn:Hv; [|discriminate].
  rewrite (getattr_extends self f w w' v He Hv).
  destruct (chunks self rest w) as [cs0|e]; [|discriminate].
  now rewrite (IH cs0 eq_refl).
Qed.

Lemma hashable_extends (self : Instance) (w w' : World) (text : string) :
  extends w w' ->
  _hashable_representation self w = Return text ->
  _hashable_representation self w' = Return text.
Proof.
  intros He. unfold _hashable_representation, Device__hashable_representation,
    SyncedModel__hashable_representation.
  destruct (cls self);
    match goal with
    | |- context [chunks self ?l w] =>
        destruct (chunks self l w) as [cs|e] eqn:Hc; [|discriminate];
        rewrite (chunks_extends self l w w' cs He Hc); exact (fun H => H)
    end.
Qed.

(** The signature is not among the hashed fields. *)
Lemma chunks_set_signature (self : Instance) (s : string) (fields : list string) (w : World) :
  mem "signature" fields = false ->
  chunks (set_signature s self) fields w = chunks self fields w.
Proof.
  induction fields as [|f rest IH]; [reflexivity|]. cbn [mem existsb].
  intros H. apply orb_false_iff in H. destruct H as [Hf Hrest].
  cbn [chunks]. fold (mem "signature" rest) in Hrest. rewrite (IH Hrest).
  assert (getattr (set_signature s self) f w = getattr self f w) as ->; [|reflexivity].
  unfold getattr. rewrite (String.eqb_sym f "signature"), Hf. reflexivity.
Qed.

Lemma hashable_set_signature (self : Instance) (s : string) (w : World) :
  _hashable_representation (set_signature s self) w = _hashable_representation self w.
Proof.
  unfold _hashable_representation, Device__hashable_representation,
    SyncedModel__hashable_representation.
  change (cls (set_signature s self)) with (cls self).
  destruct (cls self); rewrite chunks_set_signature; reflexivity.
Qed.

(** ** Reading back a metadata row *)

Lemma with_dm_pk_same (i : nat) (m : DeviceMetadata) :
  dm_pk m = Some i -> with_dm_pk i m = m.
Proof. destruct m as [p d t o c]. cbn. now intros ->. Qed.

Lemma metadata_of_device_id (k : string) (m : DeviceMetadata) :
  metadata_of k m = true -> device_id m = Some k.
Proof.
  unfold metadata_of. destruct (device_id m) as [k'|]; [|discriminate].
  intros H. apply String.eqb_eq in H. now subst.
Qed.

Lemma get_metadata_device_id (d : Instance) (w : World) :
  device_id (Device_get_metadata d w) = Some (pk d).
Proof.
  unfold Device_get_metadata.
  destruct (List.find (metadata_of (pk d)) (device_metadata w)) as [m|] eqn:Hf; [|reflexivity].
  apply find_some in Hf. now apply metadata_of_device_id.
Qed.

(** A row read by [get_metadata], changed in fields other than its key and
    device, and saved, is the row [get_metadata] reads next. *)
Lemma metadata_save_get (d : Instance) (m' : DeviceMetadata) (w : World) :
  metadata_wf w ->
  device_id m' = device_id (Device_get_metadata d w) ->
  dm_pk m' = dm_pk (Device_get_metadata d w) ->
  let w' := fst (DeviceMetadata_save m' w) in
  metadata_wf w'
  /\ exists i, Device_get_metadata d w' = with_dm_pk i m'.
Proof.
  intros Hwf Hid Hpk w'. split; [now apply preserves_wf_DeviceMetadata_save|].
  subst w'. rewrite get_metadata_device_id in Hid.
  unfold Device_get_metadata in *. unfold DeviceMetadata_save, write.
  destruct (List.find (metadata_of (pk d)) (device_metadata w)) as [m|] eqn:Hfind.
  - destruct (find_first _ _ _ Hfind) as (i & Hi & Pm & Hlt).
    rewrite Hpk, (Hwf i m Hi). cbn [fst set_device_metadata device_metadata].
    exists i. rewrite find_insert_first;
      [| eapply lookup_lt_Some; eauto | now apply metadata_of_refl | exact Hlt].
    symmetry. apply with_dm_pk_same. rewrite Hpk. now apply Hwf.
  - rewrite Hpk. cbn [dm_pk fst set_device_metadata device_metadata].
    exists (List.length (device_metadata w)).
    rewrite find_app_last by exact Hfind.
    now rewrite metadata_of_refl.
Qed.

(** ** Setting up the own device *)

Lemma hex_nonempty (u : Uuid.t) : String.eqb (Uuid.hex u) "" = false.
Proof.
  destruct (String.eqb_spec (Uuid.hex u) "") as [H|H]; [|reflexivity].
  pose proof (length_hex u) as Hl. rewrite H in Hl. discriminate.
Qed.

Lemma device_record_hashable (key : string) (i : pyval) (c : Z) (sig : string)
    (signer : option string) (w : World) :
  key <> "" ->
  _hashable_representation (device_record key i c sig signer) w
  = Return (Py.join "&" (tokens [("id", i); ("signed_version", VInt 1);
                                 ("public_key", VStr key)])).
Proof.
  intros Hkey. unfold _hashable_representation. cbn [cls device_record].
  unfold Device__hashable_representation, SyncedModel__hashable_representation.
  cbn [cls device_record].
  change (hashed_fields Device ["signed_version"; "name"; "description"; "public_key"])
    with ["id"; "signed_version"; "name"; "description"; "public_key"].
  rewrite (values_chunks _ w _ [i; VInt 1; VStr ""; VStr ""; VStr key])
    by (repeat constructor).
  unfold tokens. cbn [combine List.filter snd fst truthy String.eqb negb].
  destruct (truthy i); reflexivity.
Qed.

Section FilterSingle.

Context {A : Type} (p : A -> bool).

Lemma filter_insert_single (rows : list A) (i : nat) (y : A) :
  List.filter p rows = [] -> p y = true -> (i < List.length rows)%nat ->
  List.filter p (<[i := y]> rows) = [y].
Proof.
  revert i. induction rows as [|a rows IH]; intros i Hf Hy Hi; cbn in Hi; [lia|].
  cbn in Hf. destruct (p a) eqn:Pa; [discriminate|].
  destruct i as [|i]; cbn.
  - now rewrite Hy, Hf.
  - rewrite Pa. apply IH; [exact Hf | exact Hy | lia].
Qed.

Lemma filter_app_single (rows : list A) (y : A) :
  List.filter p rows = [] -> p y = true -> List.filter p (rows ++ [y]) = [y].
Proof. intros Hf Hy. rewrite List.filter_app, Hf. cbn. now rewrite Hy. Qed.

End FilterSingle.

(** X1: on a database without an own device, [get_own_device] creates one:
    a [Device] row whose id is [uuid5(ROOT_UUID_NAMESPACE, public key).hex],
    with counter 0, signed by itself over its canonical string with the
    id in it; its metadata is flagged as own device, trusted exactly on the
    central server, and keeps whatever counter position was recorded for
    that id.  No other table changes, and a second call returns the same
    device and changes nothing. *)
Theorem get_own_device_bootstrap (env : Env) (w : World) :
  metadata_wf w ->
  List.filter is_own_device (device_metadata w) = [] ->
  own_key env <> "" ->
  (forall text, crypto_sign env text <> None) ->
  exists w' sg,
    crypto_sign env (own_device_text env) = Some sg
    /\ let own := device_record (own_key env) (VStr (own_id env)) 0
                    (encode_base64 env sg) (Some (own_id env)) in
       get_own_device env w = (w', Return (Some own))
       /\ find_row Device (own_id env) w' = Some own
       /\ is_own_device (Device_get_metadata own w') = true
       /\ is_trusted (Device_get_metadata own w') = CENTRAL_SERVER env
       /\ position own w' = position own w
       /\ (forall c, c <> Device -> table c w' = table c w)
       /\ metadata_wf w'
       /\ get_own_device env w' = (w', Return (Some own)).
Proof.
  intros Hwf Hnone Hkey Hsign.
  set (key := own_key env) in *. set (hex := own_id env).
  set (text1 := Py.join "&" (tokens [("id", VStr ""); ("signed_version", VInt 1);
                                     ("public_key", VStr key)])).
  destruct (crypto_sign env text1) as [sg1|] eqn:Hsg1; [|now destruct (Hsign text1)].
  destruct (crypto_sign env (own_device_text env)) as [sg|] eqn:Hsg;
    [|now destruct (Hsign (own_device_text env))].
  set (own := device_record key (VStr hex) 0 (encode_base64 env sg) (Some hex)).
  set (w2 := fst (Model_save own
                    (fst (Model_save (device_record key (VStr hex) 0 (encode_base64 env sg1)
                                        (Some "")) w)))).
  set (m' := set_is_trusted (CENTRAL_SERVER env)
               (set_is_own_device true (Device_get_metadata own w2))).
  set (w3 := fst (DeviceMetadata_save m' w2)).
  assert (metadata_wf w2) as Hwf2.
  { unfold w2. now apply preserves_wf_Model_save, preserves_wf_Model_save. }
  assert (device_metadata w2 = device_metadata w) as Hmeta2 by reflexivity.
  assert (initialize_own_device env Device_blank w = (w3, Return own)) as Hinit.
  { unfold initialize_own_device. cbv zeta.
    change (set_attr "public_key" (Plain (VStr (serialize_public_key env (get_public_key env))))
              Device_blank)
      with (device_record key (VStr "") 0 "" None).
    (* the first signature, before the device has an id *)
    erewrite (bind_return _ _ w w (device_record key (VStr "") 0 (encode_base64 env sg1)
                                     (Some ""))).
    2:{ unfold SyncedModel_sign_with, or_get_own_device.
        rewrite (bind_return _ _ w w (Some Self)) by reflexivity.
        cbn [option_map deref].
        change (set_signed_by_id _ _) with (device_record key (VStr "") 0 "" (Some "")).
        unfold lift_read, bind. rewrite device_record_hashable by exact Hkey.
        fold text1. unfold sign_text. rewrite Hsg1. reflexivity. }
    (* the save: counter, id, first write, second signature, second write *)
    erewrite (bind_return _ _ w w2 own).
    2:{ unfold Device_save_with.
        erewrite (bind_return _ _ w w2 own); [reflexivity|].
        unfold SyncedModel_save_with, or_get_own_device.
        rewrite (bind_return _ _ w w (Some Self)) by reflexivity.
        cbn [deref].
        rewrite (bind_return _ _ w w 0) by reflexivity.
        change (set_counter 0 _)
          with (device_record key (VStr "") 0 (encode_base64 env sg1) (Some "")).
        cbn [id device_record truthy String.eqb negb].
        erewrite (bind_return _ _ w _ (device_record key (VStr hex) 0 (encode_base64 env sg1)
                                         (Some ""))).
        2:{ erewrite (bind_return _ _ w w (VStr hex)).
            2:{ unfold get_uuid_with, Device_get_uuid. cbn [cls device_record].
                change (public_key (device_record key (VStr "") 0 (encode_base64 env sg1)
                                      (Some ""))) with key.
                destruct (String.eqb_spec key ""); [contradiction | reflexivity]. }
            unfold Model_save, write, bind, ret. reflexivity. }
        erewrite (bind_return _ _ _ _ own).
        2:{ unfold SyncedModel_sign_with, or_get_own_device.
            erewrite bind_return by reflexivity.
            cbn [option_map deref].
            change (set_signed_by_id _ _)
              with (device_record key (VStr hex) 0 (encode_base64 env sg1) (Some hex)).
            unfold lift_read, bind. rewrite device_record_hashable by exact Hkey.
            change (Py.join "&" _) with (own_device_text env).
            unfold sign_text. rewrite Hsg. reflexivity. }
        unfold Model_save, write, bind, ret. reflexivity. }
    rewrite (bind_return _ _ w2 w2 (Device_get_metadata own w2)) by reflexivity.
    unfold bind. fold m'. rewrite metadata_save_returns. reflexivity. }
  assert (get_own_device env w = (w3, Return (Some own))) as Hget.
  { unfold get_own_device. rewrite (bind_return _ _ w w []) by (unfold read; now rewrite Hnone).
    now rewrite (bind_return _ _ _ _ _ Hinit). }
  destruct (metadata_save_get own m' w2 Hwf2 eq_refl eq_refl) as [Hwf3 [i Hm]].
  fold w3 in Hwf3, Hm.
  assert (find_row Device hex w3 = Some own) as Hrow.
  { unfold w3. rewrite (find_row_same_tables Device hex w2)
      by apply tables_DeviceMetadata_save.
    unfold w2. rewrite find_row_Model_save.
    change (ModelClass_eqb (cls own) Device) with true.
    change (pk own) with hex. rewrite String.eqb_refl. reflexivity. }
  assert (own_device_registered w3 own) as Hreg.
  { assert (exists x, List.filter is_own_device (device_metadata w3) = [x]
                      /\ device_id x = Some (pk own)) as (x & Hx & Hdx).
    { pose proof (get_metadata_device_id own w2) as Hdev.
      unfold w3, DeviceMetadata_save, write.
      destruct (dm_pk m') as [j|] eqn:Hj; cbn [fst set_device_metadata device_metadata].
      - exists m'. split; [|exact Hdev].
        unfold m', Device_get_metadata in Hj. cbn [set_is_trusted set_is_own_device dm_pk] in Hj.
        destruct (List.find (metadata_of (pk own)) (device_metadata w2)) as [m|] eqn:Hfind;
          [|discriminate].
        destruct (find_first _ _ _ Hfind) as (j' & Hj' & _ & _).
        rewrite (Hwf2 j' m Hj') in Hj. inversion Hj; subst j'.
        apply filter_insert_single;
          [now rewrite Hmeta2 | reflexivity | eapply lookup_lt_Some; eauto].
      - exists (with_dm_pk (List.length (device_metadata w2)) m'). split; [|exact Hdev].
        apply filter_app_single; [now rewrite Hmeta2 | reflexivity]. }
    exists x, []. split; [exact Hx|]. split; [exact Hdx | exact Hrow]. }
  exists w3, sg. split; [reflexivity|]. cbv zeta. fold key hex own.
  split; [exact Hget|]. split; [exact Hrow|].
  rewrite Hm. split; [reflexivity|]. split; [reflexivity|].
  split; [|split; [|split; [exact Hwf3 | now apply get_own_device_registered]]].
  - unfold position. rewrite Hm. reflexivity.
  - intros c Hc. unfold w3. rewrite tables_DeviceMetadata_save.
    unfold w2, Model_save, write. cbn [fst]. rewrite !table_set_table.
    cbn [cls own device_record]. destruct c; try reflexivity. contradiction.
Qed.

Lemma get_own_device_bootstrap_witness :
  exists w' own,
    get_own_device example_env empty_world = (w', Return (Some own))
    /\ find_row Device (own_id example_env) w' = Some own
    /\ get_own_device example_env w' = (w', Return (Some own)).
Proof.
  destruct (get_own_device_bootstrap example_env empty_world empty_world_wf eq_refl)
    as (w' & sg & _ & H1 & H2 & _ & _ & _ & _ & _ & H3).
  - vm_compute. discriminate.
  - intros text. discriminate.
  - eexists w', _. split; [exact H1|]. split; [exact H2 | exact H3].
Defined.

(** X2: the record of the own device verifies.  When the signature scheme
    works for the process's key pair, [verify] returns true, in any
    database, for the device record that [get_own_device] creates. *)
Theorem own_device_verifies (env : Env) (w : World) (sg : string) :
  crypto_sound env -> own_key env <> "" ->
  crypto_sign env (own_device_text env) = Some sg ->
  verify env
    (device_record (own_key env) (VStr (own_id env)) 0 (encode_base64 env sg)
       (Some (own_id env))) w
  = (w, Return true).
Proof.
  intros [Hkeys Hsound] Hkey Hsg. destruct (Hsound _ _ Hsg) as [Hcodec Hverify].
  unfold verify. cbn [cls device_record]. unfold Device_verify, signed_by_self.
  cbn [signed_by_id device_record]. change (pk (device_record _ _ _ _ _)) with (own_id env).
  rewrite String.eqb_refl. cbn [negb].
  unfold Device_get_public_key.
  change (public_key (device_record _ _ _ _ _)) with (own_key env).
  unfold own_key at 1. rewrite Hkeys.
  unfold bind, ret, try_except, check_signature, bind, lift_read.
  rewrite device_record_hashable by exact Hkey.
  change (Py.join "&" _) with (own_device_text env).
  cbn [signature device_record]. rewrite Hcodec, Hverify. reflexivity.
Qed.

Lemma example_env_sound : crypto_sound example_env.
Proof.
  split; [reflexivity|]. intros text sg H. cbn in H. inversion H; subst sg.
  split; [reflexivity|]. cbn. now rewrite String.eqb_refl.
Qed.

Lemma own_device_verifies_witness :
  verify example_env example_device example_world = (example_world, Return true).
Proof.
  apply (own_device_verifies example_env example_world
           ("pubkey-A/" +:+ own_device_text example_env) example_env_sound).
  - vm_compute. discriminate.
  - reflexivity.
Defined.

(** ** Records saved locally *)

Section LocalSave.

Context (env : Env).

(** The result of a local save of a record without id, class by class
    other than [Device], once the own device is registered. *)
Lemma local_save_result (self own : Instance) (own_device : option device_ref)
    (w : World) (s : string) (u : Uuid.t) :
  metadata_wf w -> own_device_registered w own ->
  id own = VStr s -> Uuid.UUID s = Some u ->
  own_device = None \/ own_device = Some (Loaded own) ->
  cls self <> Device -> truthy (id self) = false ->
  let c := position own w + 1 in
  let stamped := set_id (VStr (Uuid.hex (Uuid.uuid5 u (Py.str_int c)))) (set_counter c self) in
  let w1 := fst (Model_save stamped (fst (Device_increment_and_get_counter own w))) in
  let signed_ := set_signed_by_id (Some s) stamped in
  save env self own_device false w
  = match _hashable_representation signed_ w1 with
    | Raise e => (w1, Raise e)
    | Return text =>
        match crypto_sign env text with
        | None => (w1, Raise CryptoError)
        | Some sg =>
            let r := set_signature (encode_base64 env sg) signed_ in
            (fst (Model_save r w1), Return r)
        end
    end.
Proof.
  intros Hwf Hreg Hid Hu Hown Hcls Hself c stamped w1 signed_.
  assert (truthy (id own) = true) as Htown.
  { rewrite Hid. cbn. destruct (String.eqb_spec s ""); [|reflexivity].
    now apply UUID_nonempty in Hu. }
  assert (pk own = s) as Hpk by (unfold pk; now rewrite Hid).
  destruct (proj2 (increment_and_get_counter_spec own w Hwf) Htown)
    as (w' & Hinc & Hwf' & Hpos').
  pose proof (registered_after_increment w own Hwf Hreg) as Hreg'.
  rewrite Hinc in Hreg'. cbn [fst] in Hreg'.
  assert (w1 = fst (Model_save stamped w')) as Hw1 by (unfold w1; now rewrite Hinc).
  assert (or_get_own_device (get_own_device env) own_device w
          = (w, Return (Some (Loaded own)))) as Hor.
  { destruct Hown as [-> | ->]; [|reflexivity].
    unfold or_get_own_device.
    now rewrite (bind_return _ _ _ _ _ (get_own_device_registered env w own Hreg)). }
  assert (get_uuid_with env (get_own_device env) (set_counter c self) w'
          = (w', Return (id stamped))) as Hg.
  { unfold get_uuid_with. change (cls (set_counter c self)) with (cls self).
    destruct (cls self); try congruence;
      unfold SyncedModel_get_uuid_with;
      rewrite (bind_return _ _ _ _ _ (get_own_device_registered env w' own Hreg'));
      rewrite Htown, Hid, Hu; reflexivity. }
  rewrite save_is_SyncedModel_save.
  unfold SyncedModel_save, SyncedModel_save_with.
  rewrite (bind_return _ _ _ _ _ Hor). cbn [deref].
  rewrite (bind_return _ _ _ _ _ Hinc). fold c.
  change (id (set_counter c self)) with (id self). rewrite Hself. cbn [negb].
  erewrite (bind_return _ _ w' w1 stamped).
  2:{ rewrite (bind_return _ _ _ _ _ Hg). rewrite Hw1.
      unfold Model_save, write, bind, ret. reflexivity. }
  assert (SyncedModel_sign_with env (get_own_device env) stamped (Some (Loaded own)) w1
          = match _hashable_representation signed_ w1 with
            | Raise e => (w1, Raise e)
            | Return text =>
                match crypto_sign env text with
                | None => (w1, Raise CryptoError)
                | Some sg => (w1, Return (set_signature (encode_base64 env sg) signed_))
                end
            end) as Hsign.
  { unfold SyncedModel_sign_with, or_get_own_device, bind, ret, lift_read.
    cbn [option_map deref]. rewrite Hpk. fold signed_.
    destruct (_hashable_representation signed_ w1) as [text|e]; [|reflexivity].
    unfold sign_text. now destruct (crypto_sign env text). }
  unfold bind at 1. rewrite Hsign.
  destruct (_hashable_representation signed_ w1) as [text|e]; [|reflexivity].
  destruct (crypto_sign env text) as [sg|]; [|reflexivity].
  unfold Model_save, write, bind, ret. reflexivity.
Qed.

End LocalSave.

Lemma verify_not_device (env : Env) (r : Instance) (w : World) :
  cls r <> Device -> verify env r w = SyncedModel_verify env r w.
Proof. unfold verify. destruct (cls r); try reflexivity. contradiction. Qed.

(** X3: a record saved locally verifies.  For a record of a class other
    than [Device] whose id starts empty, saved once the own device is
    registered and holds the process's public key: when the signature
    scheme works for that key pair, and the class needs no trusted
    signature or the own device is trusted, [verify] on the saved record
    returns true in the database the save leaves. *)
Theorem local_save_verifies (env : Env) (self own : Instance)
    (own_device : option device_ref) (w : World) (s : string) (u : Uuid.t) :
  metadata_wf w -> own_device_registered w own ->
  id own = VStr s -> Uuid.UUID s = Some u ->
  own_device = None \/ own_device = Some (Loaded own) ->
  cls self <> Device -> truthy (id self) = false ->
  crypto_sound env -> public_key own = own_key env ->
  requires_trusted_signature (cls self) = false
  \/ is_trusted (Device_get_metadata own w) = true ->
  forall w2 r,
    save env self own_device false w = (w2, Return r) ->
    verify env r w2 = (w2, Return true).
Proof.
  intros Hwf Hreg Hid Hu Hown Hcls Hself [Hkeys Hsound] Hkey Htrust w2 r Hsave.
  rewrite (local_save_result env self own own_device w s u Hwf Hreg Hid Hu Hown Hcls Hself)
    in Hsave.
  cbv zeta in Hsave.
  set (c := position own w + 1) in *.
  set (stamped := set_id _ (set_counter c self)) in *.
  set (w0 := fst (Device_increment_and_get_counter own w)) in *.
  set (w1 := fst (Model_save stamped w0)) in *.
  set (signed_ := set_signed_by_id (Some s) stamped) in *.
  destruct (_hashable_representation signed_ w1) as [text|e] eqn:Htext; [|discriminate].
  destruct (crypto_sign env text) as [sg|] eqn:Hsg; [|discriminate].
  inversion Hsave; subst w2 r; clear Hsave.
  destruct (Hsound _ _ Hsg) as [Hcodec Hverify].
  set (r := set_signature (encode_base64 env sg) signed_).
  assert (pk own = s) as Hpk by (unfold pk; now rewrite Hid).
  assert (s <> "") as Hs by now apply UUID_nonempty in Hu.
  assert (cls r = cls self) as Hclsr by reflexivity.
  assert (ModelClass_eqb (cls self) Device = false) as Hne
    by (destruct (cls self); try reflexivity; contradiction).
  (* the signer is still the own device *)
  assert (find_row Device s (fst (Model_save r w1)) = Some own) as Hsigner.
  { rewrite find_row_Model_save, Hclsr, Hne. cbn [andb].
    unfold w1. rewrite find_row_Model_save. change (cls stamped) with (cls self).
    rewrite Hne. cbn [andb].
    unfold w0. rewrite (find_row_same_tables Device s w) by apply tables_increment.
    destruct Hreg as (_ & _ & _ & _ & Hrow). now rewrite <- Hpk. }
  (* and as trusted as before *)
  assert (is_trusted (Device_get_metadata own (fst (Model_save r w1)))
          = is_trusted (Device_get_metadata own w)) as Htr.
  { change (Device_get_metadata own (fst (Model_save r w1)))
      with (Device_get_metadata own w0).
    unfold w0.
    assert (truthy (id own) = true) as Htown.
    { rewrite Hid. cbn. now destruct (String.eqb_spec s ""). }
    rewrite (increment_world own w Htown).
    destruct (metadata_save_get own
                (set_counter_position_field (position own w + 1) (Device_get_metadata own w))
                w Hwf eq_refl eq_refl) as [_ [i ->]].
    reflexivity. }
  assert (_hashable_representation r (fst (Model_save r w1)) = Return text) as Hh.
  { pose proof (hashable_extends signed_ w1 _ text (extends_Model_save r w1) Htext) as H.
    unfold r at 1. now rewrite hashable_set_signature. }
  rewrite verify_not_device by (rewrite Hclsr; exact Hcls).
  assert (SyncedModel_verify env r (fst (Model_save r w1))
          = (fst (Model_save r w1), Return true)) as Hv.
  { rewrite SyncedModel_verify_cases.
    unfold signed_by_present. cbn [signed_by_id r signed_ set_signature set_signed_by_id].
    destruct (String.eqb_spec s ""); [contradiction|]. cbn [negb].
    change (default "" (Some s)) with s. rewrite Hsigner, Htr, Hclsr.
    assert (requires_trusted_signature (cls self)
            && negb (is_trusted (Device_get_metadata own w)) = false) as ->.
    { destruct Htrust as [-> | ->]; [reflexivity | apply andb_false_r]. }
    rewrite Hkey. unfold own_key. rewrite Hkeys, Hh.
    cbn [signature r set_signature]. rewrite Hcodec, Hverify. reflexivity. }
  exact Hv.
Qed.

Lemma local_save_verifies_witness :
  verify example_env (snd example_saved) (fst example_saved)
  = (fst example_saved, Return true).
Proof.
  apply (local_save_verifies example_env (example_facility "School" "") example_device None
           example_world example_device_id 223634324027330276794292788153565448185
           example_world_wf example_device_registered eq_refl eq_refl
           (or_introl eq_refl) ltac:(discriminate) eq_refl example_env_sound eq_refl
           (or_introl eq_refl)).
  vm_compute. reflexivity.
Defined.

(** ** Relations every save keeps *)

Create HintDb stable.

Section Stable.

Context (R : World -> World -> Prop).
Hypothesis R_refl : forall w, R w w.
Hypothesis R_trans : forall w1 w2 w3, R w1 w2 -> R w2 w3 -> R w1 w3.
Hypothesis R_Model_save : forall r w, R w (fst (Model_save r w)).
Hypothesis R_metadata : forall m w, R w (fst (DeviceMetadata_save m w)).
Hypothesis R_urandom : forall w, R w (tick_urandom w).

Lemma stable_read_only {A : Type} (m : M A) : read_only m -> stable R m.
Proof. intros H w. rewrite H. apply R_refl. Qed.

Lemma stable_bind {A B : Type} (m : M A) (k : A -> M B) :
  stable R m -> (forall a, stable R (k a)) -> stable R (bind m k).
Proof.
  intros Hm Hk w. unfold bind. specialize (Hm w).
  destruct (m w) as [w' [a|e]]; cbn [fst] in *; [|exact Hm].
  eapply R_trans; [exact Hm | apply Hk].
Qed.

Lemma stable_Model_save (r : Instance) : stable R (Model_save r).
Proof. intros w. apply R_Model_save. Qed.

Lemma stable_DeviceMetadata_save (m : DeviceMetadata) : stable R (DeviceMetadata_save m).
Proof. intros w. apply R_metadata. Qed.

#[local] Hint Resolve stable_Model_save stable_DeviceMetadata_save : stable.
#[local] Hint Extern 1 (stable _ _) =>
  apply stable_read_only; solve [auto with read_only] : stable.

Ltac stable_step :=
  first
    [ solve [auto with stable]
    | apply stable_bind; [|intros ?]
    | match goal with
      | |- stable _ (if ?b then _ else _) => destruct b
      | |- stable _ (match ?x with _ => _ end) => destruct x
      end ].

Lemma stable_set_counter_position (d : Instance) (n : Z) :
  stable R (Device_set_counter_position d n).
Proof. unfold Device_set_counter_position. repeat stable_step. Qed.

Lemma stable_increment (d : Instance) : stable R (Device_increment_and_get_counter d).
Proof. unfold Device_increment_and_get_counter. repeat stable_step. Qed.

Lemma stable_get_counter (d : Instance) : stable R (Device_get_counter d).
Proof. unfold Device_get_counter. repeat stable_step. Qed.

#[local] Hint Resolve stable_set_counter_position stable_increment stable_get_counter : stable.

Context (env : Env).

Lemma stable_sign_text (text : string) : stable R (sign_text env text).
Proof. unfold sign_text. repeat stable_step. Qed.

Lemma stable_Device_get_uuid (self : Instance) : stable R (Device_get_uuid env self).
Proof.
  unfold Device_get_uuid. destruct (String.eqb (public_key self) ""); [|repeat stable_step].
  intros w. apply R_urandom.
Qed.

Lemma stable_verify (self : Instance) : stable R (verify env self).
Proof. apply stable_read_only, read_only_verify. Qed.

#[local] Hint Resolve stable_sign_text stable_Device_get_uuid stable_verify : stable.

Section WithOwn.

Variable own : M (option Instance).
Hypothesis own_stable : stable R own.

Lemma stable_or_own (d : option device_ref) : stable R (or_get_own_device own d).
Proof. unfold or_get_own_device. repeat stable_step. Qed.

#[local] Hint Resolve stable_or_own : stable.

Lemma stable_sign (self : Instance) (d : option device_ref) :
  stable R (SyncedModel_sign_with env own self d).
Proof. unfold SyncedModel_sign_with. repeat stable_step. Qed.

Lemma stable_get_uuid (self : Instance) : stable R (get_uuid_with env own self).
Proof. unfold get_uuid_with, SyncedModel_get_uuid_with. repeat stable_step. Qed.

#[local] Hint Resolve stable_sign stable_get_uuid : stable.

Lemma stable_SyncedModel_save (self : Instance) (d : option device_ref) (imported : bool) :
  stable R (SyncedModel_save_with env own self d imported).
Proof. unfold SyncedModel_save_with. repeat stable_step. Qed.

#[local] Hint Resolve stable_SyncedModel_save : stable.

Lemma stable_Device_save (self : Instance) (t : bool) (d : option device_ref)
    (imported : bool) :
  stable R (Device_save_with env own self t d imported).
Proof. unfold Device_save_with. repeat stable_step. Qed.

End WithOwn.

Lemma stable_initialize_own_device (init : Instance) :
  stable R (initialize_own_device env init).
Proof.
  assert (stable R (@raise (option Instance) RuntimeError)) as Hr
    by (apply stable_read_only, read_only_raise).
  pose proof (stable_sign _ Hr). pose proof (stable_Device_save _ Hr).
  unfold initialize_own_device. cbv zeta. repeat stable_step.
Qed.

Lemma stable_get_own_device : stable R (get_own_device env).
Proof.
  pose proof stable_initialize_own_device.
  unfold get_own_device. repeat stable_step.
Qed.

Lemma stable_save (self : Instance) (d : option device_ref) (imported : bool) :
  stable R (save env self d imported).
Proof.
  pose proof (stable_SyncedModel_save _ stable_get_own_device).
  pose proof (stable_Device_save _ stable_get_own_device).
  unfold save, save_with. repeat stable_step.
Qed.

Lemma stable_import_model (st : import_state) (model : Instance) :
  stable R (import_model env st model).
Proof.
  intros w. unfold import_model. pose proof (stable_save model None true w) as H.
  destruct (save env model None true w) as [w' [r|e]]; cbn [fst] in *; [exact H|].
  destruct e; exact H.
Qed.

Lemma stable_foldM {A B : Type} (f : A -> B -> M A) (l : list B) (a : A) :
  (forall a x, stable R (f a x)) -> stable R (foldM f l a).
Proof.
  intros Hf. revert a. induction l as [|x l IH]; intros a; cbn [foldM].
  - intros w. apply R_refl.
  - apply stable_bind; [apply Hf | intros a'; apply IH].
Qed.

End Stable.

Lemma same_purgatory_save (env : Env) (self : Instance) (d : option device_ref)
    (imported : bool) :
  stable same_purgatory (save env self d imported).
Proof.
  apply stable_save; unfold same_purgatory.
  - intros w. now split.
  - intros w1 w2 w3 [H1 H1'] [H2 H2']. split; congruence.
  - intros r w. now split.
  - intros m w. unfold DeviceMetadata_save, write. destruct (dm_pk m); now split.
  - intros w. now split.
Qed.

Lemma extends_save (env : Env) (self : Instance) (d : option device_ref) (imported : bool) :
  stable extends (save env self d imported).
Proof.
  apply stable_save.
  - apply extends_refl.
  - apply extends_trans.
  - apply extends_Model_save.
  - intros m w. apply extends_same_tables. intros c. apply tables_DeviceMetadata_save.
  - intros w. apply extends_same_tables. intros c. now destruct c.
Qed.

(** ** Imports that fail *)

Lemma chunks_raise (self : Instance) (fields : list string) (w : World) (f : string) (e : exn) :
  In f fields -> getattr self f w = Raise e ->
  exists e', chunks self fields w = Raise e'.
Proof.
  induction fields as [|g rest IH]; intros Hin Hraise; [destruct Hin|].
  cbn [chunks]. destruct (getattr self g w) as [v|e0] eqn:Hg; [|now eexists].
  destruct Hin as [->|Hin]; [congruence|].
  destruct (IH Hin Hraise) as [e' ->]. now eexists.
Qed.

Lemma own_fields_hashed (c : ModelClass) (f : string) :
  c <> Device -> In f (own_fields c) ->
  In f (hashed_fields c []) /\ mem f base_fields = false.
Proof.
  intros Hc Hin. destruct c; try contradiction; cbn [own_fields] in Hin;
    repeat (destruct Hin as [<-|Hin]; [split; [vm_compute; tauto | reflexivity]|]);
    destruct Hin.
Qed.

Lemma getattr_dangling (self : Instance) (f : string) (target : ModelClass) (k : string)
    (w : World) :
  mem f base_fields = false ->
  assoc f (attrs self) = Some (ForeignKey target (Some k)) ->
  find_row target k w = None ->
  getattr self f w = Raise (DoesNotExist target).
Proof.
  intros Hbase Hattr Hrow. unfold getattr. cbn [mem existsb base_fields] in Hbase.
  repeat (apply orb_false_iff in Hbase; destruct Hbase as [? Hbase]).
  repeat match goal with H : String.eqb _ _ = false |- _ => rewrite H; clear H end.
  rewrite Hattr. unfold related. now rewrite Hrow.
Qed.

(** X4: a record that refers to a row which is not there is turned away,
    not lost.  When a record of a class other than [Device] is imported
    whose signer is a stored device with a readable key, trusted where the
    class requires it, and one of the record's own foreign keys names a row
    missing from the database, [save] raises the validation error of a
    signature mismatch, for any signature, and writes nothing. *)
Theorem import_with_missing_reference (env : Env) (self signer : Instance)
    (own_device : option device_ref) (own : device_ref) (w w1 : World)
    (f : string) (target : ModelClass) (k : string) (key : Key env) :
  or_get_own_device (get_own_device env) own_device w = (w1, Return (Some own)) ->
  cls self <> Device ->
  signed_by_present self = true ->
  find_row Device (default "" (signed_by_id self)) w1 = Some signer ->
  deserialize_public_key env (public_key signer) = Some key ->
  requires_trusted_signature (cls self) = false
  \/ is_trusted (Device_get_metadata signer w1) = true ->
  In f (own_fields (cls self)) ->
  assoc f (attrs self) = Some (ForeignKey target (Some k)) ->
  find_row target k w1 = None ->
  save env self own_device true w
  = (w1, Raise (ValidationError "Imported model's signature did not match.")).
Proof.
  intros Hown Hcls Hp Hsigner Hkey Htrust Hin Hattr Hrow.
  rewrite (imported_save_unfold env self own_device w w1 own Hown), Hp. cbn [negb].
  rewrite verify_not_device by exact Hcls.
  rewrite SyncedModel_verify_cases, Hp, Hsigner, Hkey. cbn [negb snd].
  assert (requires_trusted_signature (cls self)
          && negb (is_trusted (Device_get_metadata signer w1)) = false) as ->.
  { destruct Htrust as [-> | ->]; [reflexivity | apply andb_false_r]. }
  destruct (own_fields_hashed (cls self) f Hcls Hin) as [Hhashed Hbase].
  destruct (chunks_raise self _ w1 f _ Hhashed
              (getattr_dangling self f target k w1 Hbase Hattr Hrow)) as [e He].
  assert (exists e', _hashable_representation self w1 = Raise e') as [e' ->].
  { unfold _hashable_representation, SyncedModel__hashable_representation.
    destruct (cls self); try contradiction; rewrite He; now eexists. }
  reflexivity.
Qed.

Lemma import_with_missing_reference_witness :
  save example_env example_dangling_group None true example_world
  = (example_world, Raise (ValidationError "Imported model's signature did not match.")).
Proof.
  apply (import_with_missing_reference example_env example_dangling_group example_device
           None (Loaded example_device) example_world example_world
           "facility" Facility "22222222222222222222222222222222" "pubkey-A");
    try (vm_compute; reflexivity); try discriminate.
  - left. reflexivity.
  - cbn. tauto.
Defined.

Lemma foldM_import_aborts (env : Env) (models : list Instance) (st : import_state)
    (w : World) (model : Instance) (e : exn) :
  In (model, Raise e) (fst (import_outcomes env models w)) ->
  rejected (Raise e) = None ->
  foldM (import_model env) models st w = (snd (import_outcomes env models w), Raise e).
Proof.
  revert st w. induction models as [|m rest IH]; intros st w Hin Hrej; [destruct Hin|].
  cbn [import_outcomes foldM] in *. unfold bind at 1. unfold import_model at 1.
  destruct (save env m None true w) as [w' [r|e0]].
  - destruct (import_outcomes env rest w') as [os w''] eqn:Hos. cbn [fst snd] in *.
    destruct Hin as [Hin|Hin]; [discriminate|].
    specialize (IH {| unsaved_models := unsaved_models st; exceptions := exceptions st;
                      saved := saved st + 1 |} w').
    rewrite Hos in IH. now apply IH.
  - destruct e0;
      try (cbn [fst snd In] in *; destruct Hin as [Hin|[]]; now inversion Hin).
    destruct (import_outcomes env rest w') as [os w''] eqn:Hos. cbn [fst snd] in *.
    destruct Hin as [Hin|Hin]; [inversion Hin; subst; discriminate|].
    match goal with |- foldM _ _ ?s _ = _ => specialize (IH s w') end.
    rewrite Hos in IH. now apply IH.
Qed.

(** X5: an exception of [save] that is not a validation error leaves
    [save_serialized_models] at once.  If the import of some record of the
    batch ends with such an exception, the whole call ends with that
    exception in the database the failed import left; the records after it
    are not tried, and the purgatory table is what it was before the call,
    so nothing of the batch is kept for a later retry. *)
Theorem import_aborts_without_purgatory (env : Env) (data : import_data) (w : World)
    (model : Instance) (e : exn) :
  In (model, Raise e) (fst (import_outcomes env (fst (deserialize env data)) w)) ->
  rejected (Raise e) = None ->
  let w' := snd (import_outcomes env (fst (deserialize env data)) w) in
  save_serialized_models env data w = (w', Raise e)
  /\ import_purgatory w' = import_purgatory w
  /\ purgatory_next_pk w' = purgatory_next_pk w.
Proof.
  intros Hin Hrej w'. subst w'.
  assert (save_serialized_models env data w
          = (snd (import_outcomes env (fst (deserialize env data)) w), Raise e)) as Hs.
  { unfold save_serialized_models. destruct (deserialize env data) as [models err].
    cbn [fst] in *. unfold bind at 1.
    now rewrite (foldM_import_aborts env models _ w model e Hin Hrej). }
  split; [exact Hs|].
  assert (stable same_purgatory
            (foldM (import_model env) (fst (deserialize env data))
               {| unsaved_models := []; exceptions := ""; saved := 0 |})) as H.
  { apply stable_foldM.
    - intros ?. split; reflexivity.
    - intros w1 w2 w3 [H1 H2] [H3 H4]. split; congruence.
    - intros a x w0. unfold import_model.
      pose proof (same_purgatory_save env x None true w0) as Hx.
      destruct (save env x None true w0) as [w1 [r|e0]]; cbn [fst] in *;
        [exact Hx|destruct e0; exact Hx]. }
  specialize (H w).
  rewrite (foldM_import_aborts env _ _ w model e Hin Hrej) in H. exact H.
Qed.

Lemma import_aborts_without_purgatory_witness :
  save_serialized_models example_env
    (FromPython [example_facility "School" ""; example_orphan; example_dangling_group] None)
    example_world
  = (example_world, Raise (DoesNotExist Device))
  /\ import_purgatory example_world = import_purgatory example_world
  /\ purgatory_next_pk example_world = purgatory_next_pk example_world.
Proof.
  apply (import_aborts_without_purgatory example_env
           (FromPython [example_facility "School" ""; example_orphan; example_dangling_group]
              None)
           example_world example_orphan (DoesNotExist Device)).
  - vm_compute. tauto.
  - reflexivity.
Defined.

(** ** Importing a record a second time *)

Lemma upsert_idem (r : Instance) (rows : list Instance) :
  upsert r (upsert r rows) = upsert r rows.
Proof.
  induction rows as [|x rest IH]; cbn [upsert].
  - now rewrite String.eqb_refl.
  - destruct (String.eqb (pk x) (pk r)) eqn:Hx; cbn [upsert].
    + now rewrite String.eqb_refl.
    + now rewrite Hx, IH.
Qed.

Lemma set_table_same (c : ModelClass) (w : World) : set_table c (table c w) w = w.
Proof. destruct w, c; reflexivity. Qed.

Lemma Model_save_again (r : Instance) (w w' : World) :
  table (cls r) w' = table (cls r) (fst (Model_save r w)) ->
  fst (Model_save r w') = w'.
Proof.
  intros Ht. unfold Model_save, write in *. cbn [fst] in *.
  rewrite table_set_table in Ht.
  assert (ModelClass_eqb (cls r) (cls r) = true) as Hc by now destruct (cls r).
  rewrite Hc in Ht. rewrite Ht, upsert_idem, <- Ht. apply set_table_same.
Qed.

Lemma get_metadata_Model_save (d r : Instance) (w : World) :
  Device_get_metadata d (fst (Model_save r w)) = Device_get_metadata d w.
Proof. unfold Device_get_metadata. now rewrite metadata_Model_save. Qed.

Lemma is_trusted_set_counter_position (d : Instance) (n : Z) (w : World) :
  metadata_wf w ->
  is_trusted (Device_get_metadata d (fst (Device_set_counter_position d n w)))
  = is_trusted (Device_get_metadata d w).
Proof.
  intros Hwf. unfold Device_set_counter_position, bind, read, ret.
  destruct (truthy (id d)); cbn [negb fst]; [|reflexivity].
  destruct (counter_position (Device_get_metadata d w) <? n); [|reflexivity].
  destruct (metadata_save_get d (set_counter_position_field n (Device_get_metadata d w)) w
              Hwf eq_refl eq_refl) as [_ [i ->]].
  reflexivity.
Qed.

Lemma set_counter_position_again (d : Instance) (n : Z) (w : World) :
  metadata_wf w ->
  let w' := fst (Device_set_counter_position d n w) in
  Device_set_counter_position d n w' = (w', Return tt).
Proof.
  intros Hwf w'. destruct (set_counter_position_spec d n w Hwf) as (_ & Hpos & Hsame).
  fold w' in Hpos, Hsame.
  unfold Device_set_counter_position at 1. unfold bind, read, ret.
  destruct (truthy (id d)); cbn [negb]; [|reflexivity].
  specialize (Hpos eq_refl). unfold position in Hpos.
  assert ((counter_position (Device_get_metadata d w') <? n) = false) as ->
    by (apply Z.ltb_ge; lia).
  reflexivity.
Qed.

Lemma registered_after_set_counter_position (d own : Instance) (n : Z) (w : World) :
  metadata_wf w -> own_device_registered w own ->
  own_device_registered (fst (Device_set_counter_position d n w)) own.
Proof.
  intros Hwf Hreg. unfold Device_set_counter_position, bind, read, ret.
  destruct (truthy (id d)); cbn [negb fst]; [|exact Hreg].
  destruct (counter_position (Device_get_metadata d w) <? n); [|exact Hreg].
  destruct Hreg as (m & rest & Hf & Hid & Hrow).
  unfold Device_get_metadata.
  destruct (List.find (metadata_of (pk d)) (device_metadata w)) as [m0|] eqn:Hfind.
  - destruct (find_first _ _ _ Hfind) as (i & Hi & _ & _).
    unfold DeviceMetadata_save, write. cbn [set_counter_position_field dm_pk].
    rewrite (Hwf i m0 Hi). cbn [fst].
    destruct (filter_insert_head is_own_device (fun x => device_id x = Some (pk own))
                (device_metadata w) i m0 (set_counter_position_field n m0) Hi eq_refl
                (fun H => H)) as (m' & rest' & Hf' & Hid'); [eauto|].
    exists m', rest'. split; [exact Hf'|]. split; [exact Hid'|].
    now rewrite find_row_set_device_metadata.
  - unfold DeviceMetadata_save, write. cbn [set_counter_position_field dm_pk fst].
    exists m, rest. split; [|split; [exact Hid|now rewrite find_row_set_device_metadata]].
    cbn [device_metadata set_device_metadata].
    rewrite List.filter_app, Hf. cbn [List.filter with_dm_pk is_own_device].
    now rewrite app_nil_r.
Qed.

Lemma registered_after_Model_save (r own : Instance) (w : World) :
  own_device_registered w own ->
  exists own', own_device_registered (fst (Model_save r w)) own'.
Proof.
  intros (m & rest & Hf & Hid & Hrow).
  destruct (find_row Device (pk own) (fst (Model_save r w))) as [own'|] eqn:Hrow'.
  - exists own'. exists m, rest. rewrite metadata_Model_save.
    rewrite (find_row_pk _ _ _ _ Hrow'). auto.
  - rewrite find_row_Model_save in Hrow'.
    destruct (ModelClass_eqb (cls r) Device && String.eqb (pk r) (pk own)); congruence.
Qed.

Section Reimport.

Context (env : Env).

Lemma Device_verify_extends (self : Instance) (w w' : World) :
  extends w w' ->
  snd (Device_verify env self w) = Return true ->
  snd (Device_verify env self w') = Return true.
Proof.
  intros He. unfold Device_verify.
  destruct (signed_by_self self); cbn [negb]; [|discriminate].
  unfold Device_get_public_key, try_except, check_signature, bind, lift_read, raise, ret.
  destruct (deserialize_public_key env (public_key self)) as [key|];
    [|cbn; intros; discriminate].
  destruct (_hashable_representation self w) as [text|e] eqn:Hh; [|cbn; intros; discriminate].
  rewrite (hashable_extends self w w' text He Hh).
  destruct (decode_base64 env (signature self)) as [sg|]; [|cbn; intros; discriminate].
  destruct (crypto_verify env text sg key) as [b|]; [|cbn; intros; discriminate].
  trivial.
Qed.

Lemma verify_after_import (self signer : Instance) (w : World) :
  metadata_wf w ->
  snd (verify env self w) = Return true ->
  find_row Device (default "" (signed_by_id self)) (fst (Model_save self w)) = Some signer ->
  snd (verify env self
         (fst (Device_set_counter_position signer (counter self) (fst (Model_save self w)))))
  = Return true.
Proof.
  intros Hwf Hv Hsigner.
  set (wm := fst (Model_save self w)) in *.
  set (w2 := fst (Device_set_counter_position signer (counter self) wm)).
  assert (extends w w2) as He.
  { apply (extends_trans w wm w2); [apply extends_Model_save|].
    apply extends_same_tables. intros c. apply tables_set_counter_position. }
  destruct (ModelClass_eqb (cls self) Device) eqn:Hc.
  - assert (cls self = Device) as Hd by (destruct (cls self); try discriminate; reflexivity).
    unfold verify in *. rewrite Hd in *. now apply (Device_verify_extends self w w2).
  - assert (cls self <> Device) as Hd by (intros H; rewrite H in Hc; discriminate).
    rewrite verify_not_device in * by exact Hd.
    rewrite SyncedModel_verify_cases in *. cbn [snd] in *.
    destruct (signed_by_present self); cbn [negb] in *; [|discriminate].
    assert (find_row Device (default "" (signed_by_id self)) w = Some signer) as Hs.
    { unfold wm in Hsigner. rewrite find_row_Model_save, Hc in Hsigner. exact Hsigner. }
    assert (find_row Device (default "" (signed_by_id self)) w2 = Some signer) as ->.
    { unfold w2. rewrite (find_row_same_tables _ _ wm); [exact Hsigner|].
      apply tables_set_counter_position. }
    rewrite Hs in Hv.
    assert (is_trusted (Device_get_metadata signer w2)
            = is_trusted (Device_get_metadata signer w)) as ->.
    { unfold w2. rewrite is_trusted_set_counter_position
        by (apply preserves_wf_Model_save; exact Hwf).
      unfold wm. now rewrite get_metadata_Model_save. }
    destruct (requires_trusted_signature (cls self)
              && negb (is_trusted (Device_get_metadata signer w))); [discriminate|].
    destruct (deserialize_public_key env (public_key signer)) as [key|]; [|discriminate].
    destruct (_hashable_representation self w) as [text|e] eqn:Hh; [|discriminate].
    now rewrite (hashable_extends self w w2 text He Hh).
Qed.

(** X6: importing a record twice changes nothing the second time.  When an
    imported [save] returns, on a database where the own device is
    registered or with the own device passed in, saving the same record
    in imported mode again, in the database the first save left, returns
    the record again and leaves that database exactly as it is: the row is
    rewritten with the same content and the signer's counter position does
    not move. *)
Theorem import_twice (self : Instance) (own_device : option device_ref) (w w2 : World)
    (r : Instance) :
  metadata_wf w ->
  own_device <> None \/ (exists d, own_device_registered w d) ->
  save env self own_device true w = (w2, Return r) ->
  save env self own_device true w2 = (w2, Return r).
Proof.
  intros Hwf Hown Hsave.
  destruct (or_get_own_device (get_own_device env) own_device w) as [w1 o] eqn:Hor.
  assert (w1 = w) as -> by exact (or_get_own_device_same env own_device w w1 o Hor Hown).
  destruct o as [[own|]|e].
  2:{ rewrite save_is_SyncedModel_save in Hsave.
      unfold SyncedModel_save, SyncedModel_save_with, bind in Hsave.
      rewrite Hor in Hsave. discriminate. }
  2:{ rewrite save_is_SyncedModel_save in Hsave.
      unfold SyncedModel_save, SyncedModel_save_with, bind in Hsave.
      rewrite Hor in Hsave. discriminate. }
  rewrite (imported_save_unfold env self own_device w w own Hor) in Hsave.
  destruct (signed_by_present self) eqn:Hp; cbn [negb] in Hsave; [|discriminate].
  destruct (snd (verify env self w)) as [[|]|e] eqn:Hv; try discriminate.
  cbv zeta in Hsave.
  destruct (find_row Device (default "" (signed_by_id self)) (fst (Model_save self w)))
    as [signer|] eqn:Hsigner; [|discriminate].
  assert (fst (Device_set_counter_position signer (counter self) (fst (Model_save self w)))
          = w2 /\ self = r) as [Hw2 <-]
    by (injection Hsave as H1 H2; split; [exact H1 | exact H2]).
  assert (metadata_wf (fst (Model_save self w))) as Hwfm
    by (apply preserves_wf_Model_save; exact Hwf).
  assert (forall c, table c w2 = table c (fst (Model_save self w))) as Htables
    by (intros c; rewrite <- Hw2; apply tables_set_counter_position).
  assert (exists own2,
            or_get_own_device (get_own_device env) own_device w2 = (w2, Return (Some own2)))
    as [own2 Hor2].
  { destruct own_device as [d|]; [now exists d|].
    destruct Hown as [Hn|[d Hreg]]; [congruence|].
    destruct (registered_after_Model_save self d w Hreg) as [d' Hreg'].
    pose proof (registered_after_set_counter_position signer d' (counter self) _ Hwfm Hreg')
      as Hreg2.
    rewrite Hw2 in Hreg2. exists (Loaded d'). unfold or_get_own_device.
    now rewrite (bind_return _ _ _ _ _ (get_own_device_registered env w2 d' Hreg2)). }
  rewrite (imported_save_unfold env self own_device w2 w2 own2 Hor2), Hp. cbn [negb].
  pose proof (verify_after_import self signer w Hwf Hv Hsigner) as Hv2.
  rewrite Hw2 in Hv2. rewrite Hv2. cbv zeta.
  rewrite (Model_save_again self w w2 (Htables (cls self))).
  rewrite (find_row_same_tables _ _ (fst (Model_save self w)) w2 (Htables Device)), Hsigner.
  pose proof (set_counter_position_again signer (counter self) _ Hwfm) as Hagain.
  cbv zeta in Hagain. rewrite Hw2 in Hagain. now rewrite Hagain.
Qed.

End Reimport.

Lemma import_twice_witness :
  save example_env (snd example_saved) None true
    (fst (save example_env (snd example_saved) None true example_world))
  = (fst (save example_env (snd example_saved) None true example_world),
     Return (snd example_saved)).
Proof.
  apply (import_twice example_env (snd example_saved) None example_world).
  - apply example_world_wf.
  - right. exists example_device. apply example_device_registered.
  - vm_compute. reflexivity.
Defined.

(** ** The batch selection of [get_serialized_models] *)

Lemma foldM_app {A B : Type} (f : A -> B -> M A) (l1 l2 : list B) (a : A) (w : World) :
  foldM f (l1 ++ l2) a w = bind (foldM f l1 a) (foldM f l2) w.
Proof.
  revert a w. induction l1 as [|x l1 IH]; intros a w; [reflexivity|].
  cbn [foldM app]. unfold bind.
  destruct (f a x w) as [w' [a'|e]]; [|reflexivity]. rewrite IH. reflexivity.
Qed.

Lemma foldM_map {A B C : Type} (f : A -> B -> M A) (h : C -> B) (l : list C) (a : A)
    (w : World) :
  foldM f (List.map h l) a w = foldM (fun a x => f a (h x)) l a w.
Proof.
  revert a w. induction l as [|x l IH]; intros a w; [reflexivity|].
  cbn [foldM List.map]. unfold bind.
  destruct (f a (h x) w) as [w' [a'|e]]; [|reflexivity]. apply IH.
Qed.

Lemma foldM_nested {A B C : Type} (f : C -> A -> B -> M A) (outer : list C) (inner : list B)
    (a : A) (w : World) :
  foldM (fun acc c => foldM (f c) inner acc) outer a w
  = foldM (fun acc p => f (fst p) acc (snd p))
      (List.flat_map (fun c => List.map (pair c) inner) outer) a w.
Proof.
  revert a w. induction outer as [|c outer IH]; intros a w; [reflexivity|].
  cbn [foldM List.flat_map]. rewrite foldM_app. unfold bind. rewrite foldM_map.
  cbn [fst snd].
  destruct (foldM (fun a0 x => f c a0 x) inner a w) as [w' [a'|e]] eqn:H.
  - apply IH.
  - reflexivity.
Qed.

Lemma select_for_device_spec (zone : option string) (limit boost : Z) (Model : ModelClass)
    (models : list Instance) (remaining : bool) (k : string) (c : Z) (w : World) :
  select_for_device zone limit boost Model (models, remaining) (k, c) w
  = (w, match candidates zone Model k w with
        | Raise e => Raise e
        | Return q =>
            Return (models ++ window limit boost (c, q),
                    remaining || beyond limit boost (c, q))
        end).
Proof.
  unfold select_for_device, candidates, bind, read, ret, objects_get.
  destruct (find_row Device k w) as [device|]; [|reflexivity].
  rewrite (read_only_run _ w (read_only_in_zone device zone)).
  destruct (snd (Device_in_zone device zone w)) as [in_zone|e]; [|reflexivity].
  unfold window, beyond. cbn [fst snd].
  destruct in_zone; cbn [negb andb].
  - destruct remaining; cbn [negb andb orb]; [reflexivity|].
    now destruct (existsb _ _).
  - destruct (is_trusted (Device_get_metadata device w)); cbn [negb].
    + destruct remaining; cbn [negb andb orb]; [reflexivity|].
      now destruct (existsb _ _).
    + cbn [List.filter existsb]. now rewrite app_nil_r, orb_false_r.
Qed.

Lemma round_spec (zone : option string) (limit boost : Z)
    (pairs : list (ModelClass * (string * Z))) (models : list Instance) (remaining : bool)
    (w : World) :
  foldM (fun acc p => select_for_device zone limit boost (fst p) acc (snd p)) pairs
    (models, remaining) w
  = (w, match collect zone pairs w with
        | Raise e => Raise e
        | Return qs =>
            Return (models ++ List.concat (List.map (window limit boost) qs),
                    remaining || existsb (beyond limit boost) qs)
        end).
Proof.
  revert models remaining.
  induction pairs as [|[Model [k c]] rest IH]; intros models remaining; cbn [foldM collect].
  - cbn [List.map List.concat existsb]. now rewrite app_nil_r, orb_false_r.
  - unfold bind. cbn [fst snd]. rewrite select_for_device_spec.
    destruct (candidates zone Model k w) as [q|e]; [|reflexivity].
    rewrite IH. destruct (collect zone rest w) as [qs|e]; [|reflexivity].
    cbn [List.map List.concat existsb]. now rewrite <- app_assoc, orb_assoc.
Qed.

(** One turn of the [while] loop. *)
Lemma select_models_step (fuel : nat) (zone : option string) (dc : dict) (limit boost : Z)
    (w : World) :
  select_models (S fuel) zone dc limit boost [] w
  = match collect zone (round_pairs dc) w with
    | Raise e => (w, Raise e)
    | Return qs =>
        let models := List.concat (List.map (window limit boost) qs) in
        if (0 <? List.length models)%nat || negb (existsb (beyond limit boost) qs)
        then (w, Return (Some models))
        else select_models fuel zone dc limit (boost + limit) [] w
    end.
Proof.
  cbn [select_models]. unfold bind at 1. rewrite foldM_nested.
  fold (round_pairs dc). rewrite round_spec.
  destruct (collect zone (round_pairs dc) w) as [qs|e]; [|reflexivity].
  cbn [app orb]. cbv zeta.
  destruct (List.concat (List.map (window limit boost) qs)) as [|m ms] eqn:Hm.
  - cbn [List.length Nat.ltb Nat.leb orb].
    now destruct (existsb (beyond limit boost) qs).
  - reflexivity.
Qed.

(** *** The first loop: dropping foreign devices *)

Lemma drop_step_spec (zone : option string) (d : dict) (k : string) (w : World) :
  (device <- read (find_row Device k) ;;
   match device with
   | None => ret (dict_del k d)
   | Some device =>
       in_zone <- Device_in_zone device zone ;;
       metadata <- read (Device_get_metadata device) ;;
       if negb (in_zone || is_trusted metadata) then ret (dict_del k d) else ret d
   end)%py w
  = (w, match kept zone w k with
        | Raise e => Raise e
        | Return b => Return (if b then d else dict_del k d)
        end).
Proof.
  unfold kept, bind, read, ret.
  destruct (find_row Device k w) as [device|]; [|reflexivity].
  rewrite (read_only_run _ w (read_only_in_zone device zone)).
  destruct (snd (Device_in_zone device zone w)) as [in_zone|e]; [|reflexivity].
  cbn [snd]. now destruct (in_zone || is_trusted (Device_get_metadata device w)).
Qed.

Lemma filter_drop_step (zone : option string) (w : World) (k : string) (ks : list string)
    (d : dict) :
  List.filter (fun p => if mem (fst p) ks then keeps zone w (fst p) else true)
    (if keeps zone w k then d else dict_del k d)
  = List.filter (fun p => if mem (fst p) (k :: ks) then keeps zone w (fst p) else true) d.
Proof.
  unfold mem. cbn [existsb].
  destruct (keeps zone w k) eqn:Hk.
  - apply List.filter_ext. intros p.
    destruct (String.eqb (fst p) k) eqn:Hp; cbn [orb]; [|reflexivity].
    apply String.eqb_eq in Hp. rewrite Hp, Hk. now destruct (existsb _ ks).
  - unfold dict_del. induction d as [|p d IH]; [reflexivity|]. cbn [List.filter].
    destruct (String.eqb (fst p) k) eqn:Hp; cbn [negb orb].
    + apply String.eqb_eq in Hp. rewrite Hp, Hk. exact IH.
    + cbn [List.filter]. destruct (existsb (String.eqb (fst p)) ks);
        [destruct (keeps zone w (fst p))|]; now rewrite IH.
Qed.

Lemma drop_keys_run (zone : option string) (ks : list string) (d : dict) (w : World) :
  (forall k, In k ks -> exists b, kept zone w k = Return b) ->
  foldM
    (fun (device_counters : dict) (device_id : string) =>
       device <- read (find_row Device device_id) ;;
       match device with
       | None => ret (dict_del device_id device_counters)
       | Some device =>
           in_zone <- Device_in_zone device zone ;;
           metadata <- read (Device_get_metadata device) ;;
           if negb (in_zone || is_trusted metadata)
           then ret (dict_del device_id device_counters)
           else ret device_counters
       end)%py ks d w
  = (w, Return (List.filter
                  (fun p => if mem (fst p) ks then keeps zone w (fst p) else true) d)).
Proof.
  revert d. induction ks as [|k ks IH]; intros d Hok; cbn [foldM].
  - unfold ret. f_equal. f_equal. induction d as [|p d IHd]; [reflexivity|].
    cbn [List.filter mem existsb]. unfold mem in IHd. cbn [existsb] in IHd. now rewrite <- IHd.
  - unfold bind at 1. rewrite drop_step_spec.
    destruct (Hok k (or_introl eq_refl)) as [b Hb]. rewrite Hb.
    rewrite IH by (intros k' Hk'; apply Hok; now right).
    assert (b = keeps zone w k) as -> by (unfold keeps; now rewrite Hb).
    now rewrite filter_drop_step.
Qed.

Lemma drop_keys_inv (zone : option string) (ks : list string) (d d' : dict) (w w' : World) :
  foldM
    (fun (device_counters : dict) (device_id : string) =>
       device <- read (find_row Device device_id) ;;
       match device with
       | None => ret (dict_del device_id device_counters)
       | Some device =>
           in_zone <- Device_in_zone device zone ;;
           metadata <- read (Device_get_metadata device) ;;
           if negb (in_zone || is_trusted metadata)
           then ret (dict_del device_id device_counters)
           else ret device_counters
       end)%py ks d w
  = (w', Return d') ->
  forall k, In k ks -> exists b, kept zone w k = Return b.
Proof.
  revert d. induction ks as [|k ks IH]; intros d Hrun k' Hin; [destruct Hin|].
  cbn [foldM] in Hrun. unfold bind at 1 in Hrun. rewrite drop_step_spec in Hrun.
  destruct (kept zone w k) as [b|e] eqn:Hb; [|discriminate].
  destruct Hin as [<-|Hin]; [now exists b|]. exact (IH _ Hrun k' Hin).
Qed.

Lemma drop_foreign_devices_run (zone : option string) (dc : dict) (w : World) :
  (forall k c, In (k, c) dc -> exists b, kept zone w k = Return b) ->
  drop_foreign_devices zone dc w
  = (w, Return (List.filter (fun p => keeps zone w (fst p)) dc)).
Proof.
  intros Hok. unfold drop_foreign_devices. rewrite drop_keys_run.
  - f_equal. f_equal. apply List.filter_ext_in. intros p Hp.
    assert (mem (fst p) (List.map fst dc) = true) as ->; [|reflexivity].
    unfold mem. apply existsb_exists. exists (fst p).
    split; [now apply List.in_map | apply String.eqb_refl].
  - intros k Hk. apply List.in_map_iff in Hk. destruct Hk as [[k' c] [<- Hin]].
    exact (Hok k' c Hin).
Qed.

Lemma drop_foreign_devices_inv (zone : option string) (dc dc' : dict) (w w' : World) :
  drop_foreign_devices zone dc w = (w', Return dc') ->
  w' = w /\ dc' = List.filter (fun p => keeps zone w (fst p)) dc.
Proof.
  intros Hrun.
  assert (forall k c, In (k, c) dc -> exists b, kept zone w k = Return b) as Hok.
  { intros k c Hin. unfold drop_foreign_devices in Hrun.
    apply (drop_keys_inv zone _ _ _ _ _ Hrun k).
    apply List.in_map_iff. now exists (k, c). }
  rewrite (drop_foreign_devices_run zone dc w Hok) in Hrun. now inversion Hrun.
Qed.

(** *** What the visits of a round look at *)

Lemma in_round_pairs (dc : dict) (Model : ModelClass) (k : string) (c : Z) :
  In (Model, (k, c)) (round_pairs dc) <-> In Model syncing_models /\ In (k, c) dc.
Proof.
  unfold round_pairs. rewrite List.in_flat_map. split.
  - intros [M [HM Hin]]. apply List.in_map_iff in Hin. destruct Hin as [p [Hp Hin]].
    inversion Hp; subst. auto.
  - intros [HM Hin]. exists Model. split; [exact HM|].
    apply List.in_map_iff. now exists (k, c).
Qed.

Lemma collect_In (zone : option string) (pairs : list (ModelClass * (string * Z)))
    (w : World) (qs : list (Z * list Instance)) :
  collect zone pairs w = Return qs ->
  (forall c q, In (c, q) qs ->
     exists Model k, In (Model, (k, c)) pairs /\ candidates zone Model k w = Return q)
  /\ (forall Model k c, In (Model, (k, c)) pairs ->
        exists q, candidates zone Model k w = Return q /\ In (c, q) qs).
Proof.
  revert qs. induction pairs as [|[M [k0 c0]] rest IH]; intros qs Hc; cbn [collect] in Hc.
  - inversion Hc; subst. split; [intros ? ? []|intros ? ? ? []].
  - destruct (candidates zone M k0 w) as [q0|e] eqn:Hq; [|discriminate].
    destruct (collect zone rest w) as [qs0|e]; [|discriminate].
    inversion Hc; subst. destruct (IH qs0 eq_refl) as [IH1 IH2]. split.
    + intros c q [Heq|Hin].
      * inversion Heq; subst. exists M, k0. split; [now left|exact Hq].
      * destruct (IH1 c q Hin) as (M' & k' & Hin' & Hq'). exists M', k'.
        split; [now right|exact Hq'].
    + intros M' k' c' [Heq|Hin].
      * inversion Heq; subst. exists q0. split; [exact Hq|now left].
      * destruct (IH2 M' k' c' Hin) as (q & Hq' & Hin'). exists q.
        split; [exact Hq'|now right].
Qed.

Lemma collect_total (zone : option string) (pairs : list (ModelClass * (string * Z)))
    (w : World) :
  (forall Model k c, In (Model, (k, c)) pairs -> keeps zone w k = true) ->
  exists qs, collect zone pairs w = Return qs.
Proof.
  induction pairs as [|[M [k c]] rest IH]; intros Hk; cbn [collect]; [now eexists|].
  pose proof (Hk M k c (or_introl eq_refl)) as Hkk.
  unfold keeps, kept in Hkk. unfold candidates.
  destruct (find_row Device k w) as [device|]; [|discriminate].
  destruct (snd (Device_in_zone device zone w)) as [in_zone|e]; [|discriminate].
  destruct IH as [qs ->]; [intros M' k' c' Hin; apply (Hk M' k' c'); now right|].
  cbv zeta. destruct in_zone; [now eexists|].
  destruct (is_trusted (Device_get_metadata device w)); now eexists.
Qed.

Lemma option_string_eqb_eq (a b : option string) : option_string_eqb a b = true -> a = b.
Proof.
  destruct a, b; cbn; try discriminate; try reflexivity.
  intros H. apply String.eqb_eq in H. now subst.
Qed.

Lemma option_string_eqb_refl (a : option string) : option_string_eqb a a = true.
Proof. destruct a; cbn; [apply String.eqb_refl|reflexivity]. Qed.

Lemma candidates_sound (zone : option string) (Model : ModelClass) (k : string) (w : World)
    (q : list Instance) (r : Instance) :
  candidates zone Model k w = Return q -> In r q ->
  exists device,
    find_row Device k w = Some device
    /\ In r (table Model w) /\ signed_by_id r = Some k
    /\ keeps zone w k = true
    /\ (snd (Device_in_zone device zone w) = Return true
        \/ is_trusted (Device_get_metadata device w) = true /\ zone_fallback_id r = zone).
Proof.
  unfold candidates, keeps, kept.
  destruct (find_row Device k w) as [device|] eqn:Hd; [|discriminate].
  pose proof (find_row_pk _ _ _ _ Hd) as Hpk.
  destruct (snd (Device_in_zone device zone w)) as [in_zone|e] eqn:Hzone; [|discriminate].
  cbv zeta. intros Hq Hin. exists device. split; [reflexivity|].
  destruct in_zone.
  - inversion Hq; subst q. apply List.filter_In in Hin. destruct Hin as [Hin Hs].
    apply option_string_eqb_eq in Hs. rewrite Hpk in Hs.
    repeat split; [exact Hin|exact Hs|now left].
  - destruct (is_trusted (Device_get_metadata device w)); inversion Hq; subst q;
      [|destruct Hin].
    apply List.filter_In in Hin. destruct Hin as [Hin Hz].
    apply List.filter_In in Hin. destruct Hin as [Hin Hs].
    apply option_string_eqb_eq in Hs. apply option_string_eqb_eq in Hz.
    rewrite Hpk in Hs. repeat split; [exact Hin|exact Hs|right; now split].
Qed.

Lemma candidates_in_zone (zone : option string) (Model : ModelClass) (k : string) (w : World)
    (device r : Instance) :
  find_row Device k w = Some device ->
  snd (Device_in_zone device zone w) = Return true ->
  In r (table Model w) -> signed_by_id r = Some k ->
  keeps zone w k = true
  /\ exists q, candidates zone Model k w = Return q /\ In r q.
Proof.
  intros Hd Hz Hin Hs. unfold keeps, kept, candidates. rewrite Hd, Hz. cbv zeta.
  split; [reflexivity|]. eexists. split; [reflexivity|].
  apply List.filter_In. split; [exact Hin|].
  rewrite Hs, (find_row_pk _ _ _ _ Hd). apply option_string_eqb_refl.
Qed.

(** *** The [while] loop *)

Lemma select_models_inv (fuel : nat) (zone : option string) (dc : dict) (limit boost : Z)
    (w w' : World) (ms : list Instance) :
  select_models fuel zone dc limit boost [] w = (w', Return (Some ms)) ->
  exists qs n,
    w' = w
    /\ collect zone (round_pairs dc) w = Return qs
    /\ ms = List.concat (List.map (window limit (boost + limit * Z.of_nat n)) qs)
    /\ (ms = [] -> existsb (beyond limit (boost + limit * Z.of_nat n)) qs = false).
Proof.
  revert boost. induction fuel as [|fuel IH]; intros boost Hrun; [discriminate|].
  rewrite select_models_step in Hrun.
  destruct (collect zone (round_pairs dc) w) as [qs|e] eqn:Hc; [|discriminate].
  cbv zeta in Hrun.
  destruct ((0 <? List.length (List.concat (List.map (window limit boost) qs)))%nat
            || negb (existsb (beyond limit boost) qs)) eqn:Hstop.
  - inversion Hrun; subst. exists qs, O.
    replace (boost + limit * Z.of_nat 0) with boost by lia.
    repeat split; try reflexivity. intros Hnil. rewrite Hnil in Hstop.
    cbn [List.length Nat.ltb Nat.leb orb] in Hstop. now apply negb_true_iff in Hstop.
  - destruct (IH _ Hrun) as (qs' & n & -> & Hc' & Hms & Hb).
    assert (qs' = qs) as -> by congruence.
    exists qs, (S n).
    replace (boost + limit * Z.of_nat (S n)) with (boost + limit + limit * Z.of_nat n) by lia.
    auto.
Qed.

Lemma selected_models_inv (env : Env) (fuel : nat) (dc : dict) (limit : Z) (z : string)
    (w w' : World) (ms : list Instance) :
  selected_models env fuel (Some dc) limit (Some z) w = (w', Return (Some ms)) ->
  exists qs n,
    w' = w
    /\ collect (Some z) (round_pairs (List.filter (fun p => keeps (Some z) w (fst p)) dc)) w
       = Return qs
    /\ ms = List.concat (List.map (window limit (limit * Z.of_nat n)) qs)
    /\ (ms = [] -> existsb (beyond limit (limit * Z.of_nat n)) qs = false).
Proof.
  unfold selected_models. intros Hrun.
  apply bind_inv in Hrun. destruct Hrun as (w0 & zone & Hz & Hrun).
  inversion Hz; subst w0 zone. clear Hz.
  apply bind_inv in Hrun. destruct Hrun as (w0 & dc0 & Hd & Hrun).
  inversion Hd; subst w0 dc0. clear Hd.
  apply bind_inv in Hrun. destruct Hrun as (w1 & dc' & Hdrop & Hrun).
  apply drop_foreign_devices_inv in Hdrop. destruct Hdrop as [-> ->].
  destruct (select_models_inv _ _ _ _ _ _ _ _ Hrun) as (qs & n & Hw & Hc & Hms & Hb).
  exists qs, n. now rewrite Z.add_0_l in Hms, Hb.
Qed.

Lemma in_concat_windows (limit boost : Z) (qs : list (Z * list Instance)) (r : Instance) :
  In r (List.concat (List.map (window limit boost) qs))
  <-> exists c q, In (c, q) qs /\ In r q
                  /\ c <= counter r /\ counter r < c + limit + boost.
Proof.
  rewrite List.in_concat. split.
  - intros [l [Hl Hr]]. apply List.in_map_iff in Hl. destruct Hl as [[c q] [<- Hin]].
    unfold window in Hr. cbn [fst snd] in Hr. apply List.filter_In in Hr.
    destruct Hr as [Hr Hb]. apply andb_true_iff in Hb. destruct Hb as [H1 H2].
    exists c, q. repeat split; [exact Hin|exact Hr|lia|lia].
  - intros (c & q & Hin & Hr & H1 & H2). exists (window limit boost (c, q)).
    split; [apply List.in_map_iff; now exists (c, q)|].
    unfold window. cbn [fst snd]. apply List.filter_In. split; [exact Hr|].
    apply andb_true_iff. split; lia.
Qed.

(** X7: every record of a batch was asked for.  When the selection for an
    explicit zone and explicit device counters returns a batch, the
    database is unchanged, and each record of the batch is a stored row of
    one of the syncing classes, signed by a requested device that exists,
    with a counter not below the one requested for that device; the device
    is in the zone, or it is trusted and the record carries the zone as its
    fallback zone. *)
Theorem selected_models_sound (env : Env) (fuel : nat) (dc : dict) (limit : Z) (z : string)
    (w w' : World) (ms : list Instance) (r : Instance) :
  selected_models env fuel (Some dc) limit (Some z) w = (w', Return (Some ms)) ->
  In r ms ->
  w' = w
  /\ exists Model k c device,
       In Model syncing_models /\ In (k, c) dc
       /\ In r (table Model w) /\ find_row Device k w = Some device
       /\ signed_by_id r = Some k /\ c <= counter r
       /\ (snd (Device_in_zone device (Some z) w) = Return true
           \/ is_trusted (Device_get_metadata device w) = true
              /\ zone_fallback_id r = Some z).
Proof.
  intros Hrun Hin.
  destruct (selected_models_inv _ _ _ _ _ _ _ _ Hrun) as (qs & n & -> & Hc & -> & _).
  split; [reflexivity|].
  apply in_concat_windows in Hin. destruct Hin as (c & q & Hq & Hr & Hlo & _).
  destruct (proj1 (collect_In _ _ _ _ Hc) c q Hq) as (Model & k & Hp & Hcand).
  apply in_round_pairs in Hp. destruct Hp as [HM Hk].
  apply List.filter_In in Hk. destruct Hk as [Hk _].
  destruct (candidates_sound _ _ _ _ _ _ Hcand Hr) as (device & Hd & Ht & Hs & _ & Hz).
  exists Model, k, c, device. auto 10.
Qed.

(** X8: an empty batch means there is nothing to fetch.  When the selection
    returns the empty batch, no stored record of a syncing class signed by
    a requested device of the zone has a counter at or above the counter
    requested for that device. *)
Theorem empty_batch_nothing_pending (env : Env) (fuel : nat) (dc : dict) (limit : Z)
    (z : string) (w w' : World) (Model : ModelClass) (k : string) (c : Z)
    (device r : Instance) :
  selected_models env fuel (Some dc) limit (Some z) w = (w', Return (Some [])) ->
  In Model syncing_models -> In (k, c) dc ->
  find_row Device k w = Some device ->
  snd (Device_in_zone device (Some z) w) = Return true ->
  In r (table Model w) -> signed_by_id r = Some k ->
  counter r < c.
Proof.
  intros Hrun HM Hk Hd Hz Hr Hs.
  destruct (selected_models_inv _ _ _ _ _ _ _ _ Hrun) as (qs & n & -> & Hc & Hms & Hb).
  specialize (Hb eq_refl).
  destruct (candidates_in_zone (Some z) Model k w device r Hd Hz Hr Hs) as [Hkeep [q [Hq Hrq]]].
  assert (In (Model, (k, c))
            (round_pairs (List.filter (fun p => keeps (Some z) w (fst p)) dc))) as Hp.
  { apply in_round_pairs. split; [exact HM|]. apply List.filter_In. now split. }
  destruct (proj2 (collect_In _ _ _ _ Hc) Model k c Hp) as (q' & Hq' & Hin).
  assert (q' = q) as -> by congruence.
  destruct (Z_lt_ge_dec (counter r) c) as [Hlt|Hge]; [exact Hlt|exfalso].
  destruct (Z_lt_ge_dec (counter r) (c + limit + limit * Z.of_nat n)) as [Hin'|Hout].
  - assert (In r (List.concat (List.map (window limit (limit * Z.of_nat n)) qs))) as Hr'.
    { apply in_concat_windows. exists c, q. repeat split; [exact Hin|exact Hrq|lia|lia]. }
    rewrite <- Hms in Hr'. destruct Hr'.
  - assert (existsb (beyond limit (limit * Z.of_nat n)) qs = true) as Hb'.
    { apply existsb_exists. exists (c, q). split; [exact Hin|].
      unfold beyond. cbn [fst snd]. apply existsb_exists. exists r.
      split; [exact Hrq|]. apply Z.leb_le. lia. }
    congruence.
Qed.

(** X9: a batch never skips a record inside the requested range.  When the
    selection returns a batch, every stored record of a syncing class signed
    by a requested device of the zone, whose counter is at least the counter
    requested for that device and less than that counter plus the limit, is
    in the batch. *)
Theorem first_window_complete (env : Env) (fuel : nat) (dc : dict) (limit : Z)
    (z : string) (w w' : World) (ms : list Instance) (Model : ModelClass) (k : string)
    (c : Z) (device r : Instance) :
  selected_models env fuel (Some dc) limit (Some z) w = (w', Return (Some ms)) ->
  In Model syncing_models -> In (k, c) dc ->
  find_row Device k w = Some device ->
  snd (Device_in_zone device (Some z) w) = Return true ->
  In r (table Model w) -> signed_by_id r = Some k ->
  c <= counter r < c + limit ->
  In r ms.
Proof.
  intros Hrun HM Hk Hd Hz Hr Hs Hrange.
  destruct (selected_models_inv _ _ _ _ _ _ _ _ Hrun) as (qs & n & -> & Hc & -> & _).
  destruct (candidates_in_zone (Some z) Model k w device r Hd Hz Hr Hs) as [Hkeep [q [Hq Hrq]]].
  assert (In (Model, (k, c))
            (round_pairs (List.filter (fun p => keeps (Some z) w (fst p)) dc))) as Hp.
  { apply in_round_pairs. split; [exact HM|]. apply List.filter_In. now split. }
  destruct (proj2 (collect_In _ _ _ _ Hc) Model k c Hp) as (q' & Hq' & Hin).
  assert (q' = q) as -> by congruence.
  apply in_concat_windows. exists c, q. repeat split; [exact Hin|exact Hrq|lia|nia].
Qed.

Lemma selected_models_sound_witness :
  example_zoned_server = example_zoned_server
  /\ exists Model k c device,
       In Model syncing_models /\ In (k, c) [(example_device_id, 248)]
       /\ In (example_log 249) (table Model example_zoned_server)
       /\ find_row Device k example_zoned_server = Some device
       /\ signed_by_id (example_log 249) = Some k /\ c <= counter (example_log 249)
       /\ (snd (Device_in_zone device (Some example_zone_id) example_zoned_server)
           = Return true
           \/ is_trusted (Device_get_metadata device example_zoned_server) = true
              /\ zone_fallback_id (example_log 249) = Some example_zone_id).
Proof.
  apply (selected_models_sound example_env 2 [(example_device_id, 248)] 100 example_zone_id
           example_zoned_server example_zoned_server
           [example_log 248; example_log 249; example_log 250]).
  - vm_compute. reflexivity.
  - right. left. reflexivity.
Defined.

Lemma example_log_stored (n : nat) :
  (1 <= n < 251)%nat -> In (example_log n) (table SyncedLog example_zoned_server).
Proof.
  intros Hn. change (In (example_log n) (List.map example_log (List.seq 1 250))).
  apply List.in_map, List.in_seq. lia.
Qed.

Lemma empty_batch_nothing_pending_witness : counter (example_log 250) < 251.
Proof.
  apply (empty_batch_nothing_pending example_env 2 [(example_device_id, 251)] 100
           example_zone_id example_zoned_server example_zoned_server SyncedLog
           example_device_id 251 example_device (example_log 250)).
  - vm_compute. reflexivity.
  - cbn. tauto.
  - now left.
  - vm_compute. reflexivity.
  - vm_compute. reflexivity.
  - apply example_log_stored. lia.
  - vm_compute. reflexivity.
Defined.

Lemma first_window_complete_witness :
  In (example_log 249) [example_log 248; example_log 249; example_log 250].
Proof.
  apply (first_window_complete example_env 2 [(example_device_id, 248)] 100
           example_zone_id example_zoned_server example_zoned_server
           [example_log 248; example_log 249; example_log 250] SyncedLog
           example_device_id 248 example_device (example_log 249)).
  - vm_compute. reflexivity.
  - cbn. tauto.
  - now left.
  - vm_compute. reflexivity.
  - vm_compute. reflexivity.
  - apply example_log_stored. lia.
  - vm_compute. reflexivity.
  - vm_compute. split; [discriminate|reflexivity].
Defined.

(** *** Termination *)

Lemma counters_bounded (qs : list (Z * list Instance)) :
  exists N, 0 <= N /\ forall c q r, In (c, q) qs -> In r q -> counter r < c + N.
Proof.
  induction qs as [|[c0 q0] qs [N [HN IH]]].
  - exists 0. split; [lia|]. intros ? ? ? [].
  - assert (exists N0, 0 <= N0 /\ forall r, In r q0 -> counter r < c0 + N0) as [N0 [HN0 H0]].
    { induction q0 as [|r0 q0 [N0 [HN0 IH0]]].
      - exists 0. split; [lia|]. intros ? [].
      - exists (Z.max N0 (counter r0 - c0 + 1)). split; [lia|].
        intros r [<-|Hr]; [lia|]. specialize (IH0 r Hr). lia. }
    exists (Z.max N N0). split; [lia|]. intros c q r [Heq|Hin] Hr.
    + inversion Heq; subst. specialize (H0 r Hr). lia.
    + specialize (IH c q r Hin Hr). lia.
Qed.

Lemma beyond_none (limit boost : Z) (qs : list (Z * list Instance)) :
  (forall c q r, In (c, q) qs -> In r q -> counter r < c + limit + boost) ->
  existsb (beyond limit boost) qs = false.
Proof.
  intros Hb. apply not_true_is_false. intros He. apply existsb_exists in He.
  destruct He as [[c q] [Hin Hq]]. unfold beyond in Hq. cbn [fst snd] in Hq.
  apply existsb_exists in Hq. destruct Hq as [r [Hr Hle]]. apply Z.leb_le in Hle.
  specialize (Hb c q r Hin Hr). lia.
Qed.

Lemma select_models_returns (zone : option string) (dc : dict) (limit : Z) (w : World)
    (qs : list (Z * list Instance)) :
  collect zone (round_pairs dc) w = Return qs -> 0 < limit ->
  forall (n : nat) (boost : Z),
    (forall c q r, In (c, q) qs -> In r q ->
                   counter r < c + limit + boost + limit * Z.of_nat n) ->
    exists ms, forall fuel, (n < fuel)%nat ->
      select_models fuel zone dc limit boost [] w = (w, Return (Some ms)).
Proof.
  intros Hc Hlimit. induction n as [|n IH]; intros boost Hb.
  - exists (List.concat (List.map (window limit boost) qs)).
    intros [|fuel] Hf; [lia|]. rewrite select_models_step, Hc. cbv zeta.
    rewrite beyond_none by (intros c q r H1 H2; specialize (Hb c q r H1 H2); lia).
    cbn [negb]. now rewrite orb_true_r.
  - destruct ((0 <? List.length (List.concat (List.map (window limit boost) qs)))%nat
              || negb (existsb (beyond limit boost) qs)) eqn:Hstop.
    + exists (List.concat (List.map (window limit boost) qs)).
      intros [|fuel] Hf; [lia|]. rewrite select_models_step, Hc. cbv zeta. now rewrite Hstop.
    + destruct (IH (boost + limit)) as [ms Hms].
      { intros c q r H1 H2. specialize (Hb c q r H1 H2). lia. }
      exists ms. intros [|fuel] Hf; [lia|]. rewrite select_models_step, Hc. cbv zeta.
      rewrite Hstop. apply Hms. lia.
Qed.

Lemma select_models_total (zone : option string) (dc : dict) (limit : Z) (w : World) :
  0 < limit ->
  exists fuel o,
    o <> Return None
    /\ forall fuel', (fuel <= fuel')%nat ->
         select_models fuel' zone dc limit 0 [] w = (w, o).
Proof.
  intros Hlimit. destruct (collect zone (round_pairs dc) w) as [qs|e] eqn:Hc.
  - destruct (counters_bounded qs) as [N [HN Hb]].
    destruct (select_models_returns zone dc limit w qs Hc Hlimit (Z.to_nat N) 0) as [ms Hms].
    { intros c q r H1 H2. specialize (Hb c q r H1 H2). nia. }
    exists (S (Z.to_nat N)), (Return (Some ms)). split; [discriminate|].
    intros fuel' Hf. apply Hms. lia.
  - exists 1%nat, (Raise e). split; [discriminate|].
    intros [|fuel'] Hf; [lia|]. now rewrite select_models_step, Hc.
Qed.

Lemma bind_eventually {A B : Type} (m : M A) (k : nat -> A -> M (option B)) (w : World) :
  (forall a w1, exists fuel w' o,
      o <> Return None /\ forall fuel', (fuel <= fuel')%nat -> k fuel' a w1 = (w', o)) ->
  exists fuel w' o,
    o <> Return None /\ forall fuel', (fuel <= fuel')%nat -> bind m (k fuel') w = (w', o).
Proof.
  intros Hk. unfold bind. destruct (m w) as [w1 [a|e]].
  - exact (Hk a w1).
  - exists O, w1, (Raise e). split; [discriminate|reflexivity].
Qed.

(** X10: with a positive limit the selection loop ends.  For every
    database, zone, device counters and positive limit there is a number of
    rounds after which [get_serialized_models] has returned or raised, and
    more rounds do not change the outcome. *)
Theorem get_serialized_models_terminates (env : Env) (dc : option dict) (limit : Z)
    (zone : option string) (include_count : bool) (w : World) :
  0 < limit ->
  exists fuel w' o,
    o <> Return None
    /\ forall fuel', (fuel <= fuel')%nat ->
         get_serialized_models env fuel' dc limit zone include_count w = (w', o).
Proof.
  intros Hlimit.
  assert (exists fuel w' o,
             o <> Return None
             /\ forall fuel', (fuel <= fuel')%nat ->
                  selected_models env fuel' dc limit zone w = (w', o))
    as (fuel & w' & o & Ho & Hrun).
  { unfold selected_models.
    apply (bind_eventually _
             (fun fuel zone0 =>
                device_counters <-
                  match dc with
                  | Some d => ret d
                  | None =>
                      ds <- read (by_zone Device zone0) ;;
                      ret (List.fold_left (fun d device => dict_set (pk device) 0 d) ds [])
                  end ;;
                device_counters <- drop_foreign_devices zone0 device_counters ;;
                select_models fuel zone0 device_counters limit 0 [])%py).
    intros zone0 w1.
    apply (bind_eventually _
             (fun fuel device_counters =>
                device_counters <- drop_foreign_devices zone0 device_counters ;;
                select_models fuel zone0 device_counters limit 0 [])%py).
    intros dc0 w2.
    apply (bind_eventually _
             (fun fuel device_counters => select_models fuel zone0 device_counters limit 0 [])).
    intros dc1 w3.
    destruct (select_models_total zone0 dc1 limit w3 Hlimit) as (fuel & o & Ho & Hrun).
    now exists fuel, w3, o. }
  unfold get_serialized_models, bind.
  destruct o as [[ms|]|e]; [|congruence|].
  - exists fuel, w'.
    exists (Return (Some (if include_count
                          then SerializedWithCount (serialize env ms) (List.length ms)
                          else Serialized (serialize env ms)))).
    split; [discriminate|]. intros fuel' Hf. rewrite (Hrun fuel' Hf).
    now destruct include_count.
  - exists fuel, w', (Raise e). split; [discriminate|].
    intros fuel' Hf. now rewrite (Hrun fuel' Hf).
Qed.

Lemma get_serialized_models_terminates_witness :
  exists fuel w' o,
    o <> Return None
    /\ get_serialized_models example_env fuel (Some [(example_device_id, 0)]) 100
         (Some example_zone_id) false example_zoned_server
       = (w', o).
Proof.
  destruct (get_serialized_models_terminates example_env (Some [(example_device_id, 0)]) 100
              (Some example_zone_id) false example_zoned_server)
    as (fuel & w' & o & Ho & Hrun); [lia|].
  exists fuel, w', o. split; [exact Ho|]. apply Hrun. lia.
Defined.

(** *** A limit that is not positive *)

Lemma windows_empty (limit boost : Z) (qs : list (Z * list Instance)) :
  limit + boost <= 0 -> List.concat (List.map (window limit boost) qs) = [].
Proof.
  intros Hle. induction qs as [|[c q] qs IH]; [reflexivity|].
  cbn [List.map List.concat]. rewrite IH, app_nil_r.
  unfold window. cbn [fst snd]. induction q as [|r q IHq]; [reflexivity|].
  cbn [List.filter].
  assert ((c <=? counter r) && (counter r <? c + limit + boost) = false) as ->; [|exact IHq].
  destruct (c <=? counter r) eqn:H1; [|reflexivity]. apply Z.leb_le in H1.
  apply Z.ltb_ge. lia.
Qed.

Lemma select_models_stuck (zone : option string) (dc : dict) (limit : Z) (w : World)
    (qs : list (Z * list Instance)) (c : Z) (q : list Instance) (r : Instance) :
  collect zone (round_pairs dc) w = Return qs -> limit <= 0 ->
  In (c, q) qs -> In r q -> c + limit <= counter r ->
  forall (fuel : nat) (boost : Z), boost <= 0 ->
    select_models fuel zone dc limit boost [] w = (w, Return None).
Proof.
  intros Hc Hlimit Hq Hr Hle. induction fuel as [|fuel IH]; intros boost Hb; [reflexivity|].
  rewrite select_models_step, Hc. cbv zeta.
  rewrite windows_empty by lia.
  assert (existsb (beyond limit boost) qs = true) as ->.
  { apply existsb_exists. exists (c, q). split; [exact Hq|].
    unfold beyond. cbn [fst snd]. apply existsb_exists. exists r.
    split; [exact Hr|]. apply Z.leb_le. lia. }
  cbn [List.length Nat.ltb Nat.leb negb orb]. apply IH. lia.
Qed.

(** X11: with a limit of zero or less the selection loop does not end.  If
    the zone lookup of every requested device succeeds and some stored
    record of a syncing class, signed by a requested device of the zone, has
    a counter of at least the requested counter plus the limit, then no
    number of rounds makes [get_serialized_models] return: every round
    selects nothing and finds a record still to come. *)
Theorem get_serialized_models_never_returns (env : Env) (dc : dict) (limit : Z) (z : string)
    (include_count : bool) (w : World) (Model : ModelClass) (k : string) (c : Z)
    (device r : Instance) (fuel : nat) :
  limit <= 0 ->
  (forall k' c', In (k', c') dc -> exists b, kept (Some z) w k' = Return b) ->
  In Model syncing_models -> In (k, c) dc ->
  find_row Device k w = Some device ->
  snd (Device_in_zone device (Some z) w) = Return true ->
  In r (table Model w) -> signed_by_id r = Some k ->
  c + limit <= counter r ->
  get_serialized_models env fuel (Some dc) limit (Some z) include_count w = (w, Return None).
Proof.
  intros Hlimit Hok HM Hk Hd Hz Hr Hs Hle.
  destruct (candidates_in_zone (Some z) Model k w device r Hd Hz Hr Hs) as [Hkeep [q [Hq Hrq]]].
  set (dc' := List.filter (fun p => keeps (Some z) w (fst p)) dc).
  destruct (collect_total (Some z) (round_pairs dc') w) as [qs Hc].
  { intros M' k' c' Hin. apply in_round_pairs in Hin. destruct Hin as [_ Hin].
    apply List.filter_In in Hin. now destruct Hin. }
  assert (In (Model, (k, c)) (round_pairs dc')) as Hp.
  { apply in_round_pairs. split; [exact HM|]. apply List.filter_In. now split. }
  destruct (proj2 (collect_In _ _ _ _ Hc) Model k c Hp) as (q' & Hq' & Hin).
  assert (q' = q) as -> by congruence.
  assert (selected_models env fuel (Some dc) limit (Some z) w = (w, Return None)) as Hsel.
  { unfold selected_models, bind, ret.
    rewrite (drop_foreign_devices_run (Some z) dc w Hok). fold dc'.
    exact (select_models_stuck (Some z) dc' limit w qs c q r Hc Hlimit Hin Hrq Hle
             fuel 0 (Z.le_refl 0)). }
  unfold get_serialized_models, bind. now rewrite Hsel.
Qed.

Lemma get_serialized_models_never_returns_witness :
  get_serialized_models example_env 1000 (Some [(example_device_id, 0)]) 0
    (Some example_zone_id) false example_zoned_server
  = (example_zoned_server, Return None).
Proof.
  apply (get_serialized_models_never_returns example_env [(example_device_id, 0)] 0
           example_zone_id false example_zoned_server SyncedLog example_device_id 0
           example_device (example_log 7) 1000).
  - lia.
  - intros k' c' [H|[]]. inversion H; subst. exists true. vm_compute. reflexivity.
  - cbn. tauto.
  - now left.
  - vm_compute. reflexivity.
  - vm_compute. reflexivity.
  - apply example_log_stored. lia.
  - vm_compute. reflexivity.
  - vm_compute. discriminate.
Defined.

(** ** Zones *)

Lemma getattr_zone_missing (self : Instance) (w : World) :
  assoc "zone" (attrs self) = None -> getattr_zone self w = Return VNone.
Proof. intros H. unfold getattr_zone, getattr. cbn. now rewrite H. Qed.

Lemma Device_get_zone_some (d : Instance) (z : string) (w w' : World) :
  Device_get_zone d w = (w', Return (Some z)) ->
  exists dz rest,
    List.filter (zone_of_device (pk d)) (device_zones w) = dz :: rest
    /\ dz_zone dz = Some z.
Proof.
  unfold Device_get_zone, bind, read, ret, objects_get.
  destruct (List.filter (zone_of_device (pk d)) (device_zones w)) as [|dz rest]; [discriminate|].
  intros H. exists dz, rest. split; [reflexivity|]. unfold dz_zone.
  destruct (assoc "zone" (attrs dz)) as [[v|t [k|]]|]; try discriminate.
  destruct (find_row Zone k w) as [zrow|] eqn:Hz; [|discriminate].
  inversion H; subst. now rewrite (find_row_pk _ _ _ _ Hz).
Qed.

(** X12: the two notions of belonging to a zone agree in one direction.
    For a stored record of a class other than [Device], without a zone
    attribute of its own, whose signer key is not the empty string: when
    [in_zone] says the record is in a zone, the manager's [by_zone] query
    for that zone returns the record. *)
Theorem in_zone_by_zone (self : Instance) (z : string) (w : World) :
  cls self <> Device ->
  assoc "zone" (attrs self) = None ->
  signed_by_id self <> Some "" ->
  In self (table (cls self) w) ->
  in_zone self (Some z) w = (w, Return true) ->
  In self (by_zone (cls self) (Some z) w).
Proof.
  intros Hcls Hattr Hne Hin Hz.
  assert (SyncedModel_get_zone self w = (w, Return (Some z))) as Hg.
  { unfold in_zone, bind in Hz.
    assert (get_zone self = SyncedModel_get_zone self) as Heq
      by (unfold get_zone; destruct (cls self); congruence).
    rewrite Heq in Hz.
    destruct (SyncedModel_get_zone self w) as [w1 [[z'|]|e]]; try discriminate;
      unfold ret in Hz; inversion Hz as [[Hw Hb]]; subst w1.
    cbn in Hb. apply String.eqb_eq in Hb. now subst. }
  clear Hz. unfold SyncedModel_get_zone, bind, lift_read, ret in Hg.
  rewrite (getattr_zone_missing self w Hattr) in Hg. cbn [truthy] in Hg.
  unfold related, objects_get, read in Hg.
  destruct (signed_by_id self) as [k|] eqn:Hs; [|discriminate].
  destruct (find_row Device k w) as [signer|] eqn:Hd; [|discriminate].
  pose proof (find_row_pk _ _ _ _ Hd) as Hpk. rewrite Hpk, Hd in Hg.
  assert (signed_by_present self = true) as Hp.
  { unfold signed_by_present. rewrite Hs. apply negb_true_iff.
    apply String.eqb_neq. congruence. }
  unfold by_zone. apply List.filter_In. split; [exact Hin|].
  rewrite Hp, Hs. change (default "" (Some k)) with k. cbv zeta.
  pose proof (read_only_get_zone signer w) as Hro.
  destruct (Device_get_zone signer w) as [w1 [[z'|]|e]] eqn:Hdz; cbn [fst] in Hro; subst w1;
    [| |discriminate].
  - inversion Hg; subst z'.
    destruct (Device_get_zone_some signer z w w Hdz) as (dz & rest & Hf & Hzone).
    rewrite Hpk in Hf. rewrite Hf. cbn [existsb]. rewrite Hzone. cbn [option_string_eqb].
    now rewrite String.eqb_refl.
  - cbv beta iota in Hg. rewrite Hd in Hg. cbv beta iota in Hg.
    rewrite Hpk, Hd in Hg. cbv beta iota in Hg.
    destruct (is_trusted (Device_get_metadata signer w)) eqn:Ht; [|discriminate].
    destruct (zone_fallback_id self) as [kz|] eqn:Hfb; [|discriminate].
    destruct (find_row Zone kz w) as [zrow|] eqn:Hzr; [|discriminate].
    cbn [zone_of_value] in Hg. inversion Hg as [Hzz]. rewrite (find_row_pk _ _ _ _ Hzr) in Hzz. subst kz.
    apply orb_true_iff. right. cbn [andb option_string_eqb].
    rewrite ?(find_row_pk _ _ _ _ Hzr), String.eqb_refl.
    rewrite andb_true_r. apply existsb_exists.
    unfold Device_get_metadata in Ht. rewrite Hpk in Ht.
    destruct (List.find (metadata_of k) (device_metadata w)) as [m|] eqn:Hm; [|discriminate].
    apply List.find_some in Hm. destruct Hm as [Hm1 Hm2]. exists m.
    split; [exact Hm1|]. now rewrite Hm2, Ht.
Qed.

Lemma in_zone_by_zone_witness :
  In (example_log 5) (by_zone SyncedLog (Some example_zone_id) example_zoned_server).
Proof.
  apply (in_zone_by_zone (example_log 5) example_zone_id example_zoned_server).
  - discriminate.
  - reflexivity.
  - discriminate.
  - apply example_log_stored. lia.
  - vm_compute. reflexivity.
Defined.

(** ** Finding a saved record again *)

Lemma Model_save_returns (r : Instance) (w : World) :
  Model_save r w = (fst (Model_save r w), Return tt).
Proof. reflexivity. Qed.

Lemma find_row_saved (r : Instance) (w : World) :
  find_row (cls r) (pk r) (fst (Model_save r w)) = Some (stored r).
Proof.
  rewrite find_row_Model_save, String.eqb_refl.
  now assert (ModelClass_eqb (cls r) (cls r) = true) as -> by now destruct (cls r).
Qed.

Lemma stored_string_id (r : Instance) (s : string) : id r = VStr s -> stored r = r.
Proof. intros H. unfold stored, pk. rewrite H. destruct r; cbn in *. now subst. Qed.

Lemma save_writes_result (env : Env) (self : Instance) (own_device : option device_ref)
    (imported : bool) (w w2 : World) (r : Instance) :
  save env self own_device imported w = (w2, Return r) ->
  find_row (cls r) (pk r) w2 = Some (stored r).
Proof.
  rewrite save_is_SyncedModel_save. unfold SyncedModel_save, SyncedModel_save_with.
  intros H. apply bind_inv in H. destruct H as (w1 & [own|] & _ & H); [|discriminate].
  destruct imported.
  - destruct (signed_by_present self); cbn [negb] in H; [|discriminate].
    apply bind_inv in H. destruct H as (w1' & ok & _ & H).
    destruct ok; cbn [negb] in H; [|discriminate].
    apply bind_inv in H. destruct H as (wm & [] & Hm & H).
    apply bind_inv in H. destruct H as (wm' & signer & Hs & H).
    apply bind_inv in H. destruct H as (wc & [] & Hc & H).
    inversion H; subst wc r; clear H.
    assert (wm' = wm) as ->.
    { unfold objects_get in Hs. destruct (find_row Device _ wm); now inversion Hs. }
    pose proof (f_equal fst Hm) as Hm'. pose proof (f_equal fst Hc) as Hc'.
    cbn [fst] in Hm', Hc'. rewrite <- Hc'.
    rewrite (find_row_same_tables _ _ wm) by apply tables_set_counter_position.
    rewrite <- Hm'. apply find_row_saved.
  - apply bind_inv in H. destruct H as (wa & c & _ & H).
    apply bind_inv in H. destruct H as (wb & self1 & _ & H).
    apply bind_inv in H. destruct H as (wc & self2 & _ & H).
    apply bind_inv in H. destruct H as (wd & [] & Hm & H).
    inversion H; subst wd r; clear H.
    pose proof (f_equal fst Hm) as Hm'. cbn [fst] in Hm'. rewrite <- Hm'.
    apply find_row_saved.
Qed.

(** X13: a record that [save] returned can be found again.  After any
    [save] that returns, local or imported, [get_existing_instance] on the
    returned record finds the row just written, which is the record itself
    when its id is a string, and changes nothing, provided the id of the
    record is not empty. *)
Theorem saved_record_is_found (env : Env) (self : Instance) (own_device : option device_ref)
    (imported : bool) (w w2 : World) (r : Instance) :
  save env self own_device imported w = (w2, Return r) ->
  truthy (id r) = true ->
  get_existing_instance env r w2 = (w2, Return (Some (stored r)))
  /\ (forall s, id r = VStr s -> stored r = r).
Proof.
  intros Hsave Hid. split; [|apply stored_string_id].
  unfold get_existing_instance, bind, ret, read. rewrite Hid.
  change (py_str (id r)) with (pk r).
  now rewrite (save_writes_result env self own_device imported w w2 r Hsave).
Qed.

Lemma saved_record_is_found_witness :
  get_existing_instance example_env (snd example_saved) (fst example_saved)
  = (fst example_saved, Return (Some (stored (snd example_saved))))
  /\ (forall s, id (snd example_saved) = VStr s -> stored (snd example_saved) = snd example_saved).
Proof.
  apply (saved_record_is_found example_env (example_facility "School" "") None false
           example_world).
  - vm_compute. reflexivity.
  - reflexivity.
Defined.

(** ** The counters a device reports *)

Lemma NoDup_snoc {A : Type} (l : list A) (x : A) :
  List.NoDup l -> ~ In x l -> List.NoDup (l ++ [x]).
Proof.
  induction l as [|y l IH]; intros Hn Hx; cbn [app].
  - constructor; [intros []|constructor].
  - inversion Hn; subst. constructor.
    + intros Hin. apply List.in_app_or in Hin. destruct Hin as [Hin|[<-|[]]]; [contradiction|].
      apply Hx. now left.
    + apply IH; [assumption|]. intros Hin. apply Hx. now right.
Qed.

Lemma dict_has_In (k : string) (d : dict) : dict_has k d = true <-> In k (List.map fst d).
Proof.
  unfold dict_has, mem. rewrite existsb_exists. split.
  - intros [x [Hin Heq]]. apply String.eqb_eq in Heq. now subst.
  - intros Hin. exists k. split; [exact Hin|apply String.eqb_refl].
Qed.

Lemma dict_has_snoc (k k' : string) (v : Z) (d : dict) :
  dict_has k (d ++ [(k', v)]) = dict_has k d || String.eqb k k'.
Proof.
  unfold dict_has, mem. rewrite List.map_app, existsb_app. cbn. now rewrite orb_false_r.
Qed.

Lemma position_pk (d d' : Instance) (w : World) : pk d = pk d' -> position d w = position d' w.
Proof. intros H. unfold position, Device_get_metadata. now rewrite H. Qed.

Section Counters.

Context (w : World).

Lemma counters_loop (ds : list Instance) (acc : dict) :
  foldM
    (fun (device_counters : dict) device =>
       if dict_has (pk device) device_counters then ret device_counters
       else
         metadata <- read (Device_get_metadata device) ;;
         ret (dict_set (pk device) (counter_position metadata) device_counters))%py
    ds acc w
  = (w, Return (List.fold_left (counters_step w) ds acc)).
Proof.
  revert acc. induction ds as [|device ds IH]; intros acc; [reflexivity|].
  cbn [foldM List.fold_left]. unfold bind at 1. unfold counters_step at 2.
  destruct (dict_has (pk device) acc) eqn:Hh.
  - unfold ret at 1. apply IH.
  - unfold bind, read, ret, dict_set. rewrite Hh. apply IH.
Qed.

Lemma counters_nodup (ds : list Instance) (acc : dict) :
  List.NoDup (List.map fst acc) ->
  List.NoDup (List.map fst (List.fold_left (counters_step w) ds acc)).
Proof.
  revert acc. induction ds as [|device ds IH]; intros acc Hn; [exact Hn|].
  cbn [List.fold_left]. apply IH. unfold counters_step.
  destruct (dict_has (pk device) acc) eqn:Hh; [exact Hn|].
  rewrite List.map_app. cbn [List.map fst]. apply NoDup_snoc; [exact Hn|].
  intros Hin. apply dict_has_In in Hin. congruence.
Qed.

Lemma counters_entries (ds : list Instance) (acc : dict) (k : string) (v : Z) :
  In (k, v) (List.fold_left (counters_step w) ds acc)
  <-> In (k, v) acc
      \/ (dict_has k acc = false
          /\ exists device, In device ds /\ pk device = k /\ v = position device w).
Proof.
  revert acc. induction ds as [|dev ds IH]; intros acc; cbn [List.fold_left].
  - split; [now left|]. intros [H|[_ [device [[] _]]]]. exact H.
  - rewrite IH. unfold counters_step. destruct (dict_has (pk dev) acc) eqn:Hh.
    + split.
      * intros [H|[Hn [device [Hin Hd]]]]; [now left|].
        right. split; [exact Hn|]. exists device. split; [now right|exact Hd].
      * intros [H|[Hn [device [[<-|Hin] [Hpk Hv]]]]]; [now left| |].
        -- rewrite Hpk in Hh. congruence.
        -- right. split; [exact Hn|]. now exists device.
    + split.
      * intros [H|[Hn [device [Hin Hd]]]].
        -- apply List.in_app_or in H. destruct H as [H|[H|[]]]; [now left|].
           inversion H; subst. right. split; [exact Hh|]. exists dev.
           split; [now left|]. now split.
        -- rewrite dict_has_snoc in Hn. apply orb_false_iff in Hn. destruct Hn as [Hn _].
           right. split; [exact Hn|]. exists device. split; [now right|exact Hd].
      * intros [H|[Hn [device [Hin [Hpk Hv]]]]].
        -- left. apply List.in_or_app. now left.
        -- destruct (String.eqb k (pk dev)) eqn:Hk.
           ++ apply String.eqb_eq in Hk. left. apply List.in_or_app. right. left.
              subst k v. f_equal; [now symmetry|apply position_pk; now symmetry].
           ++ right. split; [rewrite dict_has_snoc, Hn, Hk; reflexivity|].
              destruct Hin as [<-|Hin].
              ** rewrite Hpk, String.eqb_refl in Hk. discriminate.
              ** now exists device.
Qed.

End Counters.

(** X14: [get_device_counters] reports every device of the zone once, with
    its recorded counter position.  The call returns and leaves the database
    unchanged; no device id occurs twice in the result; and an id is
    reported with a value exactly when some device of the zone has that id
    and the value is the counter position recorded for it. *)
Theorem get_device_counters_reports (zone : option string) (w : World) :
  exists d,
    get_device_counters zone w = (w, Return d)
    /\ List.NoDup (List.map fst d)
    /\ forall k v,
         In (k, v) d
         <-> exists device,
               In device (by_zone Device zone w) /\ pk device = k /\ v = position device w.
Proof.
  eexists. split; [|split].
  - unfold get_device_counters, bind, read. apply counters_loop.
  - apply counters_nodup. constructor.
  - intros k v. rewrite counters_entries. split.
    + intros [[]|[_ H]]. exact H.
    + intros H. right. split; [reflexivity|exact H].
Qed.

(** ** Device trust *)

(** X15: [Device.save(is_trusted=True)] marks the device trusted.  When the
    call returns, on a well-formed metadata table, the metadata of the saved
    device is trusted and the table is still well formed. *)
Theorem device_save_trusted (env : Env) (self : Instance) (own_device : option device_ref)
    (imported : bool) (w w2 : World) (r : Instance) :
  metadata_wf w ->
  Device_save env self true own_device imported w = (w2, Return r) ->
  is_trusted (Device_get_metadata r w2) = true /\ metadata_wf w2.
Proof.
  intros Hwf H. unfold Device_save, Device_save_with in H.
  apply bind_inv in H. destruct H as (w1 & r1 & Hs & H).
  assert (metadata_wf w1) as Hwf1.
  { pose proof (preserves_wf_SyncedModel_save env _ (preserves_wf_get_own_device env)
                  self own_device imported w Hwf) as Hp.
    now rewrite Hs in Hp. }
  apply bind_inv in H. destruct H as (w1' & m & Hm & H).
  unfold read in Hm. inversion Hm; subst w1' m; clear Hm.
  apply bind_inv in H. destruct H as (w2' & [] & Hd & H).
  unfold ret in H. inversion H; subst w2' r1; clear H.
  destruct (metadata_save_get r (set_is_trusted true (Device_get_metadata r w1)) w1
              Hwf1 eq_refl eq_refl) as [Hwf2 [i Hi]].
  rewrite Hd in Hwf2, Hi. cbn [fst] in Hwf2, Hi.
  split; [now rewrite Hi | exact Hwf2].
Qed.

Lemma device_save_trusted_witness :
  is_trusted
    (Device_get_metadata
       (match Device_save example_env example_other_device true None false example_world with
        | (_, Return r) => r
        | (_, Raise _) => example_other_device
        end)
       (fst (Device_save example_env example_other_device true None false example_world)))
  = true
  /\ metadata_wf
       (fst (Device_save example_env example_other_device true None false example_world)).
Proof.
  apply (device_save_trusted example_env example_other_device None false example_world).
  - apply example_world_wf.
  - vm_compute. reflexivity.
Defined.

(** ** Session signatures *)

Lemma append_cons (c : ascii) (a b : string) : String c a +:+ b = String c (a +:+ b).
Proof. reflexivity. Qed.

Lemma append_nil (b : string) : "" +:+ b = b.
Proof. reflexivity. Qed.

Lemma colon_free_cons (c : ascii) (s : string) :
  colon_free (String c s) -> c <> ":"%char /\ colon_free s.
Proof.
  unfold colon_free, Py.in_chars. cbn [list_ascii_of_string existsb].
  intros H. apply orb_false_iff in H. destruct H as [Hc Hs]. split; [|exact Hs].
  intros ->. discriminate.
Qed.

Lemma colon_split (a a' r r' : string) :
  colon_free a -> colon_free a' ->
  a +:+ ":" +:+ r = a' +:+ ":" +:+ r' -> a = a' /\ r = r'.
Proof.
  revert a'. induction a as [|c a IH]; intros [|c' a'] Ha Ha' H.
  - rewrite !append_nil in H. inversion H. auto.
  - rewrite append_nil, append_cons in H. inversion H; subst c'.
    apply colon_free_cons in Ha'. now destruct Ha'.
  - rewrite append_nil, append_cons in H. inversion H; subst c.
    apply colon_free_cons in Ha. now destruct Ha.
  - rewrite !append_cons in H. inversion H; subst c'.
    apply colon_free_cons in Ha, Ha'.
    destruct (IH a' (proj2 Ha) (proj2 Ha')) as [-> ->]; [assumption|]. auto.
Qed.

(** X16: the text a session signs determines the session.  If two sessions
    have the same hashable representation, and their client nonces, client
    device ids and server nonces contain no colon, then they agree on both
    nonces and both devices. *)
Theorem session_text_determines_session (a b : SyncSession.t) (w : World) (text : string) :
  SyncSession._hashable_representation a w = Return text ->
  SyncSession._hashable_representation b w = Return text ->
  colon_free (SyncSession.client_nonce a) -> colon_free (SyncSession.client_nonce b) ->
  colon_free (SyncSession.client_device_id a) -> colon_free (SyncSession.client_device_id b) ->
  colon_free (SyncSession.server_nonce a) -> colon_free (SyncSession.server_nonce b) ->
  SyncSession.client_nonce a = SyncSession.client_nonce b
  /\ SyncSession.client_device_id a = SyncSession.client_device_id b
  /\ SyncSession.server_nonce a = SyncSession.server_nonce b
  /\ SyncSession.server_device_id a = SyncSession.server_device_id b.
Proof.
  unfold SyncSession._hashable_representation. intros Ha Hb Hn Hn' Hd Hd' Hs Hs'.
  destruct (find_row Device (SyncSession.client_device_id a) w) as [ca|] eqn:Hca;
    [|discriminate].
  destruct (SyncSession.server_device_id a) as [ka|]; [|discriminate].
  destruct (find_row Device ka w) as [sa|] eqn:Hsa; [|discriminate].
  destruct (find_row Device (SyncSession.client_device_id b) w) as [cb|] eqn:Hcb;
    [|discriminate].
  destruct (SyncSession.server_device_id b) as [kb|]; [|discriminate].
  destruct (find_row Device kb w) as [sb|] eqn:Hsb; [|discriminate].
  rewrite (find_row_pk _ _ _ _ Hca), (find_row_pk _ _ _ _ Hsa) in Ha.
  rewrite (find_row_pk _ _ _ _ Hcb), (find_row_pk _ _ _ _ Hsb) in Hb.
  inversion Ha as [Ha']. inversion Hb as [Hb']. rewrite <- Hb' in Ha'. clear Ha Hb Hb'.
  apply colon_split in Ha'; [|assumption|assumption]. destruct Ha' as [H1 Ha'].
  apply colon_split in Ha'; [|assumption|assumption]. destruct Ha' as [H2 Ha'].
  apply colon_split in Ha'; [|assumption|assumption]. destruct Ha' as [H3 H4].
  subst. auto.
Qed.

Lemma session_text_determines_session_witness :
  SyncSession.client_nonce example_session = SyncSession.client_nonce example_session_verified
  /\ SyncSession.client_device_id example_session
     = SyncSession.client_device_id example_session_verified
  /\ SyncSession.server_nonce example_session
     = SyncSession.server_nonce example_session_verified
  /\ SyncSession.server_device_id example_session
     = SyncSession.server_device_id example_session_verified.
Proof.
  apply (session_text_determines_session example_session example_session_verified
           example_world
           ("0123456789abcdef0123456789abcdef:a83e6774a6a95554a9c006ba725e07f9:"
            +:+ "fedcba9876543210fedcba9876543210:a83e6774a6a95554a9c006ba725e07f9"));
    vm_compute; reflexivity.
Defined.

(** X17: a session signature made by this process verifies against a device
    that carries this process's key.  If the signature scheme is sound and
    [sign] returns a signature, then [verify_client_signature] returns true
    when the client device has the own key, and [verify_server_signature]
    returns true when the server device has it; neither changes the
    database. *)
Theorem session_signature_verifies (env : Env) (self : SyncSession.t) (w w' : World)
    (s : string) :
  crypto_sound env ->
  SyncSession.sign env self w = (w', Return s) ->
  w' = w
  /\ (forall d, find_row Device (SyncSession.client_device_id self) w = Some d ->
                public_key d = own_key env ->
                SyncSession.verify_client_signature env self s w = (w, Return true))
  /\ (forall k d, SyncSession.server_device_id self = Some k ->
                  find_row Device k w = Some d ->
                  public_key d = own_key env ->
                  SyncSession.verify_server_signature env self s w = (w, Return true)).
Proof.
  intros [Hkey Hsound] Hsign. unfold SyncSession.sign, bind, lift_read, sign_text in Hsign.
  destruct (SyncSession._hashable_representation self w) as [text|e] eqn:Ht; [|discriminate].
  destruct (crypto_sign env text) as [sg|] eqn:Hsg; [|discriminate].
  unfold ret in Hsign. inversion Hsign; subst w' s; clear Hsign.
  destruct (Hsound text sg Hsg) as [Hdec Hver].
  assert (forall d, public_key d = own_key env ->
                    SyncSession._verify_signature env self (Some d) (encode_base64 env sg) w
                    = (w, Return true)) as Hv.
  { intros d Hd. unfold SyncSession._verify_signature, bind, lift_read.
    rewrite Ht, Hdec. unfold Device_get_public_key. rewrite Hd. unfold own_key.
    rewrite Hkey. unfold ret. now rewrite Hver. }
  split; [reflexivity|]. split.
  - intros d Hd Hk. unfold SyncSession.verify_client_signature, bind, objects_get.
    rewrite Hd. now apply Hv.
  - intros k d Hk Hd Hpk. unfold SyncSession.verify_server_signature, bind, objects_get, ret.
    rewrite Hk, Hd. now apply Hv.
Qed.

Lemma session_signature_verifies_witness :
  SyncSession.verify_server_signature example_env example_session
    ("pubkey-A/0123456789abcdef0123456789abcdef:a83e6774a6a95554a9c006ba725e07f9:"
     +:+ "fedcba9876543210fedcba9876543210:a83e6774a6a95554a9c006ba725e07f9")
    example_world
  = (example_world, Return true).
Proof.
  destruct (session_signature_verifies example_env example_session example_world example_world
              ("pubkey-A/0123456789abcdef0123456789abcdef:a83e6774a6a95554a9c006ba725e07f9:"
               +:+ "fedcba9876543210fedcba9876543210:a83e6774a6a95554a9c006ba725e07f9")
              example_env_sound) as (_ & _ & Hserver).
  - vm_compute. reflexivity.
  - apply (Hserver example_device_id example_device); vm_compute; reflexivity.
Defined.

(** ** Passwords of facility users *)

Lemma str_attr_set_attr (name : string) (s : string) (self : Instance) :
  str_attr name (set_attr name (Plain (VStr s)) self) = s.
Proof. unfold str_attr, set_attr. cbn [attrs assoc]. now rewrite String.eqb_refl. Qed.

Lemma split_char_no_separator (sep : ascii) (n : nat) (s : string) :
  Py.in_chars s sep = false -> split_char sep n s = [s].
Proof.
  revert n. induction s as [|c s IH]; intros n H; [reflexivity|].
  unfold Py.in_chars in H. cbn [list_ascii_of_string existsb] in H.
  apply orb_false_iff in H. destruct H as [Hc Hs].
  cbn [split_char]. destruct n as [|n]; [reflexivity|].
  rewrite Ascii.eqb_sym, Hc. now rewrite (IH (S n) Hs).
Qed.

(** X18: a password hash without a dollar sign makes [check_password]
    raise.  If the stored password of a user contains no ["$"] and is not
    the text ["sha1"], for instance when it is blank, then [check_password]
    ends with an [IndexError] for every password tried; it does not return
    false. *)
Theorem check_password_without_scheme (penv : PasswordEnv) (self : Instance) (raw : string) :
  Py.in_chars (str_attr "password" self) "$" = false ->
  str_attr "password" self <> "sha1" ->
  FacilityUser_check_password penv self raw = inl IndexError.
Proof.
  intros Hd Hs. unfold FacilityUser_check_password. cbv zeta.
  rewrite !(split_char_no_separator _ _ _ Hd).
  now apply String.eqb_neq in Hs as ->.
Qed.

Lemma check_password_without_scheme_witness :
  FacilityUser_check_password example_password_env (example_user "") "secret"
  = inl IndexError.
Proof.
  apply (check_password_without_scheme example_password_env (example_user "") "secret").
  - reflexivity.
  - discriminate.
Defined.

(** X19: a password set with [set_password] is accepted by
    [check_password], and any other attempt is compared against the stored
    hash.  If every fresh hash of [pbkdf2.crypt] starts with ["$p5k2$"],
    then after [set_password] the result of [check_password] for an attempt
    is whether re-hashing the attempt with the stored hash gives the stored
    hash; so when re-hashing the password itself reproduces the hash, the
    password is accepted. *)
Theorem set_password_then_check (penv : PasswordEnv) (self : Instance) (raw attempt : string) :
  (forall p n, exists rest, crypt_fresh penv p n = "$p5k2$" +:+ rest) ->
  let stored_hash := crypt_fresh penv raw (password_hash_iterations penv) in
  FacilityUser_check_password penv (FacilityUser_set_password penv self raw) attempt
  = inr (Some (String.eqb stored_hash (crypt penv attempt stored_hash)))
  /\ (crypt penv raw stored_hash = stored_hash ->
      FacilityUser_check_password penv (FacilityUser_set_password penv self raw) raw
      = inr (Some true)).
Proof.
  intros Hfmt stored_hash.
  assert (forall a,
            FacilityUser_check_password penv (FacilityUser_set_password penv self raw) a
            = inr (Some (String.eqb stored_hash (crypt penv a stored_hash)))) as Hc.
  { intros a. unfold FacilityUser_check_password, FacilityUser_set_password. cbv zeta.
    rewrite str_attr_set_attr. fold stored_hash.
    destruct (Hfmt raw (password_hash_iterations penv)) as [rest Hrest].
    fold stored_hash in Hrest. rewrite Hrest.
    rewrite !append_cons, append_nil. cbn [split_char Ascii.eqb Bool.eqb].
    destruct (split_char "$" 0 rest) as [|h t] eqn:Hsplit.
    - destruct rest; discriminate.
    - reflexivity. }
  split; [apply Hc|]. intros Hre. rewrite Hc, Hre. now rewrite String.eqb_refl.
Qed.

Lemma set_password_then_check_witness :
  FacilityUser_check_password example_password_env
    (FacilityUser_set_password example_password_env (example_user "") "secret") "guess"
  = inr (Some (String.eqb "$p5k2$7d0$salt$secret" "$p5k2$7d0$salt$guess"))
  /\ (crypt example_password_env "secret" "$p5k2$7d0$salt$secret" = "$p5k2$7d0$salt$secret" ->
      FacilityUser_check_password example_password_env
        (FacilityUser_set_password example_password_env (example_user "") "secret") "secret"
      = inr (Some true)).
Proof.
  apply (set_password_then_check example_password_env (example_user "") "secret" "guess").
  intros p n. exists ("7d0$salt$" +:+ p). reflexivity.
Defined.

(** ** The counter of a purgatory row *)

Lemma get_counter_run (d : Instance) (w : World) :
  Device_get_counter d w = (w, Return (if truthy (id d) then position d w else 0)).
Proof.
  unfold Device_get_counter, bind, read, ret, position. now destruct (truthy (id d)).
Qed.

(** X20: a purgatory row saved without a counter takes the counter of the
    own device.  Once the own device is registered, [ImportPurgatory.save]
    returns; the row it writes is in the purgatory table and carries the
    counter it was given, or, when that is zero, the counter position
    recorded for the own device; the tables of synced records and the
    device metadata are unchanged. *)
Theorem purgatory_save_counter (env : Env) (p : ImportPurgatory.t) (w : World)
    (own : Instance) :
  own_device_registered w own ->
  exists w' row,
    ImportPurgatory_save env p w = (w', Return row)
    /\ In row (import_purgatory w')
    /\ ImportPurgatory.counter row
       = (if ImportPurgatory.counter p =? 0
          then if truthy (id own) then position own w else 0
          else ImportPurgatory.counter p)
    /\ (forall c, table c w' = table c w)
    /\ device_metadata w' = device_metadata w.
Proof.
  intros Hreg.
  assert (exists w' row, ImportPurgatory_save env p w = (w', Return row)
                         /\ ImportPurgatory.counter row
                            = (if ImportPurgatory.counter p =? 0
                               then if truthy (id own) then position own w else 0
                               else ImportPurgatory.counter p)
                         /\ (forall c, table c w' = table c w)
                         /\ device_metadata w' = device_metadata w)
    as (w' & row & Hsave & Hc & Ht & Hm).
  { unfold ImportPurgatory_save. unfold bind at 1.
    destruct (ImportPurgatory.counter p =? 0) eqn:Hz; cbn [negb].
    - unfold bind at 1. rewrite (get_own_device_registered env w own Hreg).
      rewrite get_counter_run.
      destruct (ImportPurgatory.pk p) as [k|]; eexists _, _;
        (split; [reflexivity|]); cbn [ImportPurgatory.counter];
        (split; [reflexivity|]); (split; [intros c; now destruct c|reflexivity]).
    - unfold ret at 1.
      destruct (ImportPurgatory.pk p) as [k|]; eexists _, _;
        (split; [reflexivity|]); cbn [ImportPurgatory.counter];
        (split; [reflexivity|]); (split; [intros c; now destruct c|reflexivity]). }
  exists w', row. split; [exact Hsave|]. split; [|auto].
  exact (proj1 (purgatory_save_row env p row w w' Hsave)).
Qed.

Lemma purgatory_save_counter_witness :
  exists w' row,
    ImportPurgatory_save example_env ImportPurgatory.new (fst example_saved) = (w', Return row)
    /\ In row (import_purgatory w')
    /\ ImportPurgatory.counter row
       = (if ImportPurgatory.counter ImportPurgatory.new =? 0
          then if truthy (id example_device)
               then position example_device (fst example_saved) else 0
          else ImportPurgatory.counter ImportPurgatory.new)
    /\ (forall c, table c w' = table c (fst example_saved))
    /\ device_metadata w' = device_metadata (fst example_saved).
Proof.
  apply (purgatory_save_counter example_env ImportPurgatory.new (fst example_saved)
           example_device).
  eexists _, _. repeat split; vm_compute; reflexivity.
Defined.

(** ** An import never removes a synced record *)

Lemma extends_metadata_save (m : DeviceMetadata) (w : World) :
  extends w (fst (DeviceMetadata_save m w)).
Proof. apply extends_same_tables. intros c. apply tables_DeviceMetadata_save. Qed.

Lemma extends_tick (w : World) : extends w (tick_urandom w).
Proof. apply extends_same_tables. intros c. now destruct c. Qed.

Lemma extends_purgatory_save (env : Env) (p : ImportPurgatory.t) :
  stable extends (ImportPurgatory_save env p).
Proof.
  unfold ImportPurgatory_save. apply stable_bind; [apply extends_trans| |].
  - destruct (negb (ImportPurgatory.counter p =? 0)).
    + intros w. apply extends_refl.
    + apply stable_bind; [apply extends_trans| |].
      * apply stable_get_own_device;
          [apply extends_refl|apply extends_trans|apply extends_Model_save
          |apply extends_metadata_save|apply extends_tick].
      * intros [own|]; [|intros w; apply extends_refl].
        intros w. rewrite get_counter_run. apply extends_refl.
  - intros c w. destruct (ImportPurgatory.pk p);
      apply extends_same_tables; intros c'; now destruct c'.
Qed.

(** X21: an import never removes a synced record.  Whatever
    [save_serialized_models] is given and however it ends, with a result or
    with an exception, every row of the tables of synced records (zones,
    facilities, groups, users, device zones, logs and devices) that could be
    looked up by its key before the call can still be looked up after it.
    The purgatory table is not among them: the row of a retried batch that
    saved is deleted. *)
Theorem import_keeps_rows (env : Env) (data : import_data) (w : World) (c : ModelClass)
    (k : string) :
  find_row c k w <> None ->
  find_row c k (fst (save_serialized_models env data w)) <> None.
Proof.
  revert c k. change (extends w (fst (save_serialized_models env data w))).
  revert w. change (stable extends (save_serialized_models env data)).
  unfold save_serialized_models. destruct (deserialize env data) as [models err].
  apply stable_bind; [apply extends_trans| |].
  - apply stable_foldM; [apply extends_refl|apply extends_trans|].
    intros st model. apply stable_import_model;
      [apply extends_refl|apply extends_trans|apply extends_Model_save
      |apply extends_metadata_save|apply extends_tick].
  - intros st. destruct err as [e|]; [intros w; apply extends_refl|].
    apply stable_bind; [apply extends_trans| |].
    + destruct (unsaved_models st) as [|u us].
      * destruct (purgatory_of data) as [p|]; [|intros w; apply extends_refl].
        intros w. apply extends_same_tables. intros c'. now destruct c'.
      * apply stable_bind; [apply extends_trans| |].
        -- apply extends_purgatory_save.
        -- intros row w. apply extends_refl.
    + intros [] w. apply extends_refl.
Qed.

Lemma import_keeps_rows_witness :
  find_row Facility (pk (snd example_saved))
    (fst (save_serialized_models example_env example_batch (fst example_saved)))
  <> None.
Proof.
  apply (import_keeps_rows example_env example_batch (fst example_saved) Facility
           (pk (snd example_saved))).
  vm_compute. discriminate.
Defined.

(** ** Two records with one canonical string *)

Lemma chunks_app (self : Instance) (l1 l2 : list string) (w : World) :
  chunks self (l1 ++ l2) w
  = match chunks self l1 w with
    | Raise e => Raise e
    | Return cs1 =>
        match chunks self l2 w with
        | Raise e => Raise e
        | Return cs2 => Return (cs1 ++ cs2)
        end
    end.
Proof.
  induction l1 as [|f l1 IH]; cbn [app chunks].
  - now destruct (chunks self l2 w).
  - destruct (getattr self f w) as [v|e]; [|reflexivity]. rewrite IH.
    destruct (chunks self l1 w) as [cs1|e]; [|reflexivity].
    destruct (chunks self l2 w) as [cs2|e]; [|reflexivity].
    now destruct (truthy v).
Qed.

Lemma chunks_agree (self self' : Instance) (fields : list string) (w : World) :
  (forall h, In h fields -> getattr self' h w = getattr self h w) ->
  chunks self' fields w = chunks self fields w.
Proof.
  induction fields as [|f rest IH]; intros H; [reflexivity|].
  cbn [chunks]. rewrite (H f (or_introl eq_refl)), IH; [reflexivity|].
  intros h Hh. apply H. now right.
Qed.

Lemma join_merge (sep x y : string) (l1 l2 : list string) :
  Py.join sep (l1 ++ x :: y :: l2) = Py.join sep (l1 ++ (x +:+ sep +:+ y) :: l2).
Proof.
  induction l1 as [|z l1 IH].
  - cbn [app]. destruct l2 as [|z l2]; [reflexivity|].
    change (x +:+ sep +:+ (y +:+ sep +:+ Py.join sep (z :: l2))
            = (x +:+ sep +:+ y) +:+ sep +:+ Py.join sep (z :: l2)).
    now rewrite !append_assoc.
  - cbn [app]. destruct l1 as [|z' l1].
    + cbn [app] in *.
      change (z +:+ sep +:+ Py.join sep (x :: y :: l2)
              = z +:+ sep +:+ Py.join sep ((x +:+ sep +:+ y) :: l2)).
      now rewrite IH.
    + cbn [app] in *.
      change (z +:+ sep +:+ Py.join sep (z' :: l1 ++ x :: y :: l2)
              = z +:+ sep +:+ Py.join sep (z' :: l1 ++ (x +:+ sep +:+ y) :: l2)).
      now rewrite IH.
Qed.

(** X22: the canonical string does not determine the record.  Take two
    records of the same class other than [Device] that read the same on
    every hashed field except two fields [f] and [g] that are neighbours in
    the hashed order: the first record holds non-empty strings [a] and [b]
    there, the second holds [a&g=b] in [f] and the empty string in [g].
    Then both have the same hashable representation; and if they also carry
    the same signer and signature, [verify] gives the same answer for
    both. *)
Theorem hashable_representation_ambiguous (env : Env) (r r' : Instance) (w : World)
    (f g a b : string) (pre post : list string) :
  cls r <> Device -> cls r' = cls r ->
  hashed_fields (cls r) [] = pre ++ f :: g :: post ->
  a <> "" -> b <> "" ->
  getattr r f w = Return (VStr a) -> getattr r g w = Return (VStr b) ->
  getattr r' f w = Return (VStr (a +:+ "&" +:+ g +:+ "=" +:+ b)) ->
  getattr r' g w = Return (VStr "") ->
  (forall h, In h (pre ++ post) -> getattr r' h w = getattr r h w) ->
  _hashable_representation r' w = _hashable_representation r w
  /\ (signed_by_id r' = signed_by_id r -> signature r' = signature r ->
      verify env r' w = verify env r w).
Proof.
  intros Hcls Hcls' Hfields Ha Hb Hf Hg Hf' Hg' Hrest.
  assert (_hashable_representation r' w = _hashable_representation r w) as Hrep.
  { unfold _hashable_representation. rewrite Hcls'.
    assert (SyncedModel__hashable_representation r' [] w
            = SyncedModel__hashable_representation r [] w) as Hs.
    { unfold SyncedModel__hashable_representation. rewrite Hcls', Hfields.
      rewrite !chunks_app. cbn [chunks].
      rewrite (chunks_agree r r' pre w)
        by (intros h Hh; apply Hrest, List.in_or_app; now left).
      rewrite (chunks_agree r r' post w)
        by (intros h Hh; apply Hrest, List.in_or_app; now right).
      rewrite Hf, Hg, Hf', Hg'.
      destruct (chunks r pre w) as [cs1|e]; [|reflexivity].
      destruct (chunks r post w) as [cs2|e]; [|reflexivity].
      cbn [truthy].
      assert (String.eqb a "" = false) as -> by now apply String.eqb_neq.
      assert (String.eqb b "" = false) as -> by now apply String.eqb_neq.
      assert (String.eqb (a +:+ "&" +:+ g +:+ "=" +:+ b) "" = false) as ->.
      { apply String.eqb_neq. destruct a; [contradiction|discriminate]. }
      cbn [negb String.eqb]. f_equal. rewrite join_merge. f_equal. f_equal. f_equal.
      unfold token, render. cbn [py_str]. now rewrite !append_assoc. }
    destruct (cls r); try exact Hs. contradiction. }
  split; [exact Hrep|]. intros Hsigner Hsig.
  rewrite !verify_not_device by congruence.
  rewrite !SyncedModel_verify_cases. unfold signed_by_present.
  now rewrite Hrep, Hsigner, Hsig, Hcls'.
Qed.

Lemma hashable_representation_ambiguous_witness :
  _hashable_representation example_facility_merged example_world
  = _hashable_representation example_facility_plain example_world
  /\ (signed_by_id example_facility_merged = signed_by_id example_facility_plain ->
      signature example_facility_merged = signature example_facility_plain ->
      verify example_env example_facility_merged example_world
      = verify example_env example_facility_plain example_world).
Proof.
  apply (hashable_representation_ambiguous example_env example_facility_plain
           example_facility_merged example_world "address" "address_normalized"
           "1 Main St" "1 main st" []
           ["contact_email"; "contact_name"; "contact_phone"; "counter"; "deleted";
            "description"; "id"; "latitude"; "longitude"; "name"; "signed_version";
            "user_count"; "zone_fallback"; "zoom"]);
    try discriminate; try (vm_compute; reflexivity).
  intros h Hh. cbn [app In] in Hh.
  repeat (destruct Hh as [<-|Hh]; [vm_compute; reflexivity|]). destruct Hh.
Defined.
